(** * hello_opengl: camera input, model transform and bloom pass graph

    A shallow embedding of [src/hello_opengl.cpp].

    - [Glm]    : the vector and matrix operations of GLM that the program calls.
    - [Input]  : the [Camera] struct, the GLFW callbacks and the held-key table.
    - [Scene]  : the per-frame model transform of the rendered mesh.
    - [GL]     : the part of the OpenGL context the program drives: object
                 names, texture images, framebuffer attachments, bindings,
                 integer uniforms and a log of the draw calls issued.
    - [Render] : texture loading with its fallbacks, [BloomFBO::init], and the
                 four passes of one frame of the render loop.
    - [Motion] : [Camera::viewMatrix], the projection, [processKeyboard] and
                 the frame time of the loop.
    - [Lights] : the positions of the two lights.
    - [Files]  : [readFile], [loadShaderText] and the directory of the model.
    - [Model]  : [loadObjToMesh], [initQuad] and the vertex arrays and buffers
                 of the context they fill.

    Numbers of C++ type [float] and [double] are modelled by the real numbers
    [R]: arithmetic is exact and every value is finite (no rounding, no NaN,
    no infinity).  C++ [int] is [Z]; [GLuint] object names are [N]. *)

From Stdlib Require Import ZArith NArith List String Bool Reals Lra Lia.
From stdpp Require Import base option list functions strings.

Import ListNotations.

(* ===================================================================== *)
(** * GLM: vectors and matrices                                           *)
(* ===================================================================== *)

Module Glm.
Local Open Scope R_scope.

Record vec3 := mk_vec3 { x : R; y : R; z : R }.
Record vec4 := mk_vec4 { x4 : R; y4 : R; z4 : R; w4 : R }.

(** [glm::mat4] is column-major: [m[i]] is the i-th column. *)
Record mat4 := mk_mat4 { col0 : vec4; col1 : vec4; col2 : vec4; col3 : vec4 }.

(** [glm::radians(degrees)] *)
Definition radians (degrees : R) : R := degrees * (PI / 180).

Definition dot (a b : vec3) : R := x a * x b + y a * y b + z a * z b.

(** [glm::inversesqrt(x)] is [1 / sqrt(x)]. *)
Definition inversesqrt (r : R) : R := 1 / sqrt r.

Definition vec3_scale (v : vec3) (k : R) : vec3 :=
  mk_vec3 (x v * k) (y v * k) (z v * k).

(** [glm::length(v)] is [sqrt(dot(v, v))]. *)
Definition length (v : vec3) : R := sqrt (dot v v).

(** [glm::normalize(v)] is [v * inversesqrt(dot(v, v))]. *)
Definition normalize (v : vec3) : vec3 := vec3_scale v (inversesqrt (dot v v)).

Definition vec4_scale (v : vec4) (k : R) : vec4 :=
  mk_vec4 (x4 v * k) (y4 v * k) (z4 v * k) (w4 v * k).

Definition vec4_add (a b : vec4) : vec4 :=
  mk_vec4 (x4 a + x4 b) (y4 a + y4 b) (z4 a + z4 b) (w4 a + w4 b).

(** [glm::mat4(s)]: the diagonal matrix with [s] on the diagonal. *)
Definition mat4_diag (s : R) : mat4 :=
  mk_mat4 (mk_vec4 s 0 0 0) (mk_vec4 0 s 0 0) (mk_vec4 0 0 s 0) (mk_vec4 0 0 0 s).

(** [glm::scale(m, v)]:
    [Result[0] = m[0] * v[0]; Result[1] = m[1] * v[1];
     Result[2] = m[2] * v[2]; Result[3] = m[3]]. *)
Definition scale (m : mat4) (v : vec3) : mat4 :=
  mk_mat4 (vec4_scale (col0 m) (x v))
          (vec4_scale (col1 m) (y v))
          (vec4_scale (col2 m) (z v))
          (col3 m).

(** [glm::translate(m, v)]:
    [Result = m; Result[3] = m[0] * v[0] + m[1] * v[1] + m[2] * v[2] + m[3]]. *)
Definition translate (m : mat4) (v : vec3) : mat4 :=
  mk_mat4 (col0 m) (col1 m) (col2 m)
          (vec4_add (vec4_add (vec4_add (vec4_scale (col0 m) (x v))
                                        (vec4_scale (col1 m) (y v)))
                              (vec4_scale (col2 m) (z v)))
                    (col3 m)).

(** [glm::rotate(m, angle, v)]: with [c = cos(angle)], [s = sin(angle)],
    [axis = normalize(v)] and [temp = (1 - c) * axis], GLM builds the 3x3
    rotation [Rotate] and returns
    [Result[j] = m[0] * Rotate[j][0] + m[1] * Rotate[j][1] + m[2] * Rotate[j][2]]
    for [j = 0, 1, 2] and [Result[3] = m[3]]. *)
Definition rotate (m : mat4) (angle : R) (v : vec3) : mat4 :=
  let c := cos angle in
  let s := sin angle in
  let axis := normalize v in
  let temp := vec3_scale axis (1 - c) in
  let r00 := c + x temp * x axis in
  let r01 := x temp * y axis + s * z axis in
  let r02 := x temp * z axis - s * y axis in
  let r10 := y temp * x axis - s * z axis in
  let r11 := c + y temp * y axis in
  let r12 := y temp * z axis + s * x axis in
  let r20 := z temp * x axis + s * y axis in
  let r21 := z temp * y axis - s * x axis in
  let r22 := c + z temp * z axis in
  let comb a b d :=
    vec4_add (vec4_add (vec4_scale (col0 m) a) (vec4_scale (col1 m) b))
             (vec4_scale (col2 m) d) in
  mk_mat4 (comb r00 r01 r02) (comb r10 r11 r12) (comb r20 r21 r22) (col3 m).

(** [m * v] for a [mat4] and a [vec4]:
    [m[0] * v.x + m[1] * v.y + m[2] * v.z + m[3] * v.w]. *)
Definition mat4_mul_vec4 (m : mat4) (v : vec4) : vec4 :=
  vec4_add (vec4_add (vec4_add (vec4_scale (col0 m) (x4 v))
                               (vec4_scale (col1 m) (y4 v)))
                     (vec4_scale (col2 m) (z4 v)))
           (vec4_scale (col3 m) (w4 v)).

End Glm.

(* ===================================================================== *)
(** * Camera and input callbacks                                          *)
(* ===================================================================== *)

Module Input.
Import Glm.
Local Open Scope R_scope.

(** Constants of [GLFW/glfw3.h]. *)
Definition GLFW_RELEASE : Z := 0.
Definition GLFW_PRESS : Z := 1.
Definition GLFW_REPEAT : Z := 2.
Definition GLFW_KEY_UNKNOWN : Z := -1.
Definition GLFW_KEY_ESCAPE : Z := 256.
Definition GLFW_MOUSE_BUTTON_LEFT : Z := 0.
Definition GLFW_MOUSE_BUTTON_RIGHT : Z := 1.

(** [struct Camera] *)
Record Camera := mk_Camera {
  pos : vec3;
  front : vec3;
  up : vec3;
  yaw : R;
  pitch : R;
  fov : R;
  lastX : R;
  lastY : R;
  firstMouse : bool;
  mouseDown : bool
}.

(** The member initialisers of [struct Camera]. *)
Definition camera_init : Camera :=
  {| pos := mk_vec3 0 1.5 10;
     front := mk_vec3 0 0 (-1);
     up := mk_vec3 0 1 0;
     yaw := -90; pitch := -10;
     fov := 45;
     lastX := 400; lastY := 300;
     firstMouse := true;
     mouseDown := false |}.

Definition set_last (xpos ypos : R) (c : Camera) : Camera :=
  mk_Camera (pos c) (front c) (up c) (yaw c) (pitch c) (fov c)
            xpos ypos (firstMouse c) (mouseDown c).

Definition set_yaw (v : R) (c : Camera) : Camera :=
  mk_Camera (pos c) (front c) (up c) v (pitch c) (fov c)
            (lastX c) (lastY c) (firstMouse c) (mouseDown c).

Definition set_pitch (v : R) (c : Camera) : Camera :=
  mk_Camera (pos c) (front c) (up c) (yaw c) v (fov c)
            (lastX c) (lastY c) (firstMouse c) (mouseDown c).

Definition set_front (v : vec3) (c : Camera) : Camera :=
  mk_Camera (pos c) v (up c) (yaw c) (pitch c) (fov c)
            (lastX c) (lastY c) (firstMouse c) (mouseDown c).

Definition set_fov (v : R) (c : Camera) : Camera :=
  mk_Camera (pos c) (front c) (up c) (yaw c) (pitch c) v
            (lastX c) (lastY c) (firstMouse c) (mouseDown c).

Definition set_drag (down first : bool) (c : Camera) : Camera :=
  mk_Camera (pos c) (front c) (up c) (yaw c) (pitch c) (fov c)
            (lastX c) (lastY c) first down.

(** [Camera::processMouseMove] *)
Definition processMouseMove (c : Camera) (xpos ypos : R) : Camera :=
  if negb (mouseDown c) then set_last xpos ypos c
  else
    let xoffset := xpos - lastX c in
    let yoffset := lastY c - ypos in
    let c := set_last xpos ypos c in
    let sensitivity := 0.18 in
    let xoffset := xoffset * sensitivity in
    let yoffset := yoffset * sensitivity in
    let c := set_yaw (yaw c + xoffset) c in
    let c := set_pitch (pitch c + yoffset) c in
    let c := if Rgt_dec (pitch c) 89 then set_pitch 89 c else c in
    let c := if Rlt_dec (pitch c) (-89) then set_pitch (-89) c else c in
    let dir :=
      mk_vec3 (cos (radians (yaw c)) * cos (radians (pitch c)))
              (sin (radians (pitch c)))
              (sin (radians (yaw c)) * cos (radians (pitch c))) in
    set_front (normalize dir) c.

(** [mouse_button_callback], acting on the global [camera]. *)
Definition mouse_button_callback (c : Camera) (button action mods : Z) : Camera :=
  if (button =? GLFW_MOUSE_BUTTON_RIGHT)%Z
  then set_drag (action =? GLFW_PRESS)%Z true c
  else c.

(** [cursor_callback]: the [(float)] casts are the identity on [R]. *)
Definition cursor_callback (c : Camera) (xpos ypos : R) : Camera :=
  processMouseMove c xpos ypos.

(** [scroll_callback] *)
Definition scroll_callback (c : Camera) (xoffset yoffset : R) : Camera :=
  let c := set_fov (fov c - yoffset) c in
  let c := if Rlt_dec (fov c) 15 then set_fov 15 c else c in
  let c := if Rgt_dec (fov c) 90 then set_fov 90 c else c in
  c.

(** The events GLFW delivers to the three camera callbacks. *)
Inductive CameraEvent :=
| MouseButton (button action mods : Z)
| CursorPos (xpos ypos : R)
| Scroll (xoffset yoffset : R).

Definition camera_step (c : Camera) (e : CameraEvent) : Camera :=
  match e with
  | MouseButton button action mods => mouse_button_callback c button action mods
  | CursorPos xpos ypos => cursor_callback c xpos ypos
  | Scroll xoffset yoffset => scroll_callback c xoffset yoffset
  end.

(** The run of the camera over a sequence of events, as the list of
    (state before, event, state after) of every callback invocation. *)
Fixpoint camera_run (c : Camera) (evs : list CameraEvent)
  : list (Camera * CameraEvent * Camera) :=
  match evs with
  | [] => []
  | e :: evs' => let c' := camera_step c e in (c, e, c') :: camera_run c' evs'
  end.

(** The global [bool keys[1024]] together with the close flag of the window
    that [glfwSetWindowShouldClose] sets. *)
Record Keyboard := mk_Keyboard {
  keys : list bool;
  shouldClose : bool
}.

Definition KEYS_SIZE : nat := 1024.

(** Globals are zero-initialised. *)
Definition keyboard_init : Keyboard :=
  {| keys := replicate KEYS_SIZE false; shouldClose := false |}.

(** A write [a[i] = v] to a C array: outside [0 <= i < length a] the
    behaviour is undefined, which the model reports as [None]. *)
Definition array_store {A : Type} (a : list A) (i : Z) (v : A) : option (list A) :=
  if ((0 <=? i) && (i <? Z.of_nat (List.length a)))%Z
  then Some (<[Z.to_nat i := v]> a)
  else None.

(** [key_callback] *)
Definition key_callback (st : Keyboard) (key scancode action mods : Z)
  : option Keyboard :=
  let st :=
    if ((key =? GLFW_KEY_ESCAPE) && (action =? GLFW_PRESS))%Z
    then mk_Keyboard (keys st) true
    else st in
  if ((key >=? 0) && (key <? 1024))%Z then
    if (action =? GLFW_PRESS)%Z then
      ks ← array_store (keys st) key true; Some (mk_Keyboard ks (shouldClose st))
    else if (action =? GLFW_RELEASE)%Z then
      ks ← array_store (keys st) key false; Some (mk_Keyboard ks (shouldClose st))
    else Some st
  else Some st.

End Input.

(* ===================================================================== *)
(** * The model transform of the mesh                                     *)
(* ===================================================================== *)

Module Scene.
Import Glm.
Local Open Scope R_scope.

(** The walk parameters declared before [main]. *)
Definition walkSpeed : R := 2.
Definition walkRange : R := 4.
Definition walkAxis : R := 0.

(** The construction of [model_m] in the geometry pass, with the scale
    factor, the walk parameters and the rotation angle as arguments:
    [glm::mat4(1.0f)], then [glm::scale], [glm::translate], [glm::rotate]. *)
Definition model_matrix (ScaleFactor range speed axisY currentFrame angle : R) : mat4 :=
  let model_m := mat4_diag 1 in
  let model_m := scale model_m (mk_vec3 ScaleFactor ScaleFactor ScaleFactor) in
  let walkPos := cos (currentFrame * speed) * range in
  let model_m := translate model_m (mk_vec3 walkPos axisY 0) in
  let model_m := rotate model_m angle (mk_vec3 0 1 0) in
  model_m.

(** [model_m] as [main] builds it at time [currentFrame]. *)
Definition model_m (currentFrame : R) : mat4 :=
  let ScaleFactor := 3 in
  model_matrix ScaleFactor walkRange walkSpeed walkAxis
               currentFrame (currentFrame * radians 60).

(** Modelled from the spec: the vertex shader [shaders/pbr.vs], which
    applies the [model] uniform to the vertices, is not among the sources.
    "The composed model transform applied to a mesh vertex" is the product
    of the model matrix with the point [(p, 1)]. *)
Definition world_position (m : mat4) (p : vec3) : vec4 :=
  mat4_mul_vec4 m (mk_vec4 (x p) (y p) (z p) 1).

Definition origin : vec3 := mk_vec3 0 0 0.

End Scene.

(* ===================================================================== *)
(** * The OpenGL context                                                  *)
(* ===================================================================== *)

Module GL.
Local Open Scope N_scope.

Abbreviation GLuint := N.

Inductive Format :=
| GL_RGB | GL_RGBA | GL_RGB8 | GL_RGBA8 | GL_SRGB8 | GL_SRGB8_ALPHA8 | GL_RGBA16F.

Inductive PixelType := GL_UNSIGNED_BYTE | GL_FLOAT.

(** The level-0 image of a texture object, as [glTexImage2D] specifies it;
    [ti_data = None] is a [NULL] data pointer (storage only).  [ti_data]
    is the client data handed to the call; how many of its bytes the call
    reads is [Assets.client_bytes]. *)
Record TexImage := mk_TexImage {
  ti_internal : Format;
  ti_width : Z;
  ti_height : Z;
  ti_format : Format;
  ti_type : PixelType;
  ti_data : option (list Z)
}.

Inductive DrawCommand :=
| DrawArrays (first count : Z)
| DrawElements (count : Z).

(** What a draw call was issued with: the bindings and the integer uniforms
    of the program in use at that moment. *)
Record Draw := mk_Draw {
  d_command : DrawCommand;
  d_framebuffer : GLuint;
  d_program : GLuint;
  d_vertex_array : GLuint;
  d_units : N -> GLuint;
  d_uniform : string -> Z
}.

(** The context.  Object names come from counters ([glGen*] hands out the
    next unused name; name 0 is reserved).  [texture_2d u] is the texture
    bound to [GL_TEXTURE_2D] of unit [GL_TEXTURE0 + u]; 0 is no texture, and
    framebuffer 0 is the window.  [draws] logs the draw calls in order. *)
Record Context := mk_Context {
  next_texture : GLuint;
  next_framebuffer : GLuint;
  image : GLuint -> option TexImage;
  color_attachment : GLuint -> N -> GLuint;
  draw_buffers : GLuint -> list N;
  uniform : GLuint -> string -> Z;
  framebuffer : GLuint;
  program : GLuint;
  vertex_array : GLuint;
  active_texture : N;
  texture_2d : N -> GLuint;
  draws : list Draw
}.

(** A freshly created context. *)
Definition context_init : Context :=
  {| next_texture := 1;
     next_framebuffer := 1;
     image := fun _ => None;
     color_attachment := fun _ _ => 0%N;
     draw_buffers := fun _ => [0%N];
     uniform := fun _ _ => 0%Z;
     framebuffer := 0;
     program := 0;
     vertex_array := 0;
     active_texture := 0;
     texture_2d := fun _ => 0%N;
     draws := [] |}.

Definition Cmd := Context -> Context.

(** Commands in program order. *)
Definition run (cs : list Cmd) : Cmd := fun g => fold_left (fun g c => c g) cs g.

Definition names_from (first : GLuint) (n : nat) : list GLuint :=
  map (fun i => first + N.of_nat i) (seq 0%nat n).

Definition glGenTextures (n : nat) (g : Context) : list GLuint * Context :=
  (names_from (next_texture g) n,
   mk_Context (next_texture g + N.of_nat n) (next_framebuffer g) (image g)
              (color_attachment g) (draw_buffers g) (uniform g) (framebuffer g)
              (program g) (vertex_array g) (active_texture g) (texture_2d g)
              (draws g)).

Definition glGenFramebuffers (n : nat) (g : Context) : list GLuint * Context :=
  (names_from (next_framebuffer g) n,
   mk_Context (next_texture g) (next_framebuffer g + N.of_nat n) (image g)
              (color_attachment g) (draw_buffers g) (uniform g) (framebuffer g)
              (program g) (vertex_array g) (active_texture g) (texture_2d g)
              (draws g)).

Definition glBindFramebuffer (fb : GLuint) : Cmd := fun g =>
  mk_Context (next_texture g) (next_framebuffer g) (image g)
             (color_attachment g) (draw_buffers g) (uniform g) fb
             (program g) (vertex_array g) (active_texture g) (texture_2d g)
             (draws g).

Definition glUseProgram (p : GLuint) : Cmd := fun g =>
  mk_Context (next_texture g) (next_framebuffer g) (image g)
             (color_attachment g) (draw_buffers g) (uniform g) (framebuffer g)
             p (vertex_array g) (active_texture g) (texture_2d g)
             (draws g).

Definition glBindVertexArray (vao : GLuint) : Cmd := fun g =>
  mk_Context (next_texture g) (next_framebuffer g) (image g)
             (color_attachment g) (draw_buffers g) (uniform g) (framebuffer g)
             (program g) vao (active_texture g) (texture_2d g)
             (draws g).

(** [glActiveTexture(GL_TEXTURE0 + u)] *)
Definition glActiveTexture (u : N) : Cmd := fun g =>
  mk_Context (next_texture g) (next_framebuffer g) (image g)
             (color_attachment g) (draw_buffers g) (uniform g) (framebuffer g)
             (program g) (vertex_array g) u (texture_2d g)
             (draws g).

(** [glBindTexture(GL_TEXTURE_2D, tex)] binds on the active unit. *)
Definition glBindTexture (tex : GLuint) : Cmd := fun g =>
  mk_Context (next_texture g) (next_framebuffer g) (image g)
             (color_attachment g) (draw_buffers g) (uniform g) (framebuffer g)
             (program g) (vertex_array g) (active_texture g)
             (<[active_texture g := tex]> (texture_2d g))
             (draws g).

(** [glTexImage2D(GL_TEXTURE_2D, 0, internal, w, h, 0, format, type, data)]
    defines the image of the texture bound on the active unit. *)
Definition glTexImage2D (internal : Format) (w h : Z) (format : Format)
    (type : PixelType) (data : option (list Z)) : Cmd := fun g =>
  mk_Context (next_texture g) (next_framebuffer g)
             (<[texture_2d g (active_texture g) :=
                  Some (mk_TexImage internal w h format type data)]> (image g))
             (color_attachment g) (draw_buffers g) (uniform g) (framebuffer g)
             (program g) (vertex_array g) (active_texture g) (texture_2d g)
             (draws g).

(** [glFramebufferTexture2D(GL_FRAMEBUFFER, GL_COLOR_ATTACHMENT0 + i,
    GL_TEXTURE_2D, tex, 0)] attaches to the bound framebuffer. *)
Definition glFramebufferTexture2D (i : N) (tex : GLuint) : Cmd := fun g =>
  mk_Context (next_texture g) (next_framebuffer g) (image g)
             (<[framebuffer g := <[i := tex]> (color_attachment g (framebuffer g))]>
                (color_attachment g))
             (draw_buffers g) (uniform g) (framebuffer g)
             (program g) (vertex_array g) (active_texture g) (texture_2d g)
             (draws g).

(** [glDrawBuffers(n, bufs)] with [bufs[k] = GL_COLOR_ATTACHMENT0 + idx[k]],
    for the bound framebuffer. *)
Definition glDrawBuffers (idx : list N) : Cmd := fun g =>
  mk_Context (next_texture g) (next_framebuffer g) (image g)
             (color_attachment g)
             (<[framebuffer g := idx]> (draw_buffers g))
             (uniform g) (framebuffer g)
             (program g) (vertex_array g) (active_texture g) (texture_2d g)
             (draws g).

(** A uniform location is modelled by the name of the uniform: the programs
    are taken to declare the uniforms the host code sets. *)
Definition glGetUniformLocation (prog : GLuint) (name : string) : string := name.

(** [glUniform1i(location, v)] sets a uniform of the program in use. *)
Definition glUniform1i (location : string) (v : Z) : Cmd := fun g =>
  mk_Context (next_texture g) (next_framebuffer g) (image g)
             (color_attachment g) (draw_buffers g)
             (<[program g := <[location := v]> (uniform g (program g))]> (uniform g))
             (framebuffer g)
             (program g) (vertex_array g) (active_texture g) (texture_2d g)
             (draws g).

Definition snapshot (cmd : DrawCommand) (g : Context) : Draw :=
  {| d_command := cmd;
     d_framebuffer := framebuffer g;
     d_program := program g;
     d_vertex_array := vertex_array g;
     d_units := texture_2d g;
     d_uniform := uniform g (program g) |}.

Definition issue (cmd : DrawCommand) : Cmd := fun g =>
  mk_Context (next_texture g) (next_framebuffer g) (image g)
             (color_attachment g) (draw_buffers g) (uniform g) (framebuffer g)
             (program g) (vertex_array g) (active_texture g) (texture_2d g)
             (draws g ++ [snapshot cmd g]).

(** [glDrawArrays(GL_TRIANGLES, first, count)] *)
Definition glDrawArrays (first count : Z) : Cmd := issue (DrawArrays first count).

(** [glDrawElements(GL_TRIANGLES, count, GL_UNSIGNED_INT, 0)] *)
Definition glDrawElements (count : Z) : Cmd := issue (DrawElements count).

(** Calls that change the contents of a surface or sampling and viewport
    parameters, none of which the context above records. *)
Definition glClear : Cmd := fun g => g.
Definition glViewport (x y w h : Z) : Cmd := fun g => g.
Definition glGenerateMipmap : Cmd := fun g => g.
Definition glTexParameteri : Cmd := fun g => g.

(** The texture a draw call samples through the sampler uniform [sampler]:
    the one bound to the unit the uniform holds. *)
Definition sampled (d : Draw) (sampler : string) : GLuint :=
  d_units d (Z.to_N (d_uniform d sampler)).

(** The textures a draw into framebuffer [fb] writes: the colour attachments
    selected as draw buffers.  Framebuffer 0 is the window. *)
Definition render_targets (g : Context) (fb : GLuint) : list GLuint :=
  if (fb =? 0)%N then [] else map (color_attachment g fb) (draw_buffers g fb).

End GL.

(* ===================================================================== *)
(** * Startup and the render loop                                         *)
(* ===================================================================== *)

Module Render.
Import GL.
Local Open Scope N_scope.

(** The result of a successful [stbi_load]: width, height, channel count
    and the decoded bytes. *)
Record Image := mk_Image {
  img_w : Z;
  img_h : Z;
  img_c : Z;
  img_data : list Z
}.

(** [struct Mesh] *)
Record Mesh := mk_Mesh {
  vao : GLuint;
  vbo : GLuint;
  ebo : GLuint;
  count : Z
}.

(** What the program takes from outside: the image decoder ([None] is a
    null pointer: file missing or not decodable), the program objects
    [createProgram] returned, the mesh [loadObjToMesh] filled in ([vao = 0]
    when loading failed) and the vertex array of [initQuad]. *)
Record Env := mk_Env {
  stbi_load : string -> option Image;
  pbrProg : GLuint;
  brightProg : GLuint;
  blurProg : GLuint;
  combineProg : GLuint;
  mesh : Mesh;
  quadVAO : GLuint
}.

(** [a[i]] on a C array of object names. *)
Definition at_index (a : list GLuint) (i : nat) : GLuint := nth i a 0%N.

(** [loadTexture(path, srgb, flip)]; returns 0 when the image cannot be
    loaded.  [flip] only sets the vertical flip of the decoder, whose
    result [stbi_load] of the environment stands for. *)
Definition loadTexture (env : Env) (path : string) (srgb flip : bool)
    (g : Context) : GLuint * Context :=
  match stbi_load env path with
  | None => (0%N, g)
  | Some img =>
      let c := img_c img in
      let internal :=
        if (c =? 4)%Z then (if srgb then GL_SRGB8_ALPHA8 else GL_RGBA8)
        else (if srgb then GL_SRGB8 else GL_RGB8) in
      let format := if (c =? 4)%Z then GL_RGBA else GL_RGB in
      let '(texs, g) := glGenTextures 1%nat g in
      let tex := at_index texs 0%nat in
      let g := run [ glBindTexture tex;
                     glTexImage2D internal (img_w img) (img_h img) format
                                  GL_UNSIGNED_BYTE (Some (img_data img));
                     glGenerateMipmap;
                     glTexParameteri; glTexParameteri;
                     glTexParameteri; glTexParameteri ] g in
      (tex, g)
  end.

(** The pixel of the fallback texture: [unsigned char white[3]]. *)
Definition white : list Z := [255; 255; 255]%Z.

(** [struct BloomFBO] *)
Record BloomFBO := mk_BloomFBO {
  hdrFBO : GLuint;
  colorBuffers : list GLuint;
  pingpongFBO : list GLuint;
  pingpongColorbuffers : list GLuint;
  width : Z;
  height : Z
}.

(** One round of the first loop of [BloomFBO::init]. *)
Definition init_color_buffer (colorBuffers : list GLuint) (w h : Z) (i : nat) : Cmd :=
  run [ glBindTexture (at_index colorBuffers i);
        glTexImage2D GL_RGBA16F w h GL_RGBA GL_FLOAT None;
        glTexParameteri; glTexParameteri;
        glFramebufferTexture2D (N.of_nat i) (at_index colorBuffers i) ].

(** One round of the second loop of [BloomFBO::init]. *)
Definition init_pingpong (pingpongFBO pingpongColorbuffers : list GLuint)
    (w h : Z) (i : nat) : Cmd :=
  run [ glBindFramebuffer (at_index pingpongFBO i);
        glBindTexture (at_index pingpongColorbuffers i);
        glTexImage2D GL_RGBA16F w h GL_RGBA GL_FLOAT None;
        glTexParameteri; glTexParameteri;
        glFramebufferTexture2D 0 (at_index pingpongColorbuffers i) ].

(** [BloomFBO::init(w, h)].  The depth renderbuffer of the HDR framebuffer
    is not a texture and is left out; the completeness checks only log. *)
Definition BloomFBO_init (w h : Z) (g : Context) : BloomFBO * Context :=
  let '(fbs, g) := glGenFramebuffers 1%nat g in
  let hdrFBO := at_index fbs 0%nat in
  let g := glBindFramebuffer hdrFBO g in
  let '(colorBuffers, g) := glGenTextures 2%nat g in
  let g := run (map (init_color_buffer colorBuffers w h) (seq 0%nat 2%nat)) g in
  let g := glDrawBuffers [0%N; 1%N] g in
  let g := glBindFramebuffer 0 g in
  let '(pingpongFBO, g) := glGenFramebuffers 2%nat g in
  let '(pingpongColorbuffers, g) := glGenTextures 2%nat g in
  let g := run (map (init_pingpong pingpongFBO pingpongColorbuffers w h) (seq 0%nat 2%nat)) g in
  let g := glBindFramebuffer 0 g in
  (mk_BloomFBO hdrFBO colorBuffers pingpongFBO pingpongColorbuffers w h, g).

(** The objects [main] creates before the loop and uses in every frame. *)
Record Resources := mk_Resources {
  texAlbedo : GLuint;
  texNormal : GLuint;
  texMetallic : GLuint;
  texRoughness : GLuint;
  texAO : GLuint;
  bloomFBO : BloomFBO
}.

Definition SCR_W : Z := 2560%Z.
Definition SCR_H : Z := 1440%Z.

(** The "default uniforms binding" of [main]: each sampler uniform gets
    its texture unit. *)
Definition bind_samplers (env : Env) : Cmd :=
  run [ glUseProgram (pbrProg env);
        glUniform1i (glGetUniformLocation (pbrProg env) "albedoMap") 0%Z;
        glUniform1i (glGetUniformLocation (pbrProg env) "normalMap") 1%Z;
        glUniform1i (glGetUniformLocation (pbrProg env) "metallicMap") 2%Z;
        glUniform1i (glGetUniformLocation (pbrProg env) "roughnessMap") 3%Z;
        glUniform1i (glGetUniformLocation (pbrProg env) "aoMap") 4%Z;
        glUseProgram (brightProg env);
        glUniform1i (glGetUniformLocation (brightProg env) "scene") 0%Z;
        glUseProgram (blurProg env);
        glUniform1i (glGetUniformLocation (blurProg env) "image") 0%Z;
        glUseProgram (combineProg env);
        glUniform1i (glGetUniformLocation (combineProg env) "scene") 0%Z;
        glUseProgram (combineProg env);
        glUniform1i (glGetUniformLocation (combineProg env) "bloomBlur") 1%Z ].

(** The load of the albedo texture with its fallback: when [loadTexture]
    returns 0, a 1x1 texture made of the [white] pixel takes its place. *)
Definition load_albedo (env : Env) (g : Context) : GLuint * Context :=
  let '(texAlbedo, g) := loadTexture env "resources/albedo.png" false true g in
  if (texAlbedo =? 0)%N then
    let '(texs, g) := glGenTextures 1%nat g in
    let texAlbedo := at_index texs 0%nat in
    (texAlbedo,
     run [ glBindTexture texAlbedo;
           glTexImage2D GL_RGB 1%Z 1%Z GL_RGB GL_UNSIGNED_BYTE (Some white);
           glTexParameteri; glTexParameteri ] g)
  else (texAlbedo, g).

(** The startup part of [main], from the texture loads to the sampler
    uniforms. *)
Definition setup (env : Env) (g : Context) : Resources * Context :=
  let '(texAlbedo, g) := load_albedo env g in
  let '(texNormal, g) := loadTexture env "resources/normal.png" false true g in
  let '(texMetallic, g) := loadTexture env "resources/metallic.png" false true g in
  let '(texRoughness, g) := loadTexture env "resources/roughness.png" false true g in
  let '(texAO, g) := loadTexture env "resources/ao.png" false true g in
  let '(bloomFBO, g) := BloomFBO_init SCR_W SCR_H g in
  let g := bind_samplers env g in
  (mk_Resources texAlbedo texNormal texMetallic texRoughness texAO bloomFBO, g).

(** [t ? t : fallback] on object names. *)
Definition or_else (t fallback : GLuint) : GLuint :=
  if (t =? 0)%N then fallback else t.

(** Pass 1 of the loop body: the scene into the HDR framebuffer.  The
    matrix, camera and light uniforms are floats and bind nothing; the
    model matrix is [Scene.model_m]. *)
Definition geometry_pass (env : Env) (r : Resources) : Cmd :=
  run [ glBindFramebuffer (hdrFBO (bloomFBO r));
        glClear;
        glViewport 0%Z 0%Z SCR_W SCR_H;
        glUseProgram (pbrProg env);
        glActiveTexture 0; glBindTexture (texAlbedo r);
        glActiveTexture 1; glBindTexture (or_else (texNormal r) (texAlbedo r));
        glActiveTexture 2; glBindTexture (or_else (texMetallic r) (texAlbedo r));
        glActiveTexture 3; glBindTexture (or_else (texRoughness r) (texAlbedo r));
        glActiveTexture 4; glBindTexture (or_else (texAO r) (texAlbedo r));
        (if (vao (mesh env) =? 0)%N then (fun g => g)
         else run [ glBindVertexArray (vao (mesh env));
                    glDrawElements (count (mesh env));
                    glBindVertexArray 0 ]);
        glBindFramebuffer 0 ].

(** Pass 2: the bright parts into ping-pong framebuffer 0. *)
Definition bright_pass (env : Env) (r : Resources) : Cmd :=
  run [ glUseProgram (brightProg env);
        glBindFramebuffer (at_index (pingpongFBO (bloomFBO r)) 0%nat);
        glClear;
        glActiveTexture 0;
        glBindTexture (at_index (colorBuffers (bloomFBO r)) 1%nat);
        glBindVertexArray (quadVAO env);
        glDrawArrays 0%Z 6%Z;
        glBindVertexArray 0;
        glBindFramebuffer 0 ].

(** The body of the blur loop, at loop counter [i] and flag [horizontal];
    a [bool] used as an index is 1 for [true] and 0 for [false]. *)
Definition blur_body (env : Env) (r : Resources) (i : Z) (horizontal : bool) : Cmd :=
  run [ glBindFramebuffer (at_index (pingpongFBO (bloomFBO r)) (Nat.b2n horizontal));
        glUniform1i (glGetUniformLocation (blurProg env) "horizontal")
                    (if horizontal then 1%Z else 0%Z);
        glActiveTexture 0;
        (if (i =? 0)%Z
         then glBindTexture (at_index (pingpongColorbuffers (bloomFBO r)) 0%nat)
         else glBindTexture (at_index (pingpongColorbuffers (bloomFBO r))
                                      (Nat.b2n (negb horizontal))));
        glBindVertexArray (quadVAO env);
        glDrawArrays 0%Z 6%Z;
        glBindVertexArray 0 ].

(** [for (int i = ...; i < blurPasses; i++) { body; horizontal = !horizontal; }]
    with [n] rounds left to go; returns the flag as the loop leaves it. *)
Fixpoint blur_loop (env : Env) (r : Resources) (n : nat) (i : Z)
    (horizontal : bool) (g : Context) : bool * Context :=
  match n with
  | O => (horizontal, g)
  | S n' => blur_loop env r n' (i + 1)%Z (negb horizontal)
                      (blur_body env r i horizontal g)
  end.

(** Pass 3: [bool horizontal = true; glUseProgram(blurProg);] and the loop,
    which runs [blurPasses] times (not at all when [blurPasses <= 0]). *)
Definition blur_pass (env : Env) (r : Resources) (blurPasses : Z)
    (g : Context) : bool * Context :=
  let horizontal := true in
  let g := glUseProgram (blurProg env) g in
  let '(horizontal, g) := blur_loop env r (Z.to_nat blurPasses) 0%Z horizontal g in
  (horizontal, glBindFramebuffer 0 g).

(** Pass 4: scene and blurred bright parts combined into the window.  The
    [exposure] and [bloomIntensity] uniforms are floats and bind nothing. *)
Definition composite_pass (env : Env) (r : Resources) (horizontal : bool) : Cmd :=
  run [ glClear;
        glUseProgram (combineProg env);
        glActiveTexture 0;
        glBindTexture (at_index (colorBuffers (bloomFBO r)) 0%nat);
        glActiveTexture 1;
        glBindTexture (at_index (pingpongColorbuffers (bloomFBO r))
                                (Nat.b2n (negb horizontal)));
        glBindVertexArray (quadVAO env);
        glDrawArrays 0%Z 6%Z ].

(** One round of the render loop, with the number of blur passes as an
    argument. *)
Definition frame (env : Env) (r : Resources) (blurPasses : Z) : Cmd := fun g =>
  let g := geometry_pass env r g in
  let g := bright_pass env r g in
  let '(horizontal, g) := blur_pass env r blurPasses g in
  composite_pass env r horizontal g.

(** [int blurPasses = 15;] *)
Definition blurPasses : Z := 15%Z.

(** The context after startup and [k] rounds of the loop. *)
Fixpoint frames (env : Env) (r : Resources) (passes : Z) (k : nat) (g : Context) : Context :=
  match k with
  | O => g
  | S k' => frame env r passes (frames env r passes k' g)
  end.

Definition resources (env : Env) : Resources := fst (setup env context_init).

Definition main_loop (env : Env) (passes : Z) (k : nat) : Context :=
  frames env (resources env) passes k (snd (setup env context_init)).

(** The draw calls a command adds to the log. *)
Definition issued (c : Cmd) (g : Context) : list Draw :=
  drop (List.length (draws g)) (draws (c g)).

End Render.

(* ===================================================================== *)
(** * Properties of the camera and the input callbacks                    *)
(* ===================================================================== *)

(* ===================================================================== *)
(** * Vocabulary of the statements                                        *)
(* ===================================================================== *)

Module Stages.
Import GL Render.
Local Open Scope N_scope.

(** The two clamping statements of [processMouseMove], as a function of
    the pitch they act on. *)
Definition clamp_pitch (p : R) : R :=
  let p := if Rgt_dec p 89 then 89%R else p in
  if Rlt_dec p (-89) then (-89)%R else p.

(** The value of [horizontal] after [j] flips. *)
Definition flag_after (horizontal : bool) (j : nat) : bool :=
  if Nat.even j then horizontal else negb horizontal.

(** The part of the context that only startup writes. *)
Definition static (g : Context)
  : GLuint * GLuint * (GLuint -> option TexImage)
    * (GLuint -> N -> GLuint) * (GLuint -> list N) :=
  (next_texture g, next_framebuffer g, image g, color_attachment g, draw_buffers g).

(** The four colour surfaces of [bloomFBO]. *)
Definition surfaces (r : Resources) : list GLuint :=
  [ at_index (colorBuffers (bloomFBO r)) 0; at_index (colorBuffers (bloomFBO r)) 1;
    at_index (pingpongColorbuffers (bloomFBO r)) 0;
    at_index (pingpongColorbuffers (bloomFBO r)) 1 ].

(** The material textures of the mesh; a name of 0 is a texture that was
    not loaded. *)
Definition materials (r : Resources) : list GLuint :=
  [ texAlbedo r; texNormal r; texMetallic r; texRoughness r; texAO r ].

(** The texture units as the geometry pass leaves them. *)
Definition geometry_units (r : Resources) (units : N -> GLuint) : N -> GLuint :=
  <[4 := or_else (texAO r) (texAlbedo r)]>
    (<[3 := or_else (texRoughness r) (texAlbedo r)]>
       (<[2 := or_else (texMetallic r) (texAlbedo r)]>
          (<[1 := or_else (texNormal r) (texAlbedo r)]>
             (<[0 := texAlbedo r]> units)))).

(** The files of the four material maps that fall back to the albedo
    texture, each with the texture unit the geometry pass binds it to. *)
Definition fallback_slots : list (string * N) :=
  [ ("resources/normal.png"%string, 1); ("resources/metallic.png"%string, 2);
    ("resources/roughness.png"%string, 3); ("resources/ao.png"%string, 4) ].

(** All five material maps with their units. *)
Definition material_slots : list (string * N) :=
  ("resources/albedo.png"%string, 0) :: fallback_slots.

(** The image of the fallback texture. *)
Definition white_pixel : TexImage :=
  mk_TexImage GL_RGB 1 1 GL_RGB GL_UNSIGNED_BYTE (Some [255; 255; 255]%Z).

(** The contexts and the draw calls of the four passes of round [k]
    (counted from 0) of the loop, when the blur runs [passes] times. *)
Definition geometry_draws (env : Env) (passes : Z) (k : nat) : list Draw :=
  issued (geometry_pass env (resources env)) (main_loop env passes k).

Definition after_geometry (env : Env) (passes : Z) (k : nat) : Context :=
  geometry_pass env (resources env) (main_loop env passes k).

Definition bright_draws (env : Env) (passes : Z) (k : nat) : list Draw :=
  issued (bright_pass env (resources env)) (after_geometry env passes k).

Definition after_bright (env : Env) (passes : Z) (k : nat) : Context :=
  bright_pass env (resources env) (after_geometry env passes k).

Definition blur_draws (env : Env) (passes : Z) (k : nat) : list Draw :=
  issued (fun g => snd (blur_pass env (resources env) passes g))
         (after_bright env passes k).

Definition after_blur (env : Env) (passes : Z) (k : nat) : bool * Context :=
  blur_pass env (resources env) passes (after_bright env passes k).

Definition composite_draws (env : Env) (passes : Z) (k : nat) : list Draw :=
  issued (composite_pass env (resources env) (fst (after_blur env passes k)))
         (snd (after_blur env passes k)).

(** A draw call does not feed back: it writes some texture, the texture it
    samples through [sampler] is not one it writes, and no texture unit at
    all holds one it writes. *)
Definition no_feedback (g : Context) (sampler : string) (d : Draw) : Prop :=
  render_targets g (d_framebuffer d) <> [] /\
  ~ In (sampled d sampler) (render_targets g (d_framebuffer d)) /\
  forall u : N, ~ In (d_units d u) (render_targets g (d_framebuffer d)).

(** An environment in which no image file can be loaded: the programs are
    objects 1 to 4, the mesh has vertex array 1 and 36 indices, the quad
    has vertex array 2. *)
Definition bare_env : Env :=
  mk_Env (fun _ => None) 1 2 3 4 (mk_Mesh 1 1 1 36) 2.

(** What the draw call of one round of the blur loop looks like, for a
    round entered with counter [i] and flag [horizontal] in a loop that
    started in context [g]. *)
Record BlurDraw (env : Env) (r : Resources) (g : Context) (i : Z)
    (horizontal : bool) (d : Draw) : Prop := mk_BlurDraw {
  bd_command : d_command d = DrawArrays 0 6;
  bd_framebuffer :
    d_framebuffer d = at_index (pingpongFBO (bloomFBO r)) (Nat.b2n horizontal);
  bd_program : d_program d = program g;
  bd_vertex_array : d_vertex_array d = quadVAO env;
  bd_flag : d_uniform d "horizontal" = (if horizontal then 1 else 0)%Z;
  bd_source :
    d_units d 0 =
      if (i =? 0)%Z then at_index (pingpongColorbuffers (bloomFBO r)) 0
      else at_index (pingpongColorbuffers (bloomFBO r)) (Nat.b2n (negb horizontal));
  bd_units : forall u : N, u <> 0 -> d_units d u = texture_2d g u;
  bd_uniform :
    forall name : string, name <> "horizontal"%string ->
      d_uniform d name = uniform g (program g) name
}.

(** What holds of the context while startup loads the textures: names
    start at 1, only unit 0 has been bound to, and no framebuffer has had
    its draw buffers set. *)
Record Boot (g : Context) : Prop := mk_Boot {
  bt_texture : 1 <= next_texture g;
  bt_framebuffer : 1 <= next_framebuffer g;
  bt_active : active_texture g = 0;
  bt_units : forall u : N, u <> 0 -> texture_2d g u = 0;
  bt_buffers : forall fb : GLuint, draw_buffers g fb = [0]
}.

(** What startup establishes and every round of the loop keeps: the
    framebuffers write the surfaces attached to them, surfaces and material
    textures are all different objects, the sampler uniforms hold the units
    startup gave them, and the units the loop never binds hold no texture. *)
Record Wired (env : Env) (r : Resources) (g : Context) : Prop := mk_Wired {
  w_hdr :
    render_targets g (hdrFBO (bloomFBO r))
    = [ at_index (colorBuffers (bloomFBO r)) 0; at_index (colorBuffers (bloomFBO r)) 1 ];
  w_pingpong :
    forall b : bool,
      render_targets g (at_index (pingpongFBO (bloomFBO r)) (Nat.b2n b))
      = [ at_index (pingpongColorbuffers (bloomFBO r)) (Nat.b2n b) ];
  w_surfaces : List.NoDup (surfaces r);
  w_materials : forall t : GLuint, t = 0 \/ In t (materials r) -> ~ In t (surfaces r);
  w_albedo : texAlbedo r <> 0;
  w_scene_bright : uniform g (brightProg env) "scene" = 0%Z;
  w_image_blur : uniform g (blurProg env) "image" = 0%Z;
  w_scene_combine : uniform g (combineProg env) "scene" = 0%Z;
  w_bloom_combine : uniform g (combineProg env) "bloomBlur" = 1%Z;
  w_units : forall u : N, 5 <= u -> texture_2d g u = 0
}.

End Stages.

(* ===================================================================== *)
(** * The view matrix, the projection and the keyboard motion             *)
(* ===================================================================== *)

Module Motion.
Import Glm Input.
Local Open Scope R_scope.

Definition vec3_add (a b : vec3) : vec3 :=
  mk_vec3 (x a + x b) (y a + y b) (z a + z b).

Definition vec3_sub (a b : vec3) : vec3 :=
  mk_vec3 (x a - x b) (y a - y b) (z a - z b).

(** [glm::cross(x, y)] is
    [(x.y * y.z - y.y * x.z, x.z * y.x - y.z * x.x, x.x * y.y - y.x * x.y)]. *)
Definition cross (a b : vec3) : vec3 :=
  mk_vec3 (y a * z b - y b * z a)
          (z a * x b - z b * x a)
          (x a * y b - x b * y a).

(** [glm::lookAt(eye, center, up)], right-handed as GLM has it by default:
    [f = normalize(center - eye)], [s = normalize(cross(f, up))],
    [u = cross(s, f)]; [Result[i][0] = s[i]], [Result[i][1] = u[i]],
    [Result[i][2] = -f[i]] for [i = 0, 1, 2], and
    [Result[3] = (-dot(s, eye), -dot(u, eye), dot(f, eye), 1)]. *)
Definition lookAt (eye center up : vec3) : mat4 :=
  let f := normalize (vec3_sub center eye) in
  let s := normalize (cross f up) in
  let u := cross s f in
  mk_mat4 (mk_vec4 (x s) (x u) (- x f) 0)
          (mk_vec4 (y s) (y u) (- y f) 0)
          (mk_vec4 (z s) (z u) (- z f) 0)
          (mk_vec4 (- dot s eye) (- dot u eye) (dot f eye) 1).

(** [glm::perspective(fovy, aspect, zNear, zFar)], right-handed with depth
    from -1 to 1 as GLM has it by default: with
    [tanHalfFovy = tan(fovy / 2)], a zero matrix with
    [Result[0][0] = 1 / (aspect * tanHalfFovy)],
    [Result[1][1] = 1 / tanHalfFovy],
    [Result[2][2] = -(zFar + zNear) / (zFar - zNear)], [Result[2][3] = -1],
    [Result[3][2] = -(2 * zFar * zNear) / (zFar - zNear)]. *)
Definition perspective (fovy aspect zNear zFar : R) : mat4 :=
  let tanHalfFovy := tan (fovy / 2) in
  mk_mat4 (mk_vec4 (1 / (aspect * tanHalfFovy)) 0 0 0)
          (mk_vec4 0 (1 / tanHalfFovy) 0 0)
          (mk_vec4 0 0 (- (zFar + zNear) / (zFar - zNear)) (-1))
          (mk_vec4 0 0 (- (2 * zFar * zNear) / (zFar - zNear)) 0).

(** [proj] of the loop body:
    [glm::perspective(glm::radians(camera.fov), (float)SCR_W / (float)SCR_H,
    0.1f, 100.0f)]. *)
Definition proj (c : Camera) : mat4 :=
  perspective (radians (fov c)) (IZR Render.SCR_W / IZR Render.SCR_H) 0.1 100.

(** [Camera::viewMatrix] *)
Definition viewMatrix (c : Camera) : mat4 :=
  lookAt (pos c) (vec3_add (pos c) (front c)) (up c).

(** Key codes of [GLFW/glfw3.h]. *)
Definition GLFW_KEY_A : Z := 65.
Definition GLFW_KEY_D : Z := 68.
Definition GLFW_KEY_E : Z := 69.
Definition GLFW_KEY_Q : Z := 81.
Definition GLFW_KEY_S : Z := 83.
Definition GLFW_KEY_W : Z := 87.

(** A read [a[i]] of a C array: undefined outside the array, which the
    model reports as [None]. *)
Definition array_load {A : Type} (a : list A) (i : Z) : option A :=
  if ((0 <=? i) && (i <? Z.of_nat (List.length a)))%Z
  then a !! Z.to_nat i
  else None.

Definition set_pos (v : vec3) (c : Camera) : Camera :=
  mk_Camera v (front c) (up c) (yaw c) (pitch c) (fov c)
            (lastX c) (lastY c) (firstMouse c) (mouseDown c).

(** [processKeyboard(dt)], on the global [keys] and [camera]. *)
Definition processKeyboard (ks : list bool) (c : Camera) (dt : R) : option Camera :=
  let speed := 4 in
  w ← array_load ks GLFW_KEY_W;
  let c := if w : bool
           then set_pos (vec3_add (pos c) (vec3_scale (vec3_scale (front c) speed) dt)) c
           else c in
  s ← array_load ks GLFW_KEY_S;
  let c := if s : bool
           then set_pos (vec3_sub (pos c) (vec3_scale (vec3_scale (front c) speed) dt)) c
           else c in
  let right := normalize (cross (front c) (up c)) in
  a ← array_load ks GLFW_KEY_A;
  let c := if a : bool
           then set_pos (vec3_sub (pos c) (vec3_scale (vec3_scale right speed) dt)) c
           else c in
  d ← array_load ks GLFW_KEY_D;
  let c := if d : bool
           then set_pos (vec3_add (pos c) (vec3_scale (vec3_scale right speed) dt)) c
           else c in
  q ← array_load ks GLFW_KEY_Q;
  let c := if q : bool
           then set_pos (vec3_sub (pos c) (vec3_scale (vec3_scale (up c) speed) dt)) c
           else c in
  e ← array_load ks GLFW_KEY_E;
  let c := if e : bool
           then set_pos (vec3_add (pos c) (vec3_scale (vec3_scale (up c) speed) dt)) c
           else c in
  Some c.

(** A key event as GLFW hands it to [key_callback]. *)
Record KeyEvent := mk_KeyEvent {
  ke_key : Z;
  ke_scancode : Z;
  ke_action : Z;
  ke_mods : Z
}.

(** [key_callback] over a sequence of key events. *)
Fixpoint key_run (st : Keyboard) (evs : list KeyEvent) : option Keyboard :=
  match evs with
  | [] => Some st
  | e :: evs' =>
      st' ← key_callback st (ke_key e) (ke_scancode e) (ke_action e) (ke_mods e);
      key_run st' evs'
  end.

(** [cursor_callback] over a sequence of cursor positions. *)
Definition cursor_run (c : Camera) (moves : list (R * R)) : Camera :=
  fold_left (fun c m => cursor_callback c (fst m) (snd m)) moves c.

(** Whether key [k] is held after the events [evs] when it was [b] before:
    the last press or release of [k] decides; other actions and other keys
    do not count. *)
Fixpoint held (b : bool) (evs : list KeyEvent) (k : Z) : bool :=
  match evs with
  | [] => b
  | e :: evs' =>
      let b := if (ke_key e =? k)%Z
               then (if (ke_action e =? GLFW_PRESS)%Z then true
                     else if (ke_action e =? GLFW_RELEASE)%Z then false
                     else b)
               else b in
      held b evs' k
  end.

(** Whether an event is the press of the escape key. *)
Definition escape_press (e : KeyEvent) : bool :=
  ((ke_key e =? GLFW_KEY_ESCAPE) && (ke_action e =? GLFW_PRESS))%Z.

(** 1 for a held key, 0 otherwise. *)
Definition b2r (b : bool) : R := if b then 1 else 0.

(** The two shapes of the six steps of [processKeyboard]:
    [if (held) camera.pos += v] and [if (held) camera.pos -= v]. *)
Definition advance (b : bool) (v : vec3) (c : Camera) : Camera :=
  if b then set_pos (vec3_add (pos c) v) c else c.

Definition retreat (b : bool) (v : vec3) (c : Camera) : Camera :=
  if b then set_pos (vec3_sub (pos c) v) c else c.

(** The head of the loop body of [main], on the globals [lastFrame] and
    [camera]: [delta = currentFrame - lastFrame; lastFrame = currentFrame;
    processKeyboard(delta)], with [currentFrame] the value of
    [glfwGetTime()]. *)
Definition frame_time (ks : list bool) (st : R * Camera) (currentFrame : R)
    : option (R * Camera) :=
  let '(lastFrame, camera) := st in
  let delta := currentFrame - lastFrame in
  let lastFrame := currentFrame in
  camera ← processKeyboard ks camera delta;
  Some (lastFrame, camera).

(** The same over the rounds of the loop, given the time of each round. *)
Fixpoint frame_times (ks : list bool) (st : R * Camera) (times : list R)
    : option (R * Camera) :=
  match times with
  | [] => Some st
  | t :: times' => st' ← frame_time ks st t; frame_times ks st' times'
  end.

End Motion.

(* ===================================================================== *)
(** * The two lights of the scene                                         *)
(* ===================================================================== *)

Module Lights.
Import Glm.
Local Open Scope R_scope.

(** [lightPosA] and [lightPosB] of the loop body at time [time]. *)
Definition lightPosA (time : R) : vec3 :=
  mk_vec3 (5 * cos (time * 0.6)) (4 + sin (time * 0.7)) (5 * sin (time * 0.6)).

Definition lightPosB (time : R) : vec3 :=
  mk_vec3 (-6 * cos (time * 0.4)) (3.4 + 0.3 * sin (time * 0.9))
          (-6 * sin (time * 0.4)).

End Lights.

(* ===================================================================== *)
(** * Vocabulary for the textures of startup                              *)
(* ===================================================================== *)

Module Assets.
Import GL Render Stages.
Local Open Scope N_scope.

(** Whether the decoder can load a file. *)
Definition loaded (env : Env) (path : string) : bool :=
  match stbi_load env path with Some _ => true | None => false end.

(** The image of a bloom surface of size [w] x [h]: half-float storage
    without data. *)
Definition surface_image (w h : Z) : TexImage :=
  mk_TexImage GL_RGBA16F w h GL_RGBA GL_FLOAT None.

(** The components of a pixel in a client format, and the bytes of a
    component.  The sized formats are no client formats: a call with one
    of them is an error and reads nothing. *)
Definition components (f : Format) : Z :=
  match f with GL_RGB => 3%Z | GL_RGBA => 4%Z | _ => 0%Z end.

Definition type_size (t : PixelType) : Z :=
  match t with GL_UNSIGNED_BYTE => 1%Z | GL_FLOAT => 4%Z end.

(** The next multiple of 4. *)
Definition align4 (n : Z) : Z := (4 * ((n + 3) / 4))%Z.

(** The bytes [glTexImage2D] reads from client memory for an image with
    data.  The program never calls [glPixelStorei], so
    [GL_UNPACK_ALIGNMENT] has its initial value 4: each row starts at a
    multiple of 4 bytes, and the last row ends with its last pixel. *)
Definition client_bytes (ti : TexImage) : Z :=
  let row := (ti_width ti * components (ti_format ti) * type_size (ti_type ti))%Z in
  if ((ti_width ti <=? 0) || (ti_height ti <=? 0))%Z then 0%Z
  else ((ti_height ti - 1) * align4 row + row)%Z.

(** What [stbi_load] promises of an image it returns: a positive size, one
    to four channels, and [w * h * c] bytes, rows without padding. *)
Definition decoded (img : Image) : Prop :=
  (1 <= img_w img /\ 1 <= img_h img /\ 1 <= img_c img <= 4 /\
   Z.of_nat (List.length (img_data img)) = img_w img * img_h img * img_c img)%Z.

(** Texture [t] holds the file [path] when the file can be loaded: its
    image has the size of the decoded image, unsigned bytes in the format
    [GL_RGBA] for four channels and [GL_RGB] otherwise, and an internal
    format of 8 bits per channel without sRGB decoding; it has the decoded
    bytes when the upload stays inside the decoded buffer. *)
Definition holds_file (env : Env) (g : Context) (path : string) (t : GLuint) : Prop :=
  forall img : Image,
    stbi_load env path = Some img ->
    exists ti : TexImage,
      image g t = Some ti /\
      ti_width ti = img_w img /\ ti_height ti = img_h img /\
      ti_type ti = GL_UNSIGNED_BYTE /\
      ti_format ti = (if (img_c img =? 4)%Z then GL_RGBA else GL_RGB) /\
      ti_internal ti = (if (img_c img =? 4)%Z then GL_RGBA8 else GL_RGB8) /\
      (decoded img ->
       (client_bytes ti <= Z.of_nat (List.length (img_data img)))%Z ->
       ti_data ti = Some (img_data img)).

(** An environment in which only the albedo file can be loaded, as a 2x2
    image of four channels. *)
Definition albedo_only_env : Env :=
  mk_Env (fun path =>
            if String.eqb path "resources/albedo.png"
            then Some (mk_Image 2 2 4 [ 200; 30; 30; 255; 30; 200; 30; 255;
                                        30; 30; 200; 255; 90; 90; 90; 255 ]%Z)
            else None)
         1 2 3 4 (mk_Mesh 1 1 1 36) 2.

(** The five sampler uniforms of the PBR program with the unit startup
    gives each. *)
Definition pbr_samplers : list (string * Z) :=
  [ ("albedoMap"%string, 0%Z); ("normalMap"%string, 1%Z);
    ("metallicMap"%string, 2%Z); ("roughnessMap"%string, 3%Z);
    ("aoMap"%string, 4%Z) ].

(** The number of draw calls of one round of the loop: the mesh when it
    has a vertex array, the bright pass, the blur rounds and the
    composite. *)
Definition draws_per_round (env : Env) (passes : Z) : nat :=
  ((if (vao (mesh env) =? 0)%N then 0 else 1) + 1 + Z.to_nat passes + 1)%nat.

End Assets.

(* ===================================================================== *)
(** * Files: shader sources and the directory of the model               *)
(* ===================================================================== *)

Module Files.

(** The line feed that ends each message. *)
Definition nl : string := String (Ascii.ascii_of_nat 10) EmptyString.

(** [readFile(path)], with the files that can be opened given by [fs] and
    [cerr] the lines written to the error stream so far. *)
Definition readFile (fs : string -> option string) (path : string)
    (cerr : list string) : string * list string :=
  match fs path with
  | None => (EmptyString, cerr ++ [String.append "Failed to open: " (String.append path nl)])
  | Some content => (content, cerr)
  end.

(** [s.empty()] *)
Definition empty (s : string) : bool :=
  match s with EmptyString => true | String _ _ => false end.

(** [loadShaderText(name)] *)
Definition loadShaderText (fs : string -> option string) (name : string)
    (cerr : list string) : string * list string :=
  let path := String.append "shaders/" name in
  let '(s, cerr) := readFile fs path cerr in
  let cerr := if empty s
              then cerr ++ [String.append "Warning: shader empty or not found: "
                                          (String.append path nl)]
              else cerr in
  (s, cerr).

(** [std::string::npos], the largest value of a [size_t] of 64 bits. *)
Definition npos : Z := (2 ^ 64 - 1)%Z.

(** Whether character [c] is one of [chars]. *)
Fixpoint one_of (chars : string) (c : Ascii.ascii) : bool :=
  match chars with
  | EmptyString => false
  | String c' chars' => Ascii.eqb c c' || one_of chars' c
  end.

(** The last position of [s] that holds one of [chars], if any. *)
Fixpoint last_index_of (s chars : string) : option nat :=
  match s with
  | EmptyString => None
  | String c s' =>
      match last_index_of s' chars with
      | Some i => Some (S i)
      | None => if one_of chars c then Some 0%nat else None
      end
  end.

(** [s.find_last_of(chars)]: that position, or [npos]. *)
Definition find_last_of (s chars : string) : Z :=
  match last_index_of s chars with
  | Some i => Z.of_nat i
  | None => npos
  end.

(** [s.substr(0, count)]: the first [count] characters, or all of [s] when
    it is shorter. *)
Definition substr0 (s : string) (count : Z) : string :=
  String.substring 0 (Z.to_nat count) s.

(** The two separators of the call: slash and backslash. *)
Definition separators : string :=
  String (Ascii.ascii_of_nat 47) (String (Ascii.ascii_of_nat 92) EmptyString).

(** [path.substr(0, path.find_last_of(separators) + 1)] of
    [loadObjToMesh], the sum being taken in [size_t]. *)
Definition base_dir (path : string) : string :=
  substr0 path ((find_last_of path separators + 1) mod 2 ^ 64)%Z.

End Files.

(* ===================================================================== *)
(** * The vertex data of the mesh and of the screen quad                  *)
(* ===================================================================== *)

Module Model.
Import Motion Files.
Local Open Scope Z_scope.

(** [tinyobj::index_t], [tinyobj::attrib_t] and the [mesh.indices] of a
    [tinyobj::shape_t]. *)
Record index_t := mk_index_t {
  vertex_index : Z;
  normal_index : Z;
  texcoord_index : Z
}.

Record attrib_t := mk_attrib_t {
  vertices : list R;
  normals : list R;
  texcoords : list R
}.

Record shape_t := mk_shape_t { indices : list index_t }.

(** What [tinyobj::LoadObj] hands back: its result and the two outputs the
    function reads.  The warning and error texts are only logged. *)
Record ObjFile := mk_ObjFile {
  obj_ok : bool;
  obj_attrib : attrib_t;
  obj_shapes : list shape_t
}.

Definition INT_MIN : Z := - 2 ^ 31.
Definition INT_MAX : Z := 2 ^ 31 - 1.

(** The value of an [int] expression; overflow is undefined, which the
    model reports as [None]. *)
Definition int_of (v : Z) : option Z :=
  if (INT_MIN <=? v) && (v <=? INT_MAX) then Some v else None.

(** [v[k * i + d]] on a [std::vector<float>], the index computed in [int].
    A negative index becomes a [size_t] beyond any vector; a read outside
    the vector is undefined. *)
Definition element_at (v : list R) (k i d : Z) : option R :=
  m ← int_of (k * i);
  j ← int_of (m + d);
  array_load v j.

(** The three locals the loops of [loadObjToMesh] build up: [data], [idx]
    and the [unsigned int index]. *)
Record Build := mk_Build {
  data : list R;
  idx : list Z;
  index : Z
}.

(** The body of the inner loop, for the face index [f]. *)
Definition push_vertex (attrib : attrib_t) (b : Build) (f : index_t) : option Build :=
  let vi := vertex_index f in
  let ni := normal_index f in
  let ti := texcoord_index f in
  p0 ← element_at (vertices attrib) 3 vi 0;
  p1 ← element_at (vertices attrib) 3 vi 1;
  p2 ← element_at (vertices attrib) 3 vi 2;
  let data := data b ++ [p0; p1; p2] in
  data ← (if ni >=? 0
          then n0 ← element_at (normals attrib) 3 ni 0;
               n1 ← element_at (normals attrib) 3 ni 1;
               n2 ← element_at (normals attrib) 3 ni 2;
               Some (data ++ [n0; n1; n2])
          else Some (data ++ [0; 1; 0]%R));
  data ← (if ti >=? 0
          then t0 ← element_at (texcoords attrib) 2 ti 0;
               t1 ← element_at (texcoords attrib) 2 ti 1;
               Some (data ++ [t0; t1])
          else Some (data ++ [0; 0]%R));
  Some (mk_Build data (idx b ++ [index b]) ((index b + 1) mod 2 ^ 32)).

(** [for (auto& f : shape.mesh.indices)] *)
Fixpoint indices_loop (attrib : attrib_t) (fs : list index_t) (b : Build)
    : option Build :=
  match fs with
  | [] => Some b
  | f :: fs' => b' ← push_vertex attrib b f; indices_loop attrib fs' b'
  end.

(** [for (auto& shape : shapes)] *)
Fixpoint shapes_loop (attrib : attrib_t) (shapes : list shape_t) (b : Build)
    : option Build :=
  match shapes with
  | [] => Some b
  | shape :: shapes' =>
      b' ← indices_loop attrib (indices shape) b; shapes_loop attrib shapes' b'
  end.

(** The contents of a buffer object: the program stores floats in one kind
    of buffer and unsigned ints in the other. *)
Inductive Store :=
| Floats (l : list R)
| UInts (l : list Z).

Inductive Target := GL_ARRAY_BUFFER | GL_ELEMENT_ARRAY_BUFFER.

(** An attribute array as [glVertexAttribPointer] records it: component
    count, stride and offset in bytes, and the buffer that was bound to
    [GL_ARRAY_BUFFER] at the call.  The type is always [GL_FLOAT]. *)
Record Pointer := mk_Pointer {
  p_size : Z;
  p_stride : Z;
  p_offset : Z;
  p_buffer : N
}.

(** The vertex part of the context.  The element array binding and the
    attribute arrays belong to the vertex array object that is bound. *)
Record VertexState := mk_VertexState {
  next_vertex_array : N;
  next_buffer : N;
  vertex_array_binding : N;
  array_buffer_binding : N;
  element_array_buffer : N -> N;
  buffer_store : N -> option Store;
  attrib_enabled : N -> N -> bool;
  attrib_pointer : N -> N -> option Pointer
}.

(** A freshly created context. *)
Definition vertex_init : VertexState :=
  {| next_vertex_array := 1;
     next_buffer := 1;
     vertex_array_binding := 0;
     array_buffer_binding := 0;
     element_array_buffer := fun _ => 0%N;
     buffer_store := fun _ => None;
     attrib_enabled := fun _ _ => false;
     attrib_pointer := fun _ _ => None |}.

Definition VCmd := VertexState -> VertexState.

(** [glGenVertexArrays(1, &name)] and [glGenBuffers(1, &name)] *)
Definition glGenVertexArray (s : VertexState) : N * VertexState :=
  (next_vertex_array s,
   mk_VertexState (next_vertex_array s + 1) (next_buffer s) (vertex_array_binding s)
                  (array_buffer_binding s) (element_array_buffer s) (buffer_store s)
                  (attrib_enabled s) (attrib_pointer s)).

Definition glGenBuffer (s : VertexState) : N * VertexState :=
  (next_buffer s,
   mk_VertexState (next_vertex_array s) (next_buffer s + 1) (vertex_array_binding s)
                  (array_buffer_binding s) (element_array_buffer s) (buffer_store s)
                  (attrib_enabled s) (attrib_pointer s)).

Definition glBindVertexArray (vao : N) : VCmd := fun s =>
  mk_VertexState (next_vertex_array s) (next_buffer s) vao
                 (array_buffer_binding s) (element_array_buffer s) (buffer_store s)
                 (attrib_enabled s) (attrib_pointer s).

Definition glBindBuffer (target : Target) (buffer : N) : VCmd := fun s =>
  match target with
  | GL_ARRAY_BUFFER =>
      mk_VertexState (next_vertex_array s) (next_buffer s) (vertex_array_binding s)
                     buffer (element_array_buffer s) (buffer_store s)
                     (attrib_enabled s) (attrib_pointer s)
  | GL_ELEMENT_ARRAY_BUFFER =>
      mk_VertexState (next_vertex_array s) (next_buffer s) (vertex_array_binding s)
                     (array_buffer_binding s)
                     (<[vertex_array_binding s := buffer]> (element_array_buffer s))
                     (buffer_store s) (attrib_enabled s) (attrib_pointer s)
  end.

(** The buffer bound to a target. *)
Definition bound_buffer (s : VertexState) (target : Target) : N :=
  match target with
  | GL_ARRAY_BUFFER => array_buffer_binding s
  | GL_ELEMENT_ARRAY_BUFFER => element_array_buffer s (vertex_array_binding s)
  end.

Definition sizeof_float : Z := 4.
Definition sizeof_unsigned_int : Z := 4.

(** The first [size] bytes of client data. *)
Definition first_bytes (size : Z) (d : Store) : Store :=
  match d with
  | Floats l => Floats (take (Z.to_nat (size / sizeof_float)) l)
  | UInts l => UInts (take (Z.to_nat (size / sizeof_unsigned_int)) l)
  end.

(** [glBufferData(target, size, data, GL_STATIC_DRAW)]; an error, and no
    effect, when no buffer is bound to the target. *)
Definition glBufferData (target : Target) (size : Z) (d : Store) : VCmd := fun s =>
  if (bound_buffer s target =? 0)%N then s
  else
    mk_VertexState (next_vertex_array s) (next_buffer s) (vertex_array_binding s)
                   (array_buffer_binding s) (element_array_buffer s)
                   (<[bound_buffer s target := Some (first_bytes size d)]> (buffer_store s))
                   (attrib_enabled s) (attrib_pointer s).

Definition glEnableVertexAttribArray (i : N) : VCmd := fun s =>
  mk_VertexState (next_vertex_array s) (next_buffer s) (vertex_array_binding s)
                 (array_buffer_binding s) (element_array_buffer s) (buffer_store s)
                 (<[vertex_array_binding s :=
                      <[i := true]> (attrib_enabled s (vertex_array_binding s))]>
                    (attrib_enabled s))
                 (attrib_pointer s).

(** [glVertexAttribPointer(i, size, GL_FLOAT, GL_FALSE, stride, (void* )offset)] *)
Definition glVertexAttribPointer (i : N) (size stride offset : Z) : VCmd := fun s =>
  mk_VertexState (next_vertex_array s) (next_buffer s) (vertex_array_binding s)
                 (array_buffer_binding s) (element_array_buffer s) (buffer_store s)
                 (attrib_enabled s)
                 (<[vertex_array_binding s :=
                      <[i := Some (mk_Pointer size stride offset (array_buffer_binding s))]>
                        (attrib_pointer s (vertex_array_binding s))]>
                    (attrib_pointer s)).

(** Commands in program order. *)
Definition vrun (cs : list VCmd) : VCmd := fun s => fold_left (fun s c => c s) cs s.

(** [(GLsizei)n] for a [size_t]: the low 32 bits, read as signed. *)
Definition to_GLsizei (n : Z) : Z :=
  let m := n mod 2 ^ 32 in
  if m <? 2 ^ 31 then m else m - 2 ^ 32.

(** [n * size] in [size_t]. *)
Definition byte_size (n : nat) (size : Z) : Z := (Z.of_nat n * size) mod 2 ^ 64.

(** [loadObjToMesh(path, mesh)], with [LoadObj] standing for the parser:
    the result, the mesh and the context, or [None] where the function
    reads outside a vector. *)
Definition loadObjToMesh (LoadObj : string -> string -> ObjFile) (path : string)
    (mesh : Render.Mesh) (s : VertexState)
    : option (bool * Render.Mesh * VertexState) :=
  let base := base_dir path in
  let obj := LoadObj path base in
  if negb (obj_ok obj) then Some (false, mesh, s)
  else
    b ← shapes_loop (obj_attrib obj) (obj_shapes obj) (mk_Build [] [] 0);
    let '(vao, s) := glGenVertexArray s in
    let s := glBindVertexArray vao s in
    let '(vbo, s) := glGenBuffer s in
    let s := glBindBuffer GL_ARRAY_BUFFER vbo s in
    let s := glBufferData GL_ARRAY_BUFFER
                          (byte_size (List.length (data b)) sizeof_float)
                          (Floats (data b)) s in
    let '(ebo, s) := glGenBuffer s in
    let s := glBindBuffer GL_ELEMENT_ARRAY_BUFFER ebo s in
    let s := glBufferData GL_ELEMENT_ARRAY_BUFFER
                          (byte_size (List.length (idx b)) sizeof_unsigned_int)
                          (UInts (idx b)) s in
    let stride := 8 * sizeof_float in
    let s := vrun [ glEnableVertexAttribArray 0;
                    glVertexAttribPointer 0 3 stride 0;
                    glEnableVertexAttribArray 1;
                    glVertexAttribPointer 1 3 stride (3 * sizeof_float);
                    glEnableVertexAttribArray 2;
                    glVertexAttribPointer 2 2 stride (6 * sizeof_float);
                    glBindVertexArray 0 ] s in
    Some (true,
          Render.mk_Mesh vao vbo ebo (to_GLsizei (Z.of_nat (List.length (idx b)))),
          s).

(** [float quadVerts[]]: position and texture coordinate of six vertices. *)
Definition quadVerts : list R :=
  [ -1;  1;  0; 1;
    -1; -1;  0; 0;
     1; -1;  1; 0;

    -1;  1;  0; 1;
     1; -1;  1; 0;
     1;  1;  1; 1 ]%R.

(** [initQuad()]; returns the value it leaves in the global [quadVAO]. *)
Definition initQuad (s : VertexState) : N * VertexState :=
  let '(quadVAO, s) := glGenVertexArray s in
  let '(qVBO, s) := glGenBuffer s in
  let s := vrun [ glBindVertexArray quadVAO;
                  glBindBuffer GL_ARRAY_BUFFER qVBO;
                  glBufferData GL_ARRAY_BUFFER
                               (Z.of_nat (List.length quadVerts) * sizeof_float)
                               (Floats quadVerts);
                  glEnableVertexAttribArray 0;
                  glVertexAttribPointer 0 2 (4 * sizeof_float) 0;
                  glEnableVertexAttribArray 1;
                  glVertexAttribPointer 1 2 (4 * sizeof_float) (2 * sizeof_float);
                  glBindVertexArray 0 ] s in
  (quadVAO, s).

(** The geometry part of the startup of [main]: the mesh, which starts as
    [Mesh mesh;] and stays so when the model cannot be loaded, then the
    screen quad. *)
Definition load_geometry (LoadObj : string -> string -> ObjFile) (s : VertexState)
    : option (Render.Mesh * N * VertexState) :=
  let mesh := Render.mk_Mesh 0 0 0 0 in
  r ← loadObjToMesh LoadObj "resources/model.obj" mesh s;
  let '(ok, mesh, s) := r in
  let '(quadVAO, s) := initQuad s in
  Some (mesh, quadVAO, s).

(** ** What a draw call reads *)

(** The components of attribute [a] that a draw call with vertex array
    [vao] fetches for vertex number [vertex]; [None] when the attribute is
    not enabled or the read leaves the buffer. *)
Definition fetch (s : VertexState) (vao : N) (a : N) (vertex : Z) : option (list R) :=
  if attrib_enabled s vao a then
    p ← attrib_pointer s vao a;
    match buffer_store s (p_buffer p) with
    | Some (Floats l) =>
        let first := p_offset p + vertex * p_stride p in
        if (0 <=? first) && (first mod sizeof_float =? 0)
           && (first + sizeof_float * p_size p <=? sizeof_float * Z.of_nat (List.length l))
        then Some (take (Z.to_nat (p_size p)) (drop (Z.to_nat (first / sizeof_float)) l))
        else None
    | _ => None
    end
  else None.

(** Entry [k] of the element array of [vao], as [glDrawElements] reads it. *)
Definition element (s : VertexState) (vao : N) (k : Z) : option Z :=
  match buffer_store s (element_array_buffer s vao) with
  | Some (UInts l) => array_load l k
  | _ => None
  end.

(** ** The vertex a face index stands for *)

Definition float_at (v : list R) (i : Z) : R := nth (Z.to_nat i) v 0%R.

Definition position_of (attrib : attrib_t) (f : index_t) : list R :=
  let vi := vertex_index f in
  [ float_at (vertices attrib) (3 * vi); float_at (vertices attrib) (3 * vi + 1);
    float_at (vertices attrib) (3 * vi + 2) ].

Definition normal_of (attrib : attrib_t) (f : index_t) : list R :=
  let ni := normal_index f in
  if ni >=? 0
  then [ float_at (normals attrib) (3 * ni); float_at (normals attrib) (3 * ni + 1);
         float_at (normals attrib) (3 * ni + 2) ]
  else [0; 1; 0]%R.

Definition texcoord_of (attrib : attrib_t) (f : index_t) : list R :=
  let ti := texcoord_index f in
  if ti >=? 0
  then [ float_at (texcoords attrib) (2 * ti); float_at (texcoords attrib) (2 * ti + 1) ]
  else [0; 0]%R.

(** All face indices of a file, in the order of the loops. *)
Definition face_indices (obj : ObjFile) : list index_t :=
  flat_map indices (obj_shapes obj).

(** A face index whose reads stay inside the three vectors. *)
Definition in_range (attrib : attrib_t) (f : index_t) : Prop :=
  0 <= vertex_index f /\
  3 * vertex_index f + 2 < Z.of_nat (List.length (vertices attrib)) /\
  (normal_index f < 0 \/
   3 * normal_index f + 2 < Z.of_nat (List.length (normals attrib))) /\
  (texcoord_index f < 0 \/
   2 * texcoord_index f + 1 < Z.of_nat (List.length (texcoords attrib))).

(** Vectors short enough for an [int] to index them. *)
Definition int_sized (attrib : attrib_t) : Prop :=
  Z.of_nat (List.length (vertices attrib)) <= INT_MAX /\
  Z.of_nat (List.length (normals attrib)) <= INT_MAX /\
  Z.of_nat (List.length (texcoords attrib)) <= INT_MAX.

(** The vertex array [loadObjToMesh] sets up, given what the loops built. *)
Record MeshLayout (s s' : VertexState) (m : Render.Mesh) (b : Build) : Prop :=
  mk_MeshLayout {
  ml_vao : Render.vao m = next_vertex_array s;
  ml_vbo : Render.vbo m = next_buffer s;
  ml_ebo : Render.ebo m = (next_buffer s + 1)%N;
  ml_count : Render.count m = to_GLsizei (Z.of_nat (List.length (idx b)));
  ml_next_vao : next_vertex_array s' = (next_vertex_array s + 1)%N;
  ml_next_buffer : next_buffer s' = (next_buffer s + 2)%N;
  ml_binding : vertex_array_binding s' = 0%N;
  ml_data : buffer_store s' (next_buffer s) = Some (Floats (data b));
  ml_idx : buffer_store s' (next_buffer s + 1)%N = Some (UInts (idx b));
  ml_store :
    forall n : N, n <> next_buffer s -> n <> (next_buffer s + 1)%N ->
      buffer_store s' n = buffer_store s n;
  ml_element : element_array_buffer s' (next_vertex_array s) = (next_buffer s + 1)%N;
  ml_enabled :
    forall a : N,
      attrib_enabled s' (next_vertex_array s) a
      = if (a <? 3)%N then true else attrib_enabled s (next_vertex_array s) a;
  ml_pointer0 :
    attrib_pointer s' (next_vertex_array s) 0 = Some (mk_Pointer 3 32 0 (next_buffer s));
  ml_pointer1 :
    attrib_pointer s' (next_vertex_array s) 1 = Some (mk_Pointer 3 32 12 (next_buffer s));
  ml_pointer2 :
    attrib_pointer s' (next_vertex_array s) 2 = Some (mk_Pointer 2 32 24 (next_buffer s));
  ml_others :
    forall v : N, v <> next_vertex_array s ->
      element_array_buffer s' v = element_array_buffer s v /\
      attrib_enabled s' v = attrib_enabled s v /\
      attrib_pointer s' v = attrib_pointer s v
}.


(** A parsed file with one triangle that has texture coordinates and no
    normals, and a parser that returns it for every path. *)
Definition triangle_file : ObjFile :=
  mk_ObjFile true
    (mk_attrib_t [0; 0; 0; 1; 0; 0; 0; 1; 0]%R [] [0; 0; 1; 0; 0; 1]%R)
    [ mk_shape_t [ mk_index_t 0 (-1) 0; mk_index_t 1 (-1) 1; mk_index_t 2 (-1) 2 ] ].

Definition triangle_parser : string -> string -> ObjFile := fun _ _ => triangle_file.

(** The same file with a face index beyond the three vertices. *)
Definition broken_parser : string -> string -> ObjFile := fun _ _ =>
  mk_ObjFile true (obj_attrib triangle_file)
             [ mk_shape_t [ mk_index_t 0 (-1) 0; mk_index_t 3 (-1) 1 ] ].

(** The vertex array [initQuad] sets up. *)
Record QuadLayout (s s' : VertexState) (quadVAO : N) : Prop := mk_QuadLayout {
  ql_vao : quadVAO = next_vertex_array s;
  ql_next_vao : next_vertex_array s' = (next_vertex_array s + 1)%N;
  ql_next_buffer : next_buffer s' = (next_buffer s + 1)%N;
  ql_binding : vertex_array_binding s' = 0%N;
  ql_data : buffer_store s' (next_buffer s) = Some (Floats quadVerts);
  ql_store :
    forall n : N, n <> next_buffer s -> buffer_store s' n = buffer_store s n;
  ql_element : element_array_buffer s' = element_array_buffer s;
  ql_enabled :
    forall a : N,
      attrib_enabled s' quadVAO a
      = if (a <? 2)%N then true else attrib_enabled s quadVAO a;
  ql_pointer0 :
    attrib_pointer s' quadVAO 0 = Some (mk_Pointer 2 16 0 (next_buffer s));
  ql_pointer1 :
    attrib_pointer s' quadVAO 1 = Some (mk_Pointer 2 16 8 (next_buffer s));
  ql_others :
    forall v : N, v <> quadVAO ->
      attrib_enabled s' v = attrib_enabled s v /\
      attrib_pointer s' v = attrib_pointer s v
}.

(** A draw call reads inside its buffers: it has a vertex array, and for
    every vertex it draws each enabled attribute can be fetched; an indexed
    draw finds each of its indices in the element array first. *)
Definition reads_in_bounds (s : VertexState) (d : GL.Draw) : Prop :=
  let vao := GL.d_vertex_array d in
  vao <> 0%N /\
  match GL.d_command d with
  | GL.DrawArrays first count =>
      forall (v : Z) (a : N),
        first <= v < first + count ->
        attrib_enabled s vao a = true -> is_Some (fetch s vao a v)
  | GL.DrawElements count =>
      forall k : Z,
        0 <= k < count ->
        exists i : Z,
          element s vao k = Some i /\
          forall a : N, attrib_enabled s vao a = true -> is_Some (fetch s vao a i)
  end.

End Model.

Section GlmFacts.
Import Glm.
Local Open Scope R_scope.

Lemma dot_vec3_scale (v : vec3) (k : R) :
  dot (vec3_scale v k) (vec3_scale v k) = k * k * dot v v.
Proof. unfold dot, vec3_scale; simpl; ring. Qed.

(** [glm::normalize] of a vector that is not null has length 1. *)
Lemma length_normalize (v : vec3) : 0 < dot v v -> length (normalize v) = 1.
Proof.
  intros Hpos.
  unfold length, normalize, inversesqrt.
  rewrite dot_vec3_scale.
  assert (Hs : 0 < sqrt (dot v v)) by now apply sqrt_lt_R0.
  assert (Hsq : sqrt (dot v v) * sqrt (dot v v) = dot v v)
    by (apply sqrt_sqrt; lra).
  replace (1 / sqrt (dot v v) * (1 / sqrt (dot v v)) * dot v v) with 1.
  - apply sqrt_1.
  - rewrite <- Hsq at 3. field. lra.
Qed.

(** The spherical-to-Cartesian direction of a yaw [a] and a pitch [b]. *)
Lemma dot_spherical (a b : R) :
  let dir := mk_vec3 (cos a * cos b) (sin b) (sin a * cos b) in
  dot dir dir = 1.
Proof.
  cbv zeta. unfold dot; simpl.
  pose proof (sin2_cos2 a) as Ha. pose proof (sin2_cos2 b) as Hb.
  unfold Rsqr in Ha, Hb. nra.
Qed.

End GlmFacts.

Section CameraFacts.
Import Glm Input Stages.
Local Open Scope R_scope.

Lemma clamp_pitch_range (p : R) : -89 <= clamp_pitch p <= 89.
Proof.
  unfold clamp_pitch.
  destruct (Rgt_dec p 89) as [H1 | H1];
    [ destruct (Rlt_dec 89 (-89)) | destruct (Rlt_dec p (-89)) ]; lra.
Qed.

Lemma processMouseMove_inactive (c : Camera) (xpos ypos : R) :
  mouseDown c = false -> processMouseMove c xpos ypos = set_last xpos ypos c.
Proof. intros H. unfold processMouseMove. now rewrite H. Qed.

(** What an update during a drag stores; [firstMouse] plays no part. *)
Lemma processMouseMove_active (c : Camera) (xpos ypos : R) :
  mouseDown c = true ->
  let c' := processMouseMove c xpos ypos in
  let yaw' := yaw c + (xpos - lastX c) * 0.18 in
  let pitch' := clamp_pitch (pitch c + (lastY c - ypos) * 0.18) in
  yaw c' = yaw' /\
  pitch c' = pitch' /\
  front c' = normalize (mk_vec3 (cos (radians yaw') * cos (radians pitch'))
                                (sin (radians pitch'))
                                (sin (radians yaw') * cos (radians pitch'))) /\
  lastX c' = xpos /\ lastY c' = ypos /\
  pos c' = pos c /\ up c' = up c /\ fov c' = fov c /\
  firstMouse c' = firstMouse c /\ mouseDown c' = true.
Proof.
  intros H. cbv zeta. unfold processMouseMove, clamp_pitch. rewrite H. simpl.
  destruct (Rgt_dec (pitch c + (lastY c - ypos) * 0.18) 89); simpl;
    match goal with |- context [Rlt_dec ?a ?b] => destruct (Rlt_dec a b) end;
    simpl; repeat split; solve [reflexivity | exact H].
Qed.

Lemma mouse_button_press (c : Camera) (mods : Z) :
  mouse_button_callback c GLFW_MOUSE_BUTTON_RIGHT GLFW_PRESS mods
  = set_drag true true c.
Proof. reflexivity. Qed.

(** The first move after the press rotates by the whole distance to the
    last recorded position. *)
Lemma first_move_after_press (c : Camera) (mods : Z) (xpos ypos : R) :
  let c1 := mouse_button_callback c GLFW_MOUSE_BUTTON_RIGHT GLFW_PRESS mods in
  let c2 := cursor_callback c1 xpos ypos in
  yaw c2 = yaw c + (xpos - lastX c) * 0.18 /\
  pitch c2 = clamp_pitch (pitch c + (lastY c - ypos) * 0.18).
Proof.
  cbv zeta. rewrite mouse_button_press. unfold cursor_callback.
  destruct (processMouseMove_active (set_drag true true c) xpos ypos eq_refl)
    as (Hy & Hp & _).
  now rewrite Hy, Hp.
Qed.

Lemma scroll_callback_fov (c : Camera) (xoffset yoffset : R) :
  15 <= fov (scroll_callback c xoffset yoffset) <= 90.
Proof.
  unfold scroll_callback. simpl.
  destruct (Rlt_dec (fov c - yoffset) 15); simpl;
    match goal with |- context [Rgt_dec ?a ?b] => destruct (Rgt_dec a b) end;
    simpl; lra.
Qed.

(** C9.  A mouse move while no drag is active stores the cursor position in
    [lastX], [lastY] and changes no other field of the camera. *)
Theorem processMouseMove_inactive_records_position
    (c : Camera) (xpos ypos : R) :
  mouseDown c = false ->
  let c' := processMouseMove c xpos ypos in
  lastX c' = xpos /\ lastY c' = ypos /\
  yaw c' = yaw c /\ pitch c' = pitch c /\ front c' = front c /\
  pos c' = pos c /\ up c' = up c /\ fov c' = fov c /\
  firstMouse c' = firstMouse c /\ mouseDown c' = mouseDown c.
Proof.
  intros H. cbv zeta. rewrite (processMouseMove_inactive _ _ _ H).
  unfold set_last; simpl. repeat split.
Qed.

Lemma processMouseMove_inactive_records_position_witness :
  let c' := processMouseMove camera_init 812 64 in
  lastX c' = 812 /\ lastY c' = 64 /\
  yaw c' = yaw camera_init /\ pitch c' = pitch camera_init /\
  front c' = front camera_init /\
  pos c' = pos camera_init /\ up c' = up camera_init /\
  fov c' = fov camera_init /\
  firstMouse c' = firstMouse camera_init /\
  mouseDown c' = mouseDown camera_init.
Proof.
  apply (processMouseMove_inactive_records_position camera_init 812 64).
  reflexivity.
Defined.

(** C3, evaluated on the code.  The camera starts as the struct initialises
    it (no drag, last position (400, 300)); the right button is pressed and
    the cursor then moves to (500, 200).  That first move after the start of
    the drag turns the yaw from -90 to -72 and the pitch from -10 to 8: the
    [firstMouse] flag that the press sets is never read. *)
Theorem first_move_after_drag_start_rotates :
  let c0 := camera_init in
  let c1 := mouse_button_callback c0 GLFW_MOUSE_BUTTON_RIGHT GLFW_PRESS 0 in
  let c2 := cursor_callback c1 500 200 in
  mouseDown c0 = false /\ mouseDown c1 = true /\ firstMouse c1 = true /\
  yaw c0 = -90 /\ pitch c0 = -10 /\
  yaw c2 = -72 /\ pitch c2 = 8 /\
  yaw c2 <> yaw c0 /\ pitch c2 <> pitch c0.
Proof.
  cbv zeta.
  destruct (first_move_after_press camera_init 0 500 200) as [Hy Hp].
  cbv zeta in Hy, Hp. rewrite Hy, Hp.
  assert (Hc : clamp_pitch (pitch camera_init + (lastY camera_init - 200) * 0.18) = 8).
  { unfold clamp_pitch; simpl.
    destruct (Rgt_dec (-10 + (300 - 200) * 0.18) 89); [lra |].
    destruct (Rlt_dec (-10 + (300 - 200) * 0.18) (-89)); lra. }
  rewrite Hc. simpl. repeat split; try reflexivity; lra.
Qed.

(** C5.  Over any sequence of camera events from any camera state: each
    mouse move that arrives while a drag is active leaves the pitch in
    [-89, 89], and each scroll leaves the field of view in [15, 90]. *)
Theorem pitch_and_fov_stay_clamped (c : Camera) (evs : list CameraEvent) :
  Forall (fun step : Camera * CameraEvent * Camera =>
            let '(before, e, after) := step in
            match e with
            | CursorPos _ _ =>
                mouseDown before = true -> -89 <= pitch after <= 89
            | Scroll _ _ => 15 <= fov after <= 90
            | MouseButton _ _ _ => True
            end)
         (camera_run c evs).
Proof.
  revert c. induction evs as [| e evs IH]; intros c; simpl.
  - constructor.
  - constructor; [| apply IH].
    destruct e as [button action mods | xpos ypos | xoffset yoffset]; simpl.
    + exact I.
    + intros Hdown. unfold cursor_callback.
      destruct (processMouseMove_active c xpos ypos Hdown) as (_ & Hp & _).
      rewrite Hp. apply clamp_pitch_range.
    + apply scroll_callback_fov.
Qed.

(** C8.  After a mouse move that arrives while a drag is active, the
    [front] vector of the camera has length 1. *)
Theorem front_unit_length_after_drag_move (c : Camera) (xpos ypos : R) :
  mouseDown c = true ->
  length (front (processMouseMove c xpos ypos)) = 1.
Proof.
  intros Hdown.
  destruct (processMouseMove_active c xpos ypos Hdown) as (_ & _ & Hf & _).
  rewrite Hf. apply length_normalize.
  rewrite dot_spherical. lra.
Qed.

Lemma front_unit_length_after_drag_move_witness :
  length (front (processMouseMove (set_drag true true camera_init) 431 287)) = 1.
Proof.
  apply (front_unit_length_after_drag_move (set_drag true true camera_init) 431 287).
  reflexivity.
Defined.

End CameraFacts.

(* ===================================================================== *)
(** * Properties of the held-key table                                    *)
(* ===================================================================== *)

Section KeyboardFacts.
Import Input.
Local Open Scope Z_scope.

Lemma array_store_in_range {A : Type} (a : list A) (i : Z) (v : A) :
  0 <= i < Z.of_nat (List.length a) ->
  array_store a i v = Some (<[Z.to_nat i := v]> a).
Proof.
  intros [Hlo Hhi]. unfold array_store.
  apply Z.leb_le in Hlo. apply Z.ltb_lt in Hhi. now rewrite Hlo, Hhi.
Qed.

(** C10.  On a table of 1024 entries, [key_callback] never stores outside
    the table, whatever the key code and the action; it keeps the size of
    the table, changes no entry other than [keys[key]], and leaves the
    whole table as it was when [key] is not in [0, 1024). *)
Theorem key_callback_stays_in_bounds
    (st : Keyboard) (key scancode action mods : Z) :
  List.length (keys st) = KEYS_SIZE ->
  exists st' : Keyboard,
    key_callback st key scancode action mods = Some st' /\
    List.length (keys st') = KEYS_SIZE /\
    (~ (0 <= key < 1024) -> keys st' = keys st) /\
    (forall j : nat, Z.of_nat j <> key -> keys st' !! j = keys st !! j).
Proof.
  intros Hlen. unfold key_callback.
  set (st1 := if (key =? GLFW_KEY_ESCAPE) && (action =? GLFW_PRESS)
              then mk_Keyboard (keys st) true else st).
  assert (Hk : keys st1 = keys st) by (unfold st1; now destruct (_ && _)).
  destruct ((key >=? 0) && (key <? 1024)) eqn:Hrange.
  - apply andb_true_iff in Hrange as [Hlo Hhi].
    apply Z.geb_le in Hlo. apply Z.ltb_lt in Hhi.
    assert (Hin : 0 <= key < Z.of_nat (List.length (keys st1)))
      by (rewrite Hk, Hlen; unfold KEYS_SIZE; lia).
    assert (Hupd : forall v : bool,
               List.length (<[Z.to_nat key := v]> (keys st1)) = KEYS_SIZE /\
               (~ (0 <= key < 1024) -> <[Z.to_nat key := v]> (keys st1) = keys st) /\
               (forall j : nat, Z.of_nat j <> key ->
                  <[Z.to_nat key := v]> (keys st1) !! j = keys st !! j)).
    { intros v. rewrite length_insert, Hk. repeat split.
      - exact Hlen.
      - lia.
      - intros j Hj. apply list_lookup_insert_ne. lia. }
    destruct (action =? GLFW_PRESS); [| destruct (action =? GLFW_RELEASE)].
    + rewrite (array_store_in_range _ _ true Hin). simpl. eexists; split; [reflexivity |].
      simpl. apply Hupd.
    + rewrite (array_store_in_range _ _ false Hin). simpl. eexists; split; [reflexivity |].
      simpl. apply Hupd.
    + exists st1. rewrite Hk. repeat split; auto.
  - exists st1. rewrite Hk. repeat split; auto.
Qed.

Lemma key_callback_stays_in_bounds_witness :
  exists st' : Keyboard,
    key_callback keyboard_init GLFW_KEY_UNKNOWN 0 GLFW_PRESS 0 = Some st' /\
    List.length (keys st') = KEYS_SIZE /\
    (~ (0 <= GLFW_KEY_UNKNOWN < 1024) -> keys st' = keys keyboard_init) /\
    (forall j : nat, Z.of_nat j <> GLFW_KEY_UNKNOWN ->
       keys st' !! j = keys keyboard_init !! j).
Proof.
  apply (key_callback_stays_in_bounds keyboard_init GLFW_KEY_UNKNOWN 0 GLFW_PRESS 0).
  vm_compute. reflexivity.
Defined.

End KeyboardFacts.

(* ===================================================================== *)
(** * Properties of the model transform                                   *)
(* ===================================================================== *)

Section SceneFacts.
Import Glm Scene.
Local Open Scope R_scope.

(** The origin goes to the last column of the matrix. *)
Lemma world_position_origin (m : mat4) : world_position m origin = col3 m.
Proof.
  destruct m as [[a0 a1 a2 a3] [b0 b1 b2 b3] [c0 c1 c2 c3] [d0 d1 d2 d3]].
  unfold world_position, mat4_mul_vec4, vec4_add, vec4_scale, origin.
  cbn [x y z x4 y4 z4 w4 col0 col1 col2 col3].
  f_equal; ring.
Qed.

(** [glm::rotate] keeps the last column. *)
Lemma col3_rotate (m : mat4) (angle : R) (v : vec3) :
  col3 (rotate m angle v) = col3 m.
Proof. reflexivity. Qed.

(** Where the model matrix sends the local origin: the translation is
    applied inside the scaled frame, so the scale factor multiplies it;
    the rotation angle plays no part. *)
Lemma model_matrix_origin (K A S Y T angle : R) :
  world_position (model_matrix K A S Y T angle) origin
  = mk_vec4 (K * (cos (T * S) * A)) (K * Y) 0 1.
Proof.
  rewrite world_position_origin. unfold model_matrix. rewrite col3_rotate.
  unfold translate, scale, mat4_diag, vec4_add, vec4_scale.
  cbn [x y z x4 y4 z4 w4 col0 col1 col2 col3].
  f_equal; ring.
Qed.

(** C4, evaluated on the code.  At [currentFrame = 0] the model matrix of
    [main] (scale factor 3, [walkRange] 4, [walkSpeed] 2) puts the local
    origin at 12 on the walk axis, and at 0 on the other two axes, while
    [walkRange * cos(walkSpeed * currentFrame)] is 4. *)
Theorem model_origin_at_time_zero :
  let w := world_position (model_m 0) origin in
  x4 w = 12 /\ y4 w = 0 /\ z4 w = 0 /\
  walkRange * cos (walkSpeed * 0) = 4 /\
  x4 w <> walkRange * cos (walkSpeed * 0).
Proof.
  cbv zeta. unfold model_m. rewrite model_matrix_origin.
  unfold walkRange, walkSpeed, walkAxis.
  cbn [x4 y4 z4].
  replace (0 * 2)%R with 0%R by ring. replace (2 * 0)%R with 0%R by ring.
  rewrite cos_0. repeat split; lra.
Qed.

End SceneFacts.

(* ===================================================================== *)
(** * Properties of the render loop                                       *)
(* ===================================================================== *)

(** Evaluation of straight-line GL code on a context given by its fields,
    and of lookups in updated functions. *)
Ltac gl_simpl :=
  cbv [GL.run fold_left GL.glBindTexture GL.glTexImage2D GL.glFramebufferTexture2D
       GL.glDrawBuffers GL.glBindFramebuffer GL.glGenTextures GL.glGenFramebuffers
       GL.glTexParameteri GL.glGenerateMipmap GL.glUseProgram GL.glBindVertexArray
       GL.glActiveTexture GL.names_from Render.at_index nth map seq fst snd
       Render.init_color_buffer Render.init_pingpong
       N.of_nat Pos.of_succ_nat Pos.succ
       GL.next_texture GL.next_framebuffer GL.image GL.color_attachment
       GL.draw_buffers GL.uniform GL.framebuffer GL.program GL.vertex_array
       GL.active_texture GL.texture_2d GL.draws
       Render.hdrFBO Render.colorBuffers Render.pingpongFBO
       Render.pingpongColorbuffers Render.width Render.height];
  rewrite ?N.add_0_r.

Ltac fn_simpl :=
  repeat (rewrite fn_lookup_insert || rewrite fn_lookup_insert_ne by lia).

Section PassFacts.
Import GL Render Stages.
Local Open Scope N_scope.

Variable env : Env.
Variable r : Resources.

Lemma flag_after_S (h : bool) (j : nat) :
  flag_after (negb h) j = flag_after h (S j).
Proof.
  unfold flag_after. rewrite Nat.even_succ, <- Nat.negb_even.
  destruct (Nat.even j), h; reflexivity.
Qed.

Lemma render_targets_static (g g' : Context) (fb : GLuint) :
  static g' = static g -> render_targets g' fb = render_targets g fb.
Proof.
  unfold static, render_targets. intros H. injection H as _ _ _ Ha Hd.
  now rewrite Ha, Hd.
Qed.

Lemma issued_app (c : Cmd) (g : Context) (ds : list Draw) :
  draws (c g) = draws g ++ ds -> issued c g = ds.
Proof. unfold issued. intros ->. apply drop_app_length. Qed.

(** ** The geometry pass *)

Lemma geometry_pass_spec (g : Context) :
  let g' := geometry_pass env r g in
  static g' = static g /\
  uniform g' = uniform g /\
  texture_2d g' = geometry_units r (texture_2d g) /\
  draws g' =
    draws g ++
    (if vao (mesh env) =? 0 then []
     else [ mk_Draw (DrawElements (count (mesh env))) (hdrFBO (bloomFBO r))
                    (pbrProg env) (vao (mesh env))
                    (geometry_units r (texture_2d g)) (uniform g (pbrProg env)) ]).
Proof.
  cbv zeta. unfold geometry_pass.
  destruct (vao (mesh env) =? 0); repeat split; try reflexivity.
  simpl. now rewrite app_nil_r.
Qed.


(** ** The bright pass *)

Lemma bright_pass_spec (g : Context) :
  let g' := bright_pass env r g in
  static g' = static g /\
  uniform g' = uniform g /\
  texture_2d g' = <[0 := at_index (colorBuffers (bloomFBO r)) 1]> (texture_2d g) /\
  draws g' =
    draws g ++
    [ mk_Draw (DrawArrays 0 6) (at_index (pingpongFBO (bloomFBO r)) 0)
              (brightProg env) (quadVAO env)
              (<[0 := at_index (colorBuffers (bloomFBO r)) 1]> (texture_2d g))
              (uniform g (brightProg env)) ].
Proof. cbv zeta. repeat split; reflexivity. Qed.

(** ** The blur loop *)

Lemma blur_body_spec (i : Z) (h : bool) (g : Context) :
  let g' := blur_body env r i h g in
  static g' = static g /\
  program g' = program g /\
  (forall u : N, u <> 0 -> texture_2d g' u = texture_2d g u) /\
  (forall (p : GLuint) (name : string),
      name <> "horizontal"%string -> uniform g' p name = uniform g p name) /\
  exists d : Draw, draws g' = draws g ++ [d] /\ BlurDraw env r g i h d.
Proof.
  cbv zeta. unfold blur_body, glGetUniformLocation.
  assert (Hother : forall (v : Z) (p : GLuint) (name : string),
             name <> "horizontal"%string ->
             (<[program g := <["horizontal"%string := v]> (uniform g (program g))]>
                (uniform g)) p name = uniform g p name).
  { intros v p name Hn. destruct (decide (program g = p)) as [<- | Hp].
    - rewrite fn_lookup_insert. now apply fn_lookup_insert_ne.
    - now rewrite fn_lookup_insert_ne. }
  destruct (i =? 0)%Z eqn:Hi; simpl.
  all: split_and!; try reflexivity.
  all: try (intros u Hu; now apply fn_lookup_insert_ne).
  all: try (intros p name Hn; now apply Hother).
  all: eexists; split; [reflexivity |].
  all: constructor; simpl; try reflexivity.
  all: try (now rewrite !fn_lookup_insert).
  all: try (rewrite Hi; apply fn_lookup_insert).
  all: try (intros u Hu; now apply fn_lookup_insert_ne).
  all: intros name Hn; now apply Hother.
Qed.

Lemma BlurDraw_transport (g g' : Context) (i : Z) (h : bool) (d : Draw) :
  program g' = program g ->
  (forall u : N, u <> 0 -> texture_2d g' u = texture_2d g u) ->
  (forall (p : GLuint) (name : string),
      name <> "horizontal"%string -> uniform g' p name = uniform g p name) ->
  BlurDraw env r g' i h d -> BlurDraw env r g i h d.
Proof.
  intros Hp Hu Hn [H1 H2 H3 H4 H5 H6 H7 H8].
  constructor; auto.
  - congruence.
  - intros u Hne. rewrite H7 by assumption. now apply Hu.
  - intros name Hne. rewrite H8 by assumption. rewrite Hp. now apply Hn.
Qed.

Lemma blur_loop_spec (n : nat) : forall (i : Z) (h : bool) (g : Context),
  let out := blur_loop env r n i h g in
  fst out = flag_after h n /\
  static (snd out) = static g /\
  program (snd out) = program g /\
  (forall u : N, u <> 0 -> texture_2d (snd out) u = texture_2d g u) /\
  (forall (p : GLuint) (name : string),
      name <> "horizontal"%string -> uniform (snd out) p name = uniform g p name) /\
  exists ds : list Draw,
    draws (snd out) = draws g ++ ds /\
    List.length ds = n /\
    forall (j : nat) (d : Draw),
      ds !! j = Some d -> BlurDraw env r g (i + Z.of_nat j) (flag_after h j) d.
Proof.
  induction n as [| n IH]; intros i h g; cbv zeta.
  - simpl. split_and!; try reflexivity.
    exists []. rewrite app_nil_r. split_and!; try reflexivity.
    intros j d Hj. discriminate.
  - simpl blur_loop.
    destruct (blur_body_spec i h g) as (Hs & Hp & Hu & Hn & d0 & Hd0 & Hbd0).
    destruct (IH (i + 1)%Z (negb h) (blur_body env r i h g))
      as (Hf' & Hs' & Hp' & Hu' & Hn' & ds & Hds & Hlen & Hall).
    split_and!.
    + rewrite Hf'. apply flag_after_S.
    + congruence.
    + congruence.
    + intros u Hne. rewrite Hu' by assumption. now apply Hu.
    + intros p name Hne. rewrite Hn' by assumption. now apply Hn.
    + exists (d0 :: ds). split_and!.
      * rewrite Hds, Hd0, <- app_assoc. reflexivity.
      * simpl. now rewrite Hlen.
      * intros [| j] d Hj; simpl in Hj.
        -- injection Hj as <-. rewrite Z.add_0_r. exact Hbd0.
        -- apply Hall in Hj. rewrite flag_after_S in Hj.
           replace (i + Z.of_nat (S j))%Z with (i + 1 + Z.of_nat j)%Z by lia.
           eapply BlurDraw_transport; eauto.
Qed.


Lemma blur_pass_spec (passes : Z) (g : Context) :
  let out := blur_pass env r passes g in
  fst out = flag_after true (Z.to_nat passes) /\
  static (snd out) = static g /\
  framebuffer (snd out) = 0 /\
  (forall u : N, u <> 0 -> texture_2d (snd out) u = texture_2d g u) /\
  (forall (p : GLuint) (name : string),
      name <> "horizontal"%string -> uniform (snd out) p name = uniform g p name) /\
  exists ds : list Draw,
    draws (snd out) = draws g ++ ds /\
    List.length ds = Z.to_nat passes /\
    forall (j : nat) (d : Draw),
      ds !! j = Some d ->
      BlurDraw env r (glUseProgram (blurProg env) g) (Z.of_nat j) (flag_after true j) d.
Proof.
  cbv zeta. unfold blur_pass.
  destruct (blur_loop_spec (Z.to_nat passes) 0 true (glUseProgram (blurProg env) g))
    as (Hf & Hs & Hp & Hu & Hn & ds & Hds & Hlen & Hall).
  destruct (blur_loop env r (Z.to_nat passes) 0 true (glUseProgram (blurProg env) g))
    as [h g'] eqn:Hloop.
  simpl in *. split_and!; auto.
  exists ds. split_and!; auto.
Qed.

(** ** The composite pass *)

Lemma composite_pass_spec (h : bool) (g : Context) :
  let g' := composite_pass env r h g in
  static g' = static g /\
  uniform g' = uniform g /\
  texture_2d g' =
    <[1 := at_index (pingpongColorbuffers (bloomFBO r)) (Nat.b2n (negb h))]>
      (<[0 := at_index (colorBuffers (bloomFBO r)) 0]> (texture_2d g)) /\
  draws g' =
    draws g ++
    [ mk_Draw (DrawArrays 0 6) (framebuffer g) (combineProg env) (quadVAO env)
              (<[1 := at_index (pingpongColorbuffers (bloomFBO r)) (Nat.b2n (negb h))]>
                 (<[0 := at_index (colorBuffers (bloomFBO r)) 0]> (texture_2d g)))
              (uniform g (combineProg env)) ].
Proof. cbv zeta. repeat split; reflexivity. Qed.

(** ** One round of the loop keeps what startup established *)

Lemma Wired_static (g g' : Context) :
  static g' = static g ->
  (forall (p : GLuint) (name : string),
      name <> "horizontal"%string -> uniform g' p name = uniform g p name) ->
  (forall u : N, 5 <= u -> texture_2d g' u = texture_2d g u) ->
  Wired env r g -> Wired env r g'.
Proof.
  intros Hs Hn Hu [H1 H2 H3 H4 H5 H6 H7 H8 H9 H10].
  constructor; auto.
  - now rewrite (render_targets_static _ _ _ Hs).
  - intros b. now rewrite (render_targets_static _ _ _ Hs).
  - now rewrite Hn.
  - now rewrite Hn.
  - now rewrite Hn.
  - now rewrite Hn.
  - intros u Hge. rewrite Hu by assumption. now apply H10.
Qed.

Lemma geometry_pass_wired (g : Context) :
  Wired env r g -> Wired env r (geometry_pass env r g).
Proof.
  destruct (geometry_pass_spec g) as (Hs & Hn & Hu & _).
  apply Wired_static; [exact Hs | intros p name _; now rewrite Hn |].
  intros u Hge. rewrite Hu. unfold geometry_units.
  rewrite !fn_lookup_insert_ne by lia. reflexivity.
Qed.

Lemma bright_pass_wired (g : Context) :
  Wired env r g -> Wired env r (bright_pass env r g).
Proof.
  destruct (bright_pass_spec g) as (Hs & Hn & Hu & _).
  apply Wired_static; [exact Hs | intros p name _; now rewrite Hn |].
  intros u Hge. rewrite Hu. rewrite fn_lookup_insert_ne by lia. reflexivity.
Qed.

Lemma blur_pass_wired (passes : Z) (g : Context) :
  Wired env r g -> Wired env r (snd (blur_pass env r passes g)).
Proof.
  destruct (blur_pass_spec passes g) as (_ & Hs & _ & Hu & Hn & _).
  apply Wired_static; [exact Hs | exact Hn |].
  intros u Hge. apply Hu. lia.
Qed.

Lemma composite_pass_wired (h : bool) (g : Context) :
  Wired env r g -> Wired env r (composite_pass env r h g).
Proof.
  destruct (composite_pass_spec h g) as (Hs & Hn & Hu & _).
  apply Wired_static; [exact Hs | intros p name _; now rewrite Hn |].
  intros u Hge. rewrite Hu. rewrite !fn_lookup_insert_ne by lia. reflexivity.
Qed.

Lemma frame_unfold (passes : Z) (g : Context) :
  frame env r passes g =
  composite_pass env r
    (fst (blur_pass env r passes (bright_pass env r (geometry_pass env r g))))
    (snd (blur_pass env r passes (bright_pass env r (geometry_pass env r g)))).
Proof.
  unfold frame.
  now destruct (blur_pass env r passes (bright_pass env r (geometry_pass env r g))).
Qed.

Lemma frame_wired (passes : Z) (g : Context) :
  Wired env r g -> Wired env r (frame env r passes g).
Proof.
  intros H. rewrite frame_unfold.
  apply composite_pass_wired, blur_pass_wired, bright_pass_wired,
    geometry_pass_wired, H.
Qed.

Lemma frames_wired (passes : Z) (k : nat) (g : Context) :
  Wired env r g -> Wired env r (frames env r passes k g).
Proof.
  intros H. induction k as [| k IH]; simpl; [exact H | now apply frame_wired].
Qed.

End PassFacts.

Section StartupFacts.
Import GL Render Stages.
Local Open Scope N_scope.

Variable env : Env.

Lemma uniform_set_eq (U : GLuint -> string -> Z) (p : GLuint) (n : string) (v : Z) :
  (<[p := <[n := v]> (U p)]> U) p n = v.
Proof. now rewrite !fn_lookup_insert. Qed.

Lemma uniform_set_ne (U : GLuint -> string -> Z) (p p' : GLuint)
    (n n' : string) (v : Z) :
  n <> n' -> (<[p := <[n := v]> (U p)]> U) p' n' = U p' n'.
Proof.
  intros Hn. destruct (decide (p = p')) as [<- | Hp].
  - rewrite fn_lookup_insert. now apply fn_lookup_insert_ne.
  - now rewrite fn_lookup_insert_ne.
Qed.

Lemma uniform_set_keep (U : GLuint -> string -> Z) (p p' : GLuint)
    (n : string) (v : Z) :
  U p' n = v -> (<[p := <[n := v]> (U p)]> U) p' n = v.
Proof.
  intros Hv. destruct (decide (p = p')) as [<- | Hp].
  - apply uniform_set_eq.
  - now rewrite fn_lookup_insert_ne.
Qed.

Lemma bind_samplers_spec (g : Context) :
  let g' := bind_samplers env g in
  static g' = static g /\
  texture_2d g' = texture_2d g /\
  draws g' = draws g /\
  uniform g' (brightProg env) "scene" = 0%Z /\
  uniform g' (blurProg env) "image" = 0%Z /\
  uniform g' (combineProg env) "scene" = 0%Z /\
  uniform g' (combineProg env) "bloomBlur" = 1%Z.
Proof.
  cbv zeta. unfold bind_samplers, glGetUniformLocation. simpl.
  split_and!; try reflexivity.
  - rewrite uniform_set_ne by discriminate. apply uniform_set_keep.
    rewrite uniform_set_ne by discriminate. apply uniform_set_eq.
  - rewrite !uniform_set_ne by discriminate. apply uniform_set_eq.
  - rewrite uniform_set_ne by discriminate. apply uniform_set_eq.
  - apply uniform_set_eq.
Qed.



Lemma context_init_boot : Boot context_init.
Proof. constructor; simpl; intros; reflexivity || lia. Qed.

Lemma loadTexture_spec (path : string) (srgb flip : bool) (g : Context) :
  Boot g ->
  let out := loadTexture env path srgb flip g in
  Boot (snd out) /\
  next_texture g <= next_texture (snd out) /\
  next_framebuffer (snd out) = next_framebuffer g /\
  (fst out = 0 \/ fst out < next_texture (snd out)) /\
  (stbi_load env path = None <-> fst out = 0) /\
  (forall t : GLuint, t < next_texture g -> image (snd out) t = image g t).
Proof.
  intros [Ht Hf Ha Hu Hb]. cbv zeta. unfold loadTexture.
  destruct g as [nt nf img att db uni fb prog va act units ds].
  cbn in Ht, Hf, Ha, Hu, Hb. subst act.
  destruct (stbi_load env path) as [i |]; gl_simpl.
  - rewrite fn_lookup_insert.
    split_and!; try reflexivity; try lia.
    + constructor; gl_simpl; try assumption; try lia.
      intros u Hne. rewrite fn_lookup_insert_ne by congruence. now apply Hu.
    + split; [discriminate | lia].
    + intros t Hlt. apply fn_lookup_insert_ne. lia.
  - split_and!; try reflexivity; try lia; try tauto.
    now constructor.
Qed.

Lemma load_albedo_spec (g : Context) :
  Boot g ->
  let out := load_albedo env g in
  Boot (snd out) /\
  next_texture g <= next_texture (snd out) /\
  next_framebuffer (snd out) = next_framebuffer g /\
  fst out <> 0 /\
  fst out < next_texture (snd out) /\
  (stbi_load env "resources/albedo.png" = None ->
   image (snd out) (fst out) = Some white_pixel) /\
  (forall t : GLuint, t < next_texture g -> image (snd out) t = image g t).
Proof.
  intros Hboot. cbv zeta. unfold load_albedo.
  destruct (loadTexture_spec "resources/albedo.png" false true g Hboot)
    as (Hboot' & Hle & Hfb & Hrange & Hnone & Himg).
  destruct (loadTexture env "resources/albedo.png" false true g) as [t g1].
  cbn [fst snd] in *.
  set (nt0 := next_texture g) in *. set (nf0 := next_framebuffer g) in *.
  set (img0 := image g) in *. clearbody nt0 nf0 img0.
  destruct (N.eqb_spec t 0) as [-> | Hne].
  - destruct Hboot' as [Ht Hf Ha Hu Hb].
    destruct g1 as [nt nf img att db uni fb prog va act units ds].
    cbn in Ht, Hf, Ha, Hu, Hb, Hle, Hfb, Himg. subst act.
    gl_simpl. rewrite fn_lookup_insert.
    split_and!; try reflexivity; try lia.
    + constructor; gl_simpl; try assumption; try lia.
      intros u Hu'. rewrite fn_lookup_insert_ne by congruence. now apply Hu.
    + intros _. apply fn_lookup_insert.
    + intros t Hlt. rewrite fn_lookup_insert_ne by lia. now apply Himg.
  - cbn [fst snd]. split_and!; try assumption; try lia.
    intros Hmiss. apply Hnone in Hmiss. contradiction.
Qed.

Lemma BloomFBO_init_spec (w h : Z) (g : Context) :
  Boot g ->
  let out := BloomFBO_init w h g in
  let nt := next_texture g in
  let nf := next_framebuffer g in
  hdrFBO (fst out) = nf /\
  colorBuffers (fst out) = [nt; nt + 1] /\
  pingpongFBO (fst out) = [nf + 1; nf + 2] /\
  pingpongColorbuffers (fst out) = [nt + 2; nt + 3] /\
  render_targets (snd out) nf = [nt; nt + 1] /\
  render_targets (snd out) (nf + 1) = [nt + 2] /\
  render_targets (snd out) (nf + 2) = [nt + 3] /\
  (forall u : N, u <> 0 -> texture_2d (snd out) u = 0) /\
  (forall t : GLuint, t < nt -> image (snd out) t = image g t).
Proof.
  intros [Ht Hf Ha Hu Hb]. cbv zeta. unfold BloomFBO_init.
  destruct g as [nt nf img att db uni fb prog va act units ds].
  cbn in Ht, Hf, Ha, Hu, Hb. subst act.
  gl_simpl. unfold render_targets. gl_simpl.
  assert (Hnf : forall k : N, (nf + k =? 0) = false)
    by (intros k; apply N.eqb_neq; lia).
  assert (Hnf0 : (nf =? 0) = false) by (apply N.eqb_neq; lia).
  rewrite Hnf0, !Hnf.
  split_and!.
  - reflexivity.
  - reflexivity.
  - replace (nf + 1 + 1) with (nf + 2) by lia. reflexivity.
  - replace (nt + 2 + 1) with (nt + 3) by lia. reflexivity.
  - fn_simpl. reflexivity.
  - fn_simpl. rewrite Hb. gl_simpl. fn_simpl. reflexivity.
  - replace (nf + 2) with (nf + 1 + 1) by lia.
    fn_simpl. rewrite Hb. gl_simpl. fn_simpl. f_equal; lia.
  - intros u Hne. rewrite !fn_lookup_insert_ne by congruence. now apply Hu.
  - intros t Hlt. fn_simpl. reflexivity.
Qed.


(** Whatever the five image loads return, startup wires the surfaces as
    the passes expect them; the albedo texture is the white pixel when its
    file is missing, and each other material texture is 0 exactly when
    its file is missing. *)
Lemma setup_spec :
  let r := resources env in
  let g := snd (setup env context_init) in
  Wired env r g /\
  (stbi_load env "resources/albedo.png" = None ->
   image g (texAlbedo r) = Some white_pixel) /\
  (stbi_load env "resources/normal.png" = None <-> texNormal r = 0) /\
  (stbi_load env "resources/metallic.png" = None <-> texMetallic r = 0) /\
  (stbi_load env "resources/roughness.png" = None <-> texRoughness r = 0) /\
  (stbi_load env "resources/ao.png" = None <-> texAO r = 0).
Proof.
  cbv zeta. unfold resources, setup.
  destruct (load_albedo_spec context_init context_init_boot)
    as (B1 & L1 & F1 & Ha0 & Ha & Hwhite & _).
  destruct (load_albedo env context_init) as [ta g1]. cbn [fst snd] in *.
  destruct (loadTexture_spec "resources/normal.png" false true g1 B1)
    as (B2 & L2 & F2 & Hn & Hn0 & I2).
  destruct (loadTexture env "resources/normal.png" false true g1) as [tn g2].
  cbn [fst snd] in *.
  destruct (loadTexture_spec "resources/metallic.png" false true g2 B2)
    as (B3 & L3 & F3 & Hm & Hm0 & I3).
  destruct (loadTexture env "resources/metallic.png" false true g2) as [tm g3].
  cbn [fst snd] in *.
  destruct (loadTexture_spec "resources/roughness.png" false true g3 B3)
    as (B4 & L4 & F4 & Hr & Hr0 & I4).
  destruct (loadTexture env "resources/roughness.png" false true g3) as [tr g4].
  cbn [fst snd] in *.
  destruct (loadTexture_spec "resources/ao.png" false true g4 B4)
    as (B5 & L5 & F5 & Ho & Ho0 & I5).
  destruct (loadTexture env "resources/ao.png" false true g4) as [to g5].
  cbn [fst snd] in *.
  destruct (BloomFBO_init_spec SCR_W SCR_H g5 B5)
    as (Ehdr & Ecb & Epf & Epc & Thdr & Tp0 & Tp1 & Hunits & I6).
  destruct (BloomFBO_init SCR_W SCR_H g5) as [b g6]. cbn [fst snd] in *.
  destruct (bind_samplers_spec g6) as (Hs & Hu & _ & Hsb & Hib & Hsc & Hbc).
  cbn [fst snd texAlbedo texNormal texMetallic texRoughness texAO].
  assert (Himage : image (bind_samplers env g6) = image g6)
    by (unfold static in Hs; congruence).
  split_and!; try assumption.
  - constructor; try assumption;
      unfold surfaces, materials;
      cbn [bloomFBO texAlbedo texNormal texMetallic texRoughness texAO];
      rewrite ?Ehdr, ?Ecb, ?Epf, ?Epc; cbn [at_index nth].
    + now rewrite (render_targets_static _ _ _ Hs).
    + intros [|]; rewrite (render_targets_static _ _ _ Hs), ?Epf, ?Epc;
        cbn [Nat.b2n at_index nth]; assumption.
    + repeat (constructor; [cbn [In]; lia |]). constructor.
    + cbn [In]. intros t Ht. lia.
    + intros u Hge. rewrite Hu. apply Hunits. lia.
  - intros Hmiss. rewrite Himage, I6, I5, I4, I3, I2 by lia. now apply Hwhite.
Qed.

Lemma main_loop_wired (passes : Z) (k : nat) :
  Wired env (resources env) (main_loop env passes k).
Proof. apply frames_wired. apply setup_spec. Qed.

End StartupFacts.

(** ** One round of the loop, from a context that startup has wired *)

Section FrameFacts.
Import GL Render Stages.
Local Open Scope N_scope.

Variable env : Env.
Variable r : Resources.
Variable passes : Z.
Variable g : Context.
Hypothesis Hwired : Wired env r g.

Let g1 : Context := geometry_pass env r g.
Let g2 : Context := bright_pass env r g1.
Let g3 : Context := snd (blur_pass env r passes g2).

Local Abbreviation cb i := (at_index (colorBuffers (bloomFBO r)) i).
Local Abbreviation pc i := (at_index (pingpongColorbuffers (bloomFBO r)) i).
Local Abbreviation pf i := (at_index (pingpongFBO (bloomFBO r)) i).

Lemma frame_static : static (frame env r passes g) = static g.
Proof.
  rewrite frame_unfold.
  destruct (composite_pass_spec env r (fst (blur_pass env r passes g2)) g3)
    as (Hc & _).
  destruct (blur_pass_spec env r passes g2) as (_ & Hb & _).
  destruct (bright_pass_spec env r g1) as (Hp & _).
  destruct (geometry_pass_spec env r g) as (Hg & _).
  unfold g3, g2, g1 in *. congruence.
Qed.

Lemma g1_wired : Wired env r g1.
Proof. apply geometry_pass_wired, Hwired. Qed.

Lemma g2_wired : Wired env r g2.
Proof. apply bright_pass_wired, g1_wired. Qed.

Lemma g3_wired : Wired env r g3.
Proof. apply blur_pass_wired, g2_wired. Qed.

(** *** The textures on the units after the geometry pass *)

Lemma or_else_material (t : GLuint) :
  In t (materials r) -> In (or_else t (texAlbedo r)) (materials r).
Proof.
  intros Hin. unfold or_else. destruct (t =? 0); [| exact Hin].
  unfold materials. cbn [In]. tauto.
Qed.

Lemma geometry_units_material (u : N) :
  texture_2d g1 u = 0 \/ In (texture_2d g1 u) (materials r).
Proof.
  destruct (geometry_pass_spec env r g) as (_ & _ & Hu & _).
  fold g1 in Hu. rewrite Hu. unfold geometry_units.
  destruct (decide (u = 4)) as [-> | H4];
    [rewrite fn_lookup_insert; right; apply or_else_material;
     unfold materials; cbn [In]; tauto |].
  rewrite fn_lookup_insert_ne by congruence.
  destruct (decide (u = 3)) as [-> | H3];
    [rewrite fn_lookup_insert; right; apply or_else_material;
     unfold materials; cbn [In]; tauto |].
  rewrite fn_lookup_insert_ne by congruence.
  destruct (decide (u = 2)) as [-> | H2];
    [rewrite fn_lookup_insert; right; apply or_else_material;
     unfold materials; cbn [In]; tauto |].
  rewrite fn_lookup_insert_ne by congruence.
  destruct (decide (u = 1)) as [-> | H1];
    [rewrite fn_lookup_insert; right; apply or_else_material;
     unfold materials; cbn [In]; tauto |].
  rewrite fn_lookup_insert_ne by congruence.
  destruct (decide (u = 0)) as [-> | H0];
    [rewrite fn_lookup_insert; right; unfold materials; cbn [In]; tauto |].
  rewrite fn_lookup_insert_ne by congruence.
  left. apply (w_units _ _ _ Hwired). lia.
Qed.

(** The four surfaces are pairwise different. *)
Lemma surfaces_distinct :
  cb 0%nat <> pc 0%nat /\ cb 0%nat <> pc 1%nat /\
  cb 1%nat <> pc 0%nat /\ cb 1%nat <> pc 1%nat /\
  pc 0%nat <> pc 1%nat.
Proof.
  pose proof (w_surfaces _ _ _ Hwired) as H.
  unfold surfaces in H.
  repeat (apply List.NoDup_cons_iff in H as [? H]).
  cbn [In] in *. intuition congruence.
Qed.

Lemma pingpong_surface (b : bool) : In (pc (Nat.b2n b)) (surfaces r).
Proof. unfold surfaces. destruct b; cbn [Nat.b2n In]; tauto. Qed.

(** *** The draw calls of the passes *)

Lemma bright_draws_eq :
  issued (bright_pass env r) g1 =
  [ mk_Draw (DrawArrays 0 6) (pf 0%nat) (brightProg env) (quadVAO env)
            (<[0 := cb 1%nat]> (texture_2d g1)) (uniform g1 (brightProg env)) ].
Proof.
  apply issued_app.
  destruct (bright_pass_spec env r g1) as (_ & _ & _ & H). exact H.
Qed.

Lemma blur_draws_spec :
  let ds := issued (fun g' => snd (blur_pass env r passes g')) g2 in
  List.length ds = Z.to_nat passes /\
  forall (j : nat) (d : Draw),
    ds !! j = Some d ->
    BlurDraw env r (glUseProgram (blurProg env) g2)
             (Z.of_nat j) (flag_after true j) d.
Proof.
  cbv zeta.
  destruct (blur_pass_spec env r passes g2)
    as (_ & _ & _ & _ & _ & ds & Hds & Hlen & Hall).
  rewrite (issued_app (fun g' => snd (blur_pass env r passes g')) _ ds Hds).
  split; assumption.
Qed.

Lemma composite_draws_eq :
  let h := fst (blur_pass env r passes g2) in
  issued (composite_pass env r h) g3 =
  [ mk_Draw (DrawArrays 0 6) 0 (combineProg env) (quadVAO env)
            (<[1 := pc (Nat.b2n (negb h))]> (<[0 := cb 0%nat]> (texture_2d g3)))
            (uniform g3 (combineProg env)) ].
Proof.
  cbv zeta. apply issued_app.
  destruct (composite_pass_spec env r (fst (blur_pass env r passes g2)) g3)
    as (_ & _ & _ & H).
  destruct (blur_pass_spec env r passes g2) as (_ & _ & Hfb & _).
  fold g3 in Hfb. rewrite Hfb in H. exact H.
Qed.

Lemma material_not_surface (t : GLuint) :
  t = 0 \/ In t (materials r) -> ~ In t (surfaces r).
Proof. apply (w_materials _ _ _ Hwired). Qed.

(** The bright pass issues one draw call: it writes ping-pong surface 0
    and samples the second colour buffer of the HDR framebuffer; every
    other unit holds a material texture or nothing. *)
Lemma bright_draw_facts :
  exists d : Draw,
    issued (bright_pass env r) g1 = [d] /\
    render_targets g (d_framebuffer d) = [ pc 0%nat ] /\
    sampled d "scene" = cb 1%nat /\
    d_units d 0 = cb 1%nat /\
    (forall u : N, u <> 0 -> d_units d u = 0 \/ In (d_units d u) (materials r)).
Proof.
  eexists. split; [apply bright_draws_eq |].
  unfold sampled. cbn [d_framebuffer d_units d_uniform].
  rewrite (w_scene_bright _ _ _ g1_wired).
  split_and!.
  - apply (w_pingpong _ _ _ Hwired false).
  - apply fn_lookup_insert.
  - apply fn_lookup_insert.
  - intros u Hu. rewrite fn_lookup_insert_ne by congruence.
    apply geometry_units_material.
Qed.

Lemma BlurDraw_bound (g' : Context) (p : GLuint) (i : Z) (h : bool) (d : Draw) :
  BlurDraw env r (glUseProgram p g') i h d ->
  d_program d = p /\
  (forall u : N, u <> 0 -> d_units d u = texture_2d g' u) /\
  (forall name : string, name <> "horizontal"%string ->
     d_uniform d name = uniform g' p name).
Proof. intros [_ _ Hp _ _ _ Hu Hn]. split_and!; assumption. Qed.

(** Round [j] of the blur loop writes the ping-pong surface selected by
    the flag and samples surface 0 in round 0, the other surface after. *)
Lemma blur_draw_facts (j : nat) (d : Draw) :
  issued (fun g' => snd (blur_pass env r passes g')) g2 !! j = Some d ->
  let h := flag_after true j in
  d_uniform d "horizontal" = (if Nat.even j then 1 else 0)%Z /\
  render_targets g (d_framebuffer d) = [ pc (Nat.b2n h) ] /\
  sampled d "image" = d_units d 0 /\
  d_units d 0 = (if Nat.eqb j 0 then pc 0%nat else pc (Nat.b2n (negb h))) /\
  (forall u : N, u <> 0 -> d_units d u = 0 \/ In (d_units d u) (materials r)).
Proof.
  intros Hj. cbv zeta.
  destruct blur_draws_spec as [_ Hall].
  specialize (Hall j d Hj).
  destruct (BlurDraw_bound _ _ _ _ _ Hall) as (_ & Hunits & Huni).
  destruct Hall as [_ Hfb _ _ Hflag Hsrc _ _].
  split_and!.
  - rewrite Hflag. unfold flag_after. now destruct (Nat.even j).
  - rewrite Hfb. apply (w_pingpong _ _ _ Hwired).
  - unfold sampled. rewrite Huni by discriminate.
    now rewrite (w_image_blur _ _ _ g2_wired).
  - rewrite Hsrc. destruct j as [| j]; [reflexivity |].
    replace (Z.of_nat (S j) =? 0)%Z with false
      by (symmetry; apply Z.eqb_neq; lia).
    reflexivity.
  - intros u Hu. rewrite Hunits by assumption.
    destruct (bright_pass_spec env r g1) as (_ & _ & Hb & _).
    fold g2 in Hb. rewrite Hb, fn_lookup_insert_ne by congruence.
    apply geometry_units_material.
Qed.

(** The composite pass issues one draw call: into the window, with the
    first colour buffer on unit 0 and, on unit 1, the ping-pong surface
    opposite to the flag the loop left. *)
Lemma composite_draw_facts :
  let h := flag_after true (Z.to_nat passes) in
  exists d : Draw,
    issued (composite_pass env r (fst (blur_pass env r passes g2))) g3 = [d] /\
    d_framebuffer d = 0 /\
    sampled d "scene" = cb 0%nat /\
    sampled d "bloomBlur" = d_units d 1 /\
    d_units d 1 = pc (Nat.b2n (negb h)).
Proof.
  cbv zeta. eexists. split; [apply composite_draws_eq |].
  unfold sampled. cbn [d_framebuffer d_units d_uniform].
  rewrite (w_scene_combine _ _ _ g3_wired), (w_bloom_combine _ _ _ g3_wired).
  destruct (blur_pass_spec env r passes g2) as (Hflag & _).
  rewrite Hflag.
  split_and!.
  - reflexivity.
  - rewrite fn_lookup_insert_ne by discriminate. apply fn_lookup_insert.
  - reflexivity.
  - apply fn_lookup_insert.
Qed.

Lemma bright_no_feedback :
  Forall (no_feedback g "scene") (issued (bright_pass env r) g1).
Proof.
  destruct bright_draw_facts as (d & -> & Ht & Hs & H0 & Hu).
  destruct surfaces_distinct as (_ & _ & Hne & _).
  assert (Hall : forall u : N, ~ In (d_units d u) [pc 0%nat]).
  { intros u [Heq | []]. destruct (decide (u = 0)) as [-> | Hne0].
    - congruence.
    - apply (material_not_surface (d_units d u) (Hu u Hne0)).
      rewrite <- Heq. apply (pingpong_surface false). }
  repeat constructor; rewrite Ht.
  - discriminate.
  - apply Hall.
  - exact Hall.
Qed.

Lemma blur_no_feedback (j : nat) (d : Draw) :
  issued (fun g' => snd (blur_pass env r passes g')) g2 !! j = Some d ->
  no_feedback g "image" d.
Proof.
  intros Hj. destruct (blur_draw_facts j d Hj) as (_ & Ht & Hs & H0 & Hu).
  destruct surfaces_distinct as (_ & _ & _ & _ & Hne).
  assert (Hall : forall u : N,
             ~ In (d_units d u) [pc (Nat.b2n (flag_after true j))]).
  { intros u [Heq | []]. destruct (decide (u = 0)) as [-> | Hne0].
    - rewrite H0 in Heq. destruct j as [| j].
      + cbn in Heq. congruence.
      + cbn [Nat.eqb] in Heq.
        destruct (flag_after true (S j)); cbn in Heq; congruence.
    - apply (material_not_surface (d_units d u) (Hu u Hne0)).
      rewrite <- Heq. apply pingpong_surface. }
  unfold no_feedback. rewrite Ht. split_and!.
  - discriminate.
  - rewrite Hs. apply Hall.
  - exact Hall.
Qed.

End FrameFacts.

(** ** The loop of the program *)

Section LoopFacts.
Import GL Render Stages.
Local Open Scope N_scope.

Variable env : Env.

Lemma main_loop_static (passes : Z) (k : nat) :
  static (main_loop env passes k) = static (snd (setup env context_init)).
Proof.
  unfold main_loop. induction k as [| k IH]; simpl; [reflexivity |].
  now rewrite frame_static.
Qed.

(** The draw calls of a round of the loop are those of its four passes,
    in order. *)
Lemma main_loop_draws (passes : Z) (k : nat) :
  draws (main_loop env passes (S k))
  = draws (main_loop env passes k)
    ++ geometry_draws env passes k ++ bright_draws env passes k
    ++ blur_draws env passes k ++ composite_draws env passes k.
Proof.
  unfold geometry_draws, bright_draws, blur_draws, composite_draws, after_blur,
    after_bright, after_geometry.
  set (r := resources env). set (g := main_loop env passes k).
  assert (Hstep : main_loop env passes (S k) = frame env r passes g) by reflexivity.
  rewrite Hstep, frame_unfold.
  set (g1 := geometry_pass env r g). set (g2 := bright_pass env r g1).
  set (out := blur_pass env r passes g2).
  destruct (geometry_pass_spec env r g) as (_ & _ & _ & H1).
  destruct (bright_pass_spec env r g1) as (_ & _ & _ & H2).
  destruct (blur_pass_spec env r passes g2) as (_ & _ & _ & _ & _ & ds & H3 & _).
  destruct (composite_pass_spec env r (fst out) (snd out)) as (_ & _ & _ & H4).
  fold g1 in H1. fold g2 in H2. fold out in H3.
  rewrite (issued_app (geometry_pass env r) g _ H1).
  rewrite (issued_app (bright_pass env r) g1 _ H2).
  rewrite (issued_app (fun g' => snd (blur_pass env r passes g')) g2 _ H3).
  rewrite (issued_app (composite_pass env r (fst out)) (snd out) _ H4).
  rewrite H4, H3, H2, H1, <- !app_assoc. reflexivity.
Qed.

(** The texture the composite pass samples as [bloomBlur] is the one the
    last draw call before it wrote, for any number of blur passes: the
    last round of the blur loop or, when the loop does not run, the bright
    pass. *)
Lemma composite_reads_last_written (passes : Z) (k : nat) (d_last d_comp : Draw) :
  last (bright_draws env passes k ++ blur_draws env passes k) = Some d_last ->
  In d_comp (composite_draws env passes k) ->
  render_targets (main_loop env passes k) (d_framebuffer d_last)
  = [ sampled d_comp "bloomBlur" ].
Proof.
  unfold bright_draws, blur_draws, composite_draws, after_blur, after_bright,
    after_geometry.
  set (r := resources env). set (g := main_loop env passes k).
  pose proof (main_loop_wired env passes k) as W. fold r g in W.
  destruct (composite_draw_facts env r passes g W) as (dc & -> & _ & _ & Hs & Hu).
  destruct (bright_draw_facts env r g W) as (db & -> & Ht & _).
  destruct (blur_draws_spec env r passes g) as [Hlen Hall].
  intros Hlast [<- | []].
  rewrite Hs, Hu.
  rewrite last_lookup, length_app, Hlen in Hlast. cbn [List.length] in Hlast.
  destruct (Z.to_nat passes) as [| n] eqn:Hn.
  - rewrite lookup_app_l in Hlast by (simpl; lia).
    cbn in Hlast. injection Hlast as <-. rewrite Ht. reflexivity.
  - rewrite lookup_app_r in Hlast by (simpl; lia).
    cbn [List.length] in Hlast.
    replace (Init.Nat.pred (1 + S n) - 1)%nat with n in Hlast by lia.
    destruct (blur_draw_facts env r passes g W n d_last Hlast) as (_ & Ht' & _).
    rewrite Ht'. unfold flag_after. rewrite Nat.even_succ, <- Nat.negb_even.
    destruct (Nat.even n); reflexivity.
Qed.

End LoopFacts.

Section PipelineTheorems.
Import GL Render Stages.
Local Open Scope N_scope.

(** C1.  With the 15 blur passes of the program, in every round of the
    render loop: the blur loop issues 15 draw calls, the last of them
    writes ping-pong surface 1, and the one draw call of the composite pass
    goes to the window with that same surface bound on unit 1, where its
    [bloomBlur] sampler reads it. *)
Theorem composite_reads_last_blur_target (env : Env) (k : nat) :
  let g := main_loop env blurPasses k in
  let pc i := at_index (pingpongColorbuffers (bloomFBO (resources env))) i in
  exists d_last d_comp : Draw,
    List.length (blur_draws env blurPasses k) = 15%nat /\
    blur_draws env blurPasses k !! 14%nat = Some d_last /\
    composite_draws env blurPasses k = [d_comp] /\
    d_framebuffer d_comp = 0 /\
    render_targets g (d_framebuffer d_last) = [pc 1%nat] /\
    d_units d_comp 1 = pc 1%nat /\
    sampled d_comp "bloomBlur" = pc 1%nat.
Proof.
  cbv zeta.
  unfold blur_draws, composite_draws, after_blur, after_bright, after_geometry.
  set (r := resources env). set (g := main_loop env blurPasses k).
  pose proof (main_loop_wired env blurPasses k) as W. fold r g in W.
  destruct (blur_draws_spec env r blurPasses g) as [Hlen _].
  destruct (lookup_lt_is_Some_2
              (issued (fun g' => snd (blur_pass env r blurPasses g'))
                      (bright_pass env r (geometry_pass env r g))) 14)
    as [d_last Hlast]; [rewrite Hlen; unfold blurPasses; lia |].
  destruct (composite_draw_facts env r blurPasses g W)
    as (d_comp & Hc & Hfb & _ & Hs & Hu).
  destruct (blur_draw_facts env r blurPasses g W 14 d_last Hlast) as (_ & Ht & _).
  exists d_last, d_comp. split_and!.
  - exact Hlen.
  - exact Hlast.
  - exact Hc.
  - exact Hfb.
  - exact Ht.
  - exact Hu.
  - rewrite Hs. exact Hu.
Qed.


(** C2, as the code has it.  For any number of blur passes and in every
    round of the render loop, the blur loop issues one draw call per pass,
    and for the draw call of pass [i]: the [horizontal] uniform is 1 when
    [i] is even and 0 when [i] is odd; in pass 0 the [image] sampler reads
    ping-pong surface 0, which is what the bright pass wrote; in every
    later pass it reads the surface that pass [i - 1] wrote; and in every
    pass the surface read is not the one being written. *)
Theorem blur_flag_and_sources (env : Env) (passes : Z) (k : nat) :
  let g := main_loop env passes k in
  let ds := blur_draws env passes k in
  let pc i := at_index (pingpongColorbuffers (bloomFBO (resources env))) i in
  List.length ds = Z.to_nat passes /\
  forall (i : nat) (d : Draw),
    ds !! i = Some d ->
    d_uniform d "horizontal" = (if Nat.even i then 1 else 0)%Z /\
    (i = 0%nat ->
       sampled d "image" = pc 0%nat /\
       Forall (fun b : Draw => render_targets g (d_framebuffer b) = [pc 0%nat])
              (bright_draws env passes k)) /\
    (forall d' : Draw,
       (0 < i)%nat -> ds !! (i - 1)%nat = Some d' ->
       render_targets g (d_framebuffer d') = [sampled d "image"]) /\
    ~ In (sampled d "image") (render_targets g (d_framebuffer d)).
Proof.
  cbv zeta.
  unfold bright_draws, blur_draws, after_bright, after_geometry.
  set (r := resources env). set (g := main_loop env passes k).
  pose proof (main_loop_wired env passes k) as W. fold r g in W.
  destruct (blur_draws_spec env r passes g) as [Hlen _].
  split; [exact Hlen |].
  intros i d Hi.
  destruct (blur_draw_facts env r passes g W i d Hi) as (Hflag & _ & Hs & H0 & _).
  split_and!.
  - exact Hflag.
  - intros ->. split.
    + rewrite Hs, H0. reflexivity.
    + destruct (bright_draw_facts env r g W) as (db & -> & Ht & _).
      repeat constructor. exact Ht.
  - intros d' Hpos Hprev.
    destruct (blur_draw_facts env r passes g W (i - 1) d' Hprev) as (_ & Ht & _).
    rewrite Ht, Hs, H0.
    destruct i as [| i]; [lia |].
    replace (S i - 1)%nat with i by lia.
    cbn [Nat.eqb]. rewrite <- (flag_after_S true i).
    unfold flag_after. destruct (Nat.even i); reflexivity.
  - apply (blur_no_feedback env r passes g W i d Hi).
Qed.

(** C2 as stated fails.  With no image files and two blur passes, in the
    first round of the loop, it is not the case that every pass has the
    stated flag, pass 0 reads ping-pong surface 0, and every later pass
    reads a ping-pong surface that the pass before it did not write:
    pass 1 reads the surface that pass 0 wrote. *)
Lemma blur_source_not_unwritten_counterexample :
  let g := main_loop bare_env 2 0 in
  let ds := blur_draws bare_env 2 0 in
  let pingpong := pingpongColorbuffers (bloomFBO (resources bare_env)) in
  ~ (forall (i : nat) (d : Draw),
       ds !! i = Some d ->
       d_uniform d "horizontal" = (if Nat.even i then 1 else 0)%Z /\
       (i = 0%nat -> sampled d "image" = at_index pingpong 0) /\
       (forall d' : Draw,
          (0 < i)%nat -> ds !! (i - 1)%nat = Some d' ->
          In (sampled d "image") pingpong /\
          ~ In (sampled d "image") (render_targets g (d_framebuffer d')))).
Proof.
  cbv zeta. unfold blur_draws, after_bright, after_geometry.
  set (r := resources bare_env). set (g := main_loop bare_env 2 0).
  pose proof (main_loop_wired bare_env 2 0) as W. fold r g in W.
  destruct (blur_draws_spec bare_env r 2 g) as [Hlen _].
  change (Z.to_nat 2) with 2%nat in Hlen.
  intros H.
  destruct (lookup_lt_is_Some_2
              (issued (fun g' => snd (blur_pass bare_env r 2 g'))
                      (bright_pass bare_env r (geometry_pass bare_env r g))) 1)
    as [d Hd]; [rewrite Hlen; lia |].
  destruct (lookup_lt_is_Some_2
              (issued (fun g' => snd (blur_pass bare_env r 2 g'))
                      (bright_pass bare_env r (geometry_pass bare_env r g))) 0)
    as [d' Hd']; [rewrite Hlen; lia |].
  destruct (H 1%nat d Hd) as (_ & _ & Hprev).
  destruct (Hprev d') as [_ Hnot]; [lia | exact Hd' |].
  apply Hnot.
  destruct (blur_draw_facts bare_env r 2 g W 1 d Hd) as (_ & _ & Hs & H0 & _).
  destruct (blur_draw_facts bare_env r 2 g W 0 d' Hd') as (_ & Ht & _).
  rewrite Ht, Hs, H0. left. reflexivity.
Qed.

(** C7.  For any number of blur passes and in every round of the render
    loop, the one draw call of the bright pass and each draw call of the
    blur loop writes a surface that differs from the texture its sampler
    reads ([scene] for the bright pass, [image] for the blur), and that no
    texture unit holds while it is being written. *)
Theorem passes_never_sample_their_target (env : Env) (passes : Z) (k : nat) :
  let g := main_loop env passes k in
  List.length (bright_draws env passes k) = 1%nat /\
  Forall (no_feedback g "scene") (bright_draws env passes k) /\
  List.length (blur_draws env passes k) = Z.to_nat passes /\
  Forall (no_feedback g "image") (blur_draws env passes k).
Proof.
  cbv zeta.
  unfold bright_draws, blur_draws, after_bright, after_geometry.
  set (r := resources env). set (g := main_loop env passes k).
  pose proof (main_loop_wired env passes k) as W. fold r g in W.
  split_and!.
  - now destruct (bright_draw_facts env r g W) as (db & -> & _).
  - apply (bright_no_feedback env r g W).
  - apply (blur_draws_spec env r passes g).
  - apply Forall_lookup. intros j d Hj.
    apply (blur_no_feedback env r passes g W j d Hj).
Qed.

(** C6, as amended.  In every round of the render loop, after the geometry
    pass has bound its textures: unit 0 holds the albedo texture; each of
    the normal, metallic, roughness and ambient-occlusion units holds the
    albedo texture when its own file could not be loaded; the albedo
    texture is the 1x1 white pixel when the albedo file could not be
    loaded; so when the albedo file is missing as well, every material
    whose file is missing is drawn with the 1x1 white pixel.  A load that
    fails returns 0 and leaves the context as it was, after which startup
    goes on; and when the mesh is there, the geometry pass issues its one
    draw call with these bindings. *)
Theorem missing_textures_fall_back (env : Env) (passes : Z) (k : nat) :
  let r := resources env in
  let g := after_geometry env passes k in
  texture_2d g 0 = texAlbedo r /\
  Forall (fun slot : string * N =>
            stbi_load env (fst slot) = None ->
            texture_2d g (snd slot) = texAlbedo r)
         fallback_slots /\
  (stbi_load env "resources/albedo.png" = None ->
   image g (texAlbedo r) = Some white_pixel) /\
  (stbi_load env "resources/albedo.png" = None ->
   Forall (fun slot : string * N =>
             stbi_load env (fst slot) = None ->
             image g (texture_2d g (snd slot)) = Some white_pixel)
          material_slots) /\
  Forall (fun slot : string * N =>
            stbi_load env (fst slot) = None ->
            forall g0 : Context, loadTexture env (fst slot) false true g0 = (0, g0))
         material_slots /\
  (vao (mesh env) <> 0 ->
   exists d : Draw,
     geometry_draws env passes k = [d] /\ d_units d = texture_2d g).
Proof.
  cbv zeta. unfold geometry_draws, after_geometry.
  set (r := resources env). set (g := main_loop env passes k).
  destruct (setup_spec env) as (_ & Hwhite & Hn & Hm & Hr & Ho).
  cbv zeta in Hwhite, Hn, Hm, Hr, Ho. fold r in Hwhite, Hn, Hm, Hr, Ho.
  destruct (geometry_pass_spec env r g) as (Hs & _ & Hu & Hd).
  assert (Himage : image (geometry_pass env r g) = image (snd (setup env context_init))).
  { pose proof (main_loop_static env passes k) as Hs'. fold g in Hs'.
    unfold static in Hs, Hs'. congruence. }
  assert (Hslots :
    Forall (fun slot : string * N =>
              stbi_load env (fst slot) = None ->
              texture_2d (geometry_pass env r g) (snd slot) = texAlbedo r)
           fallback_slots).
  { rewrite Hu. unfold fallback_slots, geometry_units.
    repeat constructor; cbn [fst snd]; intros Hmiss.
    - apply Hn in Hmiss. rewrite Hmiss. now fn_simpl.
    - apply Hm in Hmiss. rewrite Hmiss. now fn_simpl.
    - apply Hr in Hmiss. rewrite Hmiss. now fn_simpl.
    - apply Ho in Hmiss. rewrite Hmiss. now fn_simpl. }
  assert (H0 : texture_2d (geometry_pass env r g) 0 = texAlbedo r)
    by (rewrite Hu; unfold geometry_units; now fn_simpl).
  split_and!.
  - exact H0.
  - exact Hslots.
  - intros Hmiss. rewrite Himage. now apply Hwhite.
  - intros Hmiss. unfold material_slots. constructor.
    + intros _. cbn [snd]. rewrite H0, Himage. now apply Hwhite.
    + eapply Forall_impl; [exact Hslots |].
      intros slot Hslot Hnone. cbn beta in Hslot.
      rewrite (Hslot Hnone), Himage. now apply Hwhite.
  - unfold material_slots, fallback_slots.
    repeat constructor; cbn [fst]; intros Hmiss g0;
      unfold loadTexture; now rewrite Hmiss.
  - intros Hne. apply N.eqb_neq in Hne.
    unfold issued. rewrite Hd, drop_app_length, Hu, Hne.
    eexists. split; reflexivity.
Qed.

(** C6, as the claim has it, fails on the code: a material whose file is
    missing is not always drawn with the white pixel.  With the albedo
    file present, as a 2x2 image, and the normal map missing, unit 1 holds
    the albedo texture after the geometry pass, whose image is that of the
    albedo file. *)
Lemma missing_map_not_white_counterexample :
  let env := Assets.albedo_only_env in
  let g := after_geometry env blurPasses 0 in
  ~ Forall (fun slot : string * N =>
              stbi_load env (fst slot) = None ->
              image g (texture_2d g (snd slot)) = Some white_pixel)
           material_slots.
Proof.
  cbv zeta. intros H. unfold material_slots, fallback_slots in H.
  rewrite !List.Forall_cons_iff in H. destruct H as (_ & Hn & _).
  cbn [fst snd] in Hn. specialize (Hn eq_refl).
  vm_compute in Hn. discriminate.
Qed.

End PipelineTheorems.

(* ===================================================================== *)
(** * Properties of the view matrix and of the keyboard motion           *)
(* ===================================================================== *)

(** Equality of records of reals, field by field. *)
Ltac fields_ring :=
  repeat match goal with
         | |- @eq ?T _ _ => lazymatch T with R => fail | _ => f_equal end
         end;
  ring.

Section MotionFacts.
Import Glm Input Stages Motion.
Local Open Scope R_scope.

Lemma cross_orthogonal_l (a b : vec3) : dot (cross a b) a = 0.
Proof. unfold dot, cross; cbn [x y z]; ring. Qed.

Lemma dot_scale_l (v w : vec3) (k : R) : dot (vec3_scale v k) w = k * dot v w.
Proof. unfold dot, vec3_scale; cbn [x y z]; ring. Qed.

Lemma dot_comm (v w : vec3) : dot v w = dot w v.
Proof. unfold dot; ring. Qed.

Lemma normalize_unit (v : vec3) : dot v v = 1 -> normalize v = v.
Proof.
  intros H. unfold normalize, inversesqrt. rewrite H, sqrt_1.
  destruct v as [a b c]. unfold vec3_scale; cbn [x y z]. f_equal; field.
Qed.


Lemma cross_orthogonal_r (a b : vec3) : dot (cross a b) b = 0.
Proof. unfold dot, cross; cbn [x y z]; ring. Qed.

Lemma vec3_sub_add (p v : vec3) : vec3_sub (vec3_add p v) p = v.
Proof.
  destruct p as [p0 p1 p2], v as [v0 v1 v2].
  unfold vec3_sub, vec3_add; cbn [x y z]. f_equal; ring.
Qed.

(** The direction a move during a drag leaves in [front]: the spherical
    direction of the new yaw and pitch itself. *)
Lemma front_after_drag_move (c : Camera) (xpos ypos : R) :
  mouseDown c = true ->
  let c' := processMouseMove c xpos ypos in
  front c' = mk_vec3 (cos (radians (yaw c')) * cos (radians (pitch c')))
                     (sin (radians (pitch c')))
                     (sin (radians (yaw c')) * cos (radians (pitch c'))).
Proof.
  intros Hdown. cbv zeta.
  destruct (processMouseMove_active c xpos ypos Hdown) as (Hy & Hp & Hf & _).
  rewrite Hf, Hy, Hp. apply normalize_unit. apply dot_spherical.
Qed.

Lemma cos_radians_pos (p : R) : -89 <= p <= 89 -> 0 < cos (radians p).
Proof.
  intros [Hlo Hhi]. pose proof PI_RGT_0 as Hpi.
  apply cos_gt_0; unfold radians; nra.
Qed.

(** What [lookAt] does to a point, given the three axes it computed. *)
Lemma lookAt_apply (eye center up p : vec3) :
  let f := normalize (vec3_sub center eye) in
  let s := normalize (cross f up) in
  let u := cross s f in
  mat4_mul_vec4 (lookAt eye center up) (mk_vec4 (x p) (y p) (z p) 1)
  = mk_vec4 (dot s (vec3_sub p eye)) (dot u (vec3_sub p eye))
            (- dot f (vec3_sub p eye)) 1.
Proof.
  cbv zeta. unfold lookAt.
  set (f := normalize (vec3_sub center eye)).
  set (s := normalize (cross f up)).
  set (u := cross s f).
  destruct f as [f0 f1 f2], s as [s0 s1 s2], u as [u0 u1 u2],
           p as [p0 p1 p2], eye as [e0 e1 e2].
  unfold mat4_mul_vec4, vec4_add, vec4_scale, dot, vec3_sub.
  cbn [x y z x4 y4 z4 w4 col0 col1 col2 col3].
  f_equal; ring.
Qed.

(** X1.  The view matrix of any camera sends the position of the camera to
    the origin of view space. *)
Theorem viewMatrix_sends_camera_to_origin (c : Camera) :
  mat4_mul_vec4 (viewMatrix c) (mk_vec4 (x (pos c)) (y (pos c)) (z (pos c)) 1)
  = mk_vec4 0 0 0 1.
Proof.
  unfold viewMatrix. rewrite lookAt_apply.
  assert (H0 : vec3_sub (pos c) (pos c) = mk_vec3 0 0 0).
  { destruct (pos c) as [p0 p1 p2]. unfold vec3_sub; cbn [x y z]. f_equal; ring. }
  rewrite H0. unfold dot; cbn [x y z]. f_equal; ring.
Qed.

Lemma viewMatrix_target (c : Camera) :
  dot (front c) (front c) = 1 ->
  let t := vec3_add (pos c) (front c) in
  mat4_mul_vec4 (viewMatrix c) (mk_vec4 (x t) (y t) (z t) 1) = mk_vec4 0 0 (-1) 1.
Proof.
  intros Hunit. cbv zeta. unfold viewMatrix. rewrite lookAt_apply.
  rewrite !vec3_sub_add, (normalize_unit (front c) Hunit).
  set (s := normalize (cross (front c) (up c))).
  assert (Hs : dot s (front c) = 0).
  { unfold s, normalize. rewrite dot_scale_l, cross_orthogonal_l. ring. }
  rewrite Hs, cross_orthogonal_r, Hunit. f_equal; ring.
Qed.

(** X2.  After a mouse move during a drag, the view matrix sends the point
    one [front] ahead of the camera to (0, 0, -1): the camera looks down
    the negative z axis of view space, whatever its up vector. *)
Theorem viewMatrix_looks_down_negative_z (c : Camera) (xpos ypos : R) :
  mouseDown c = true ->
  let c' := processMouseMove c xpos ypos in
  let t := vec3_add (pos c') (front c') in
  mat4_mul_vec4 (viewMatrix c') (mk_vec4 (x t) (y t) (z t) 1) = mk_vec4 0 0 (-1) 1.
Proof.
  intros Hdown. cbv zeta. apply viewMatrix_target.
  pose proof (front_after_drag_move c xpos ypos Hdown) as Hf. cbv zeta in Hf.
  rewrite Hf. apply dot_spherical.
Qed.

Lemma viewMatrix_looks_down_negative_z_witness :
  let c' := processMouseMove (set_drag true true camera_init) 640 360 in
  let t := vec3_add (pos c') (front c') in
  mat4_mul_vec4 (viewMatrix c') (mk_vec4 (x t) (y t) (z t) 1) = mk_vec4 0 0 (-1) 1.
Proof.
  apply (viewMatrix_looks_down_negative_z (set_drag true true camera_init) 640 360).
  reflexivity.
Defined.

(** X3.  For a camera whose up vector is (0, 1, 0), as the struct
    initialises it, a mouse move during a drag leaves [front] away from the
    up vector: [cross(front, up)] is not null, and the [right] vector that
    [processKeyboard] computes from it has length 1, no vertical component,
    and is perpendicular to [front]. *)
Theorem right_vector_after_drag_move (c : Camera) (xpos ypos : R) :
  mouseDown c = true ->
  up c = mk_vec3 0 1 0 ->
  let c' := processMouseMove c xpos ypos in
  let right := normalize (cross (front c') (up c')) in
  0 < dot (cross (front c') (up c')) (cross (front c') (up c')) /\
  length right = 1 /\ y right = 0 /\ dot right (front c') = 0.
Proof.
  intros Hdown Hup. cbv zeta.
  pose proof (front_after_drag_move c xpos ypos Hdown) as Hf. cbv zeta in Hf.
  destruct (processMouseMove_active c xpos ypos Hdown)
    as (_ & Hp & _ & _ & _ & _ & Hup' & _).
  rewrite Hup', Hup.
  set (c' := processMouseMove c xpos ypos) in *.
  assert (Hcos : 0 < cos (radians (pitch c')))
    by (apply cos_radians_pos; rewrite Hp; apply clamp_pitch_range).
  assert (Hpos : 0 < dot (cross (front c') (mk_vec3 0 1 0))
                         (cross (front c') (mk_vec3 0 1 0))).
  { rewrite Hf. unfold dot, cross; cbn [x y z].
    pose proof (sin2_cos2 (radians (yaw c'))) as Hy. unfold Rsqr in Hy.
    set (cp := cos (radians (pitch c'))) in *.
    set (sy := sin (radians (yaw c'))) in *.
    set (cy := cos (radians (yaw c'))) in *.
    replace (sin (radians (pitch c')) * 0 - 1 * (sy * cp)) with (- (sy * cp)) by ring.
    replace (sy * cp * 0 - 0 * (cy * cp)) with 0 by ring.
    replace (cy * cp * 1 - 0 * sin (radians (pitch c'))) with (cy * cp) by ring.
    replace (- (sy * cp) * - (sy * cp) + 0 * 0 + cy * cp * (cy * cp))
      with (cp * cp * (sy * sy + cy * cy)) by ring.
    rewrite Hy. nra. }
  split_and!.
  - exact Hpos.
  - apply length_normalize, Hpos.
  - unfold normalize, vec3_scale, cross; cbn [x y z]. ring.
  - unfold normalize. rewrite dot_scale_l, cross_orthogonal_l. ring.
Qed.

Lemma right_vector_after_drag_move_witness :
  let c' := processMouseMove (set_drag true true camera_init) 640 360 in
  let right := normalize (cross (front c') (up c')) in
  0 < dot (cross (front c') (up c')) (cross (front c') (up c')) /\
  length right = 1 /\ y right = 0 /\ dot right (front c') = 0.
Proof.
  apply (right_vector_after_drag_move (set_drag true true camera_init) 640 360);
    reflexivity.
Defined.


Lemma array_load_nth {A : Type} (a : list A) (i : nat) (d : A) :
  (i < List.length a)%nat -> array_load a (Z.of_nat i) = Some (nth i a d).
Proof.
  intros Hlt. unfold array_load.
  replace ((0 <=? Z.of_nat i) && (Z.of_nat i <? Z.of_nat (List.length a)))%Z
    with true by (symmetry; apply andb_true_iff; split;
                  [apply Z.leb_le | apply Z.ltb_lt]; lia).
  rewrite Nat2Z.id.
  destruct (nth_lookup_or_length a i d) as [H | H]; [exact H | lia].
Qed.

(** [processKeyboard] as its six steps, once the six keys are read. *)
Lemma processKeyboard_steps (ks : list bool) (c : Camera) (dt : R) :
  List.length ks = KEYS_SIZE ->
  let key k := nth (Z.to_nat k) ks false in
  let step (v : vec3) := vec3_scale (vec3_scale v 4) dt in
  processKeyboard ks c dt =
  let c1 := advance (key GLFW_KEY_W) (step (front c)) c in
  let c2 := retreat (key GLFW_KEY_S) (step (front c1)) c1 in
  let right := normalize (cross (front c2) (up c2)) in
  let c3 := retreat (key GLFW_KEY_A) (step right) c2 in
  let c4 := advance (key GLFW_KEY_D) (step right) c3 in
  let c5 := retreat (key GLFW_KEY_Q) (step (up c4)) c4 in
  Some (advance (key GLFW_KEY_E) (step (up c5)) c5).
Proof.
  intros Hlen. cbv zeta. unfold processKeyboard.
  assert (Hload : forall k : nat, (k < 1024)%nat ->
             array_load ks (Z.of_nat k) = Some (nth k ks false)).
  { intros k Hk. apply array_load_nth. rewrite Hlen. exact Hk. }
  change GLFW_KEY_W with (Z.of_nat 87). change GLFW_KEY_S with (Z.of_nat 83).
  change GLFW_KEY_A with (Z.of_nat 65). change GLFW_KEY_D with (Z.of_nat 68).
  change GLFW_KEY_Q with (Z.of_nat 81). change GLFW_KEY_E with (Z.of_nat 69).
  rewrite !Nat2Z.id.
  rewrite (Hload 87%nat), (Hload 83%nat), (Hload 65%nat), (Hload 68%nat),
          (Hload 81%nat), (Hload 69%nat) by lia.
  reflexivity.
Qed.

Lemma advance_spec (b : bool) (v : vec3) (c : Camera) :
  advance b v c = set_pos (vec3_add (pos c) (vec3_scale v (b2r b))) c.
Proof.
  destruct c as [[p0 p1 p2] f u yw pt fv lx ly fm md], v as [v0 v1 v2].
  destruct b; unfold advance, set_pos, vec3_add, vec3_scale, b2r;
    cbn [pos front up yaw pitch fov lastX lastY firstMouse mouseDown x y z];
    f_equal; f_equal; ring.
Qed.

Lemma retreat_spec (b : bool) (v : vec3) (c : Camera) :
  retreat b v c = set_pos (vec3_add (pos c) (vec3_scale v (- b2r b))) c.
Proof.
  destruct c as [[p0 p1 p2] f u yw pt fv lx ly fm md], v as [v0 v1 v2].
  destruct b; unfold retreat, set_pos, vec3_add, vec3_sub, vec3_scale, b2r;
    cbn [pos front up yaw pitch fov lastX lastY firstMouse mouseDown x y z];
    f_equal; f_equal; ring.
Qed.

(** The six steps of [processKeyboard] as one displacement. *)
Lemma processKeyboard_moves (ks : list bool) (c : Camera) (dt : R) :
  List.length ks = KEYS_SIZE ->
  let held k := b2r (nth (Z.to_nat k) ks false) in
  let right := normalize (cross (front c) (up c)) in
  let along (v : vec3) (plus minus : Z) := vec3_scale v (4 * dt * (held plus - held minus)) in
  processKeyboard ks c dt =
  Some (set_pos (vec3_add (pos c)
                   (vec3_add (along (front c) GLFW_KEY_W GLFW_KEY_S)
                      (vec3_add (along right GLFW_KEY_D GLFW_KEY_A)
                                (along (up c) GLFW_KEY_E GLFW_KEY_Q)))) c).
Proof.
  intros Hlen. cbv zeta.
  pose proof (processKeyboard_steps ks c dt Hlen) as Hsteps. cbv zeta in Hsteps.
  rewrite Hsteps. clear Hsteps.
  rewrite !advance_spec, !retreat_spec.
  assert (Hset : forall (p q : vec3) (c0 : Camera),
             set_pos q (set_pos p c0) = set_pos q c0) by reflexivity.
  cbn [set_pos pos front up]. rewrite !Hset.
  set (right := normalize (cross (front c) (up c))).
  set (w := b2r (nth (Z.to_nat GLFW_KEY_W) ks false)).
  set (s := b2r (nth (Z.to_nat GLFW_KEY_S) ks false)).
  set (a := b2r (nth (Z.to_nat GLFW_KEY_A) ks false)).
  set (d := b2r (nth (Z.to_nat GLFW_KEY_D) ks false)).
  set (q := b2r (nth (Z.to_nat GLFW_KEY_Q) ks false)).
  set (e := b2r (nth (Z.to_nat GLFW_KEY_E) ks false)).
  destruct (pos c) as [p0 p1 p2], (front c) as [f0 f1 f2],
           (up c) as [u0 u1 u2], right as [r0 r1 r2].
  unfold vec3_add, vec3_scale; cbn [x y z].
  do 3 f_equal; ring.
Qed.

(** X4.  On a key table of 1024 entries [processKeyboard] reads inside the
    table, changes no field of the camera other than [pos], and moves
    [pos] by [4 * dt] times the sum of [front], [right] and [up], each
    counted +1, -1 or 0 by its pair of keys (W/S, D/A, E/Q): a pair held
    together cancels, and with no key held the camera stays as it is. *)
Theorem processKeyboard_displacement (ks : list bool) (c : Camera) (dt : R) :
  List.length ks = KEYS_SIZE ->
  let held k := b2r (nth (Z.to_nat k) ks false) in
  let right := normalize (cross (front c) (up c)) in
  let along (v : vec3) (plus minus : Z) := vec3_scale v (4 * dt * (held plus - held minus)) in
  processKeyboard ks c dt =
  Some (set_pos (vec3_add (pos c)
                   (vec3_add (along (front c) GLFW_KEY_W GLFW_KEY_S)
                      (vec3_add (along right GLFW_KEY_D GLFW_KEY_A)
                                (along (up c) GLFW_KEY_E GLFW_KEY_Q)))) c).
Proof.
  intros Hlen. cbv zeta.
  pose proof (processKeyboard_steps ks c dt Hlen) as Hsteps. cbv zeta in Hsteps.
  rewrite Hsteps. clear Hsteps.
  rewrite !advance_spec, !retreat_spec.
  assert (Hset : forall (p q : vec3) (c0 : Camera),
             set_pos q (set_pos p c0) = set_pos q c0) by reflexivity.
  cbn [set_pos pos front up]. rewrite !Hset.
  set (right := normalize (cross (front c) (up c))).
  set (w := b2r (nth (Z.to_nat GLFW_KEY_W) ks false)).
  set (s := b2r (nth (Z.to_nat GLFW_KEY_S) ks false)).
  set (a := b2r (nth (Z.to_nat GLFW_KEY_A) ks false)).
  set (d := b2r (nth (Z.to_nat GLFW_KEY_D) ks false)).
  set (q := b2r (nth (Z.to_nat GLFW_KEY_Q) ks false)).
  set (e := b2r (nth (Z.to_nat GLFW_KEY_E) ks false)).
  destruct (pos c) as [p0 p1 p2], (front c) as [f0 f1 f2],
           (up c) as [u0 u1 u2], right as [r0 r1 r2].
  unfold vec3_add, vec3_scale; cbn [x y z].
  do 3 f_equal; ring.
Qed.

Lemma processKeyboard_displacement_witness :
  let ks := replicate KEYS_SIZE false in
  let c := camera_init in
  let dt := 1 in
  let held k := b2r (nth (Z.to_nat k) ks false) in
  let right := normalize (cross (front c) (up c)) in
  let along (v : vec3) (plus minus : Z) := vec3_scale v (4 * dt * (held plus - held minus)) in
  processKeyboard ks c dt =
  Some (set_pos (vec3_add (pos c)
                   (vec3_add (along (front c) GLFW_KEY_W GLFW_KEY_S)
                      (vec3_add (along right GLFW_KEY_D GLFW_KEY_A)
                                (along (up c) GLFW_KEY_E GLFW_KEY_Q)))) c).
Proof.
  apply (processKeyboard_displacement (replicate KEYS_SIZE false) camera_init 1).
  vm_compute. reflexivity.
Defined.


Lemma last_cons_default {A : Type} (l : list A) : forall m d : A,
  List.last (m :: l) d = List.last l m.
Proof.
  induction l as [| a l IH]; intros m d; [reflexivity |].
  change (List.last (m :: a :: l) d) with (List.last (a :: l) d).
  now rewrite !IH.
Qed.

(** X5.  The keyboard motion does not depend on the frame rate: with the
    same keys held over any sequence of frame times, and the camera not
    turned in between, the loop moves [pos] by what one call of
    [processKeyboard] would for the whole time span, from the value of
    [lastFrame] before the first round to the time of the last round, and
    [lastFrame] ends as the time of the last round. *)
Theorem keyboard_motion_independent_of_frame_rate
    (ks : list bool) (c : Camera) (lastFrame : R) (times : list R) :
  List.length ks = KEYS_SIZE ->
  let held k := b2r (nth (Z.to_nat k) ks false) in
  let right := normalize (cross (front c) (up c)) in
  let span := List.last times lastFrame - lastFrame in
  let along (v : vec3) (plus minus : Z) :=
    vec3_scale v (4 * span * (held plus - held minus)) in
  frame_times ks (lastFrame, c) times =
  Some (List.last times lastFrame,
        set_pos (vec3_add (pos c)
                   (vec3_add (along (front c) GLFW_KEY_W GLFW_KEY_S)
                      (vec3_add (along right GLFW_KEY_D GLFW_KEY_A)
                                (along (up c) GLFW_KEY_E GLFW_KEY_Q)))) c).
Proof.
  intros Hlen. cbv zeta. revert c lastFrame.
  induction times as [| t times IH]; intros c t0.
  - cbn [frame_times List.last].
    destruct c as [[p0 p1 p2] [f0 f1 f2] [u0 u1 u2] yw pt fv lx ly fm md].
    cbn [pos front up]. set (right := normalize _). destruct right as [r0 r1 r2].
    unfold set_pos, vec3_add, vec3_scale; cbn [pos front up yaw pitch fov lastX lastY
      firstMouse mouseDown x y z].
    fields_ring.
  - cbn [frame_times]. unfold frame_time.
    pose proof (processKeyboard_moves ks c (t - t0) Hlen) as Hstep.
    cbv zeta in Hstep. rewrite Hstep. cbn [mbind option_bind].
    rewrite IH, last_cons_default.
    assert (Hset : forall (p q : vec3) (c0 : Camera),
               set_pos q (set_pos p c0) = set_pos q c0) by reflexivity.
    cbn [set_pos pos front up]. rewrite !Hset.
    set (right := normalize (cross (front c) (up c))).
    set (w := b2r (nth (Z.to_nat GLFW_KEY_W) ks false)).
    set (s := b2r (nth (Z.to_nat GLFW_KEY_S) ks false)).
    set (a := b2r (nth (Z.to_nat GLFW_KEY_A) ks false)).
    set (d := b2r (nth (Z.to_nat GLFW_KEY_D) ks false)).
    set (q := b2r (nth (Z.to_nat GLFW_KEY_Q) ks false)).
    set (e := b2r (nth (Z.to_nat GLFW_KEY_E) ks false)).
    set (tn := List.last times t).
    destruct (pos c) as [p0 p1 p2], (front c) as [f0 f1 f2],
             (up c) as [u0 u1 u2], right as [r0 r1 r2].
    unfold vec3_add, vec3_scale; cbn [x y z].
    fields_ring.
Qed.

Lemma keyboard_motion_independent_of_frame_rate_witness :
  let ks := <[Z.to_nat GLFW_KEY_W := true]> (replicate KEYS_SIZE false) in
  let c := camera_init in
  let lastFrame := 0 in
  let times := [0.016; 0.05; 0.066] in
  let held k := b2r (nth (Z.to_nat k) ks false) in
  let right := normalize (cross (front c) (up c)) in
  let span := List.last times lastFrame - lastFrame in
  let along (v : vec3) (plus minus : Z) :=
    vec3_scale v (4 * span * (held plus - held minus)) in
  frame_times ks (lastFrame, c) times =
  Some (List.last times lastFrame,
        set_pos (vec3_add (pos c)
                   (vec3_add (along (front c) GLFW_KEY_W GLFW_KEY_S)
                      (vec3_add (along right GLFW_KEY_D GLFW_KEY_A)
                                (along (up c) GLFW_KEY_E GLFW_KEY_Q)))) c).
Proof.
  apply (keyboard_motion_independent_of_frame_rate
           (<[Z.to_nat GLFW_KEY_W := true]> (replicate KEYS_SIZE false))
           camera_init 0 [0.016; 0.05; 0.066]).
  vm_compute. reflexivity.
Defined.

End MotionFacts.

(* ===================================================================== *)
(** * Properties of event sequences                                       *)
(* ===================================================================== *)

Section EventFacts.
Import Glm Input Stages Motion.

(** One key event on a table of 1024 entries. *)
Lemma key_callback_step (st : Keyboard) (e : KeyEvent) :
  List.length (keys st) = KEYS_SIZE ->
  exists st' : Keyboard,
    key_callback st (ke_key e) (ke_scancode e) (ke_action e) (ke_mods e) = Some st' /\
    List.length (keys st') = KEYS_SIZE /\
    shouldClose st' = shouldClose st || escape_press e /\
    forall (k : nat) (b : bool),
      keys st !! k = Some b ->
      keys st' !! k = Some (held b [e] (Z.of_nat k)).
Proof.
  intros Hlen. destruct e as [key sc action mods]. cbn [ke_key ke_scancode ke_action ke_mods].
  unfold key_callback, escape_press, held. cbn [ke_key ke_action].
  set (st1 := if ((key =? GLFW_KEY_ESCAPE) && (action =? GLFW_PRESS))%Z
              then mk_Keyboard (keys st) true else st).
  assert (Hk : keys st1 = keys st) by (unfold st1; now destruct (_ && _)).
  assert (Hc : shouldClose st1
               = shouldClose st || ((key =? GLFW_KEY_ESCAPE) && (action =? GLFW_PRESS))%Z).
  { unfold st1. destruct ((key =? GLFW_KEY_ESCAPE) && (action =? GLFW_PRESS))%Z;
      cbn [shouldClose]; [now rewrite orb_true_r | now rewrite orb_false_r]. }
  assert (Hset : forall v : bool,
             (0 <= key < 1024)%Z ->
             forall (k : nat) (b : bool),
               keys st !! k = Some b ->
               <[Z.to_nat key := v]> (keys st1) !! k
               = Some (if (key =? Z.of_nat k)%Z then v else b)).
  { intros v Hin k b Hkb. rewrite Hk.
    destruct (Z.eqb_spec key (Z.of_nat k)) as [-> | Hne].
    - rewrite Nat2Z.id. apply list_lookup_insert_eq. now apply lookup_lt_Some in Hkb.
    - rewrite list_lookup_insert_ne by lia. exact Hkb. }
  destruct ((key >=? 0) && (key <? 1024))%Z eqn:Hrange.
  - apply andb_true_iff in Hrange as [Hlo Hhi].
    apply Z.geb_le in Hlo. apply Z.ltb_lt in Hhi.
    assert (Hin : (0 <= key < Z.of_nat (List.length (keys st1)))%Z)
      by (rewrite Hk, Hlen; unfold KEYS_SIZE; lia).
    destruct (action =? GLFW_PRESS)%Z; [| destruct (action =? GLFW_RELEASE)%Z].
    + rewrite (array_store_in_range _ _ true Hin). cbn [mbind option_bind].
      eexists; split_and!; [reflexivity | | exact Hc |].
      * cbn [keys]. now rewrite length_insert, Hk.
      * cbn [keys]. intros k b Hkb. apply Hset; [lia | exact Hkb].
    + rewrite (array_store_in_range _ _ false Hin). cbn [mbind option_bind].
      eexists; split_and!; [reflexivity | | exact Hc |].
      * cbn [keys]. now rewrite length_insert, Hk.
      * cbn [keys]. intros k b Hkb. apply Hset; [lia | exact Hkb].
    + exists st1. split_and!; [reflexivity | now rewrite Hk | exact Hc |].
      intros k b Hkb. rewrite Hk, Hkb. now destruct (key =? Z.of_nat k)%Z.
  - exists st1. split_and!; [reflexivity | now rewrite Hk | exact Hc |].
    intros k b Hkb. rewrite Hk, Hkb.
    destruct (Z.eqb_spec key (Z.of_nat k)) as [-> | Hne]; [| reflexivity].
    apply andb_false_iff in Hrange as [Hlo | Hhi].
    + rewrite Z.geb_leb in Hlo. apply Z.leb_gt in Hlo. lia.
    + apply Z.ltb_ge in Hhi. apply lookup_lt_Some in Hkb. rewrite Hlen in Hkb.
      unfold KEYS_SIZE in Hkb. lia.
Qed.

(** X6.  Over any sequence of key events on a table of 1024 entries,
    [key_callback] never stores outside the table, and afterwards each
    entry tells whether its key is held: it is what the last press or
    release of that key left (repeats and other keys do not count), or
    what it was before when there was none.  The window is asked to close
    exactly when it already was or some event was the press of escape. *)
Theorem key_table_tracks_held_keys (st : Keyboard) (evs : list KeyEvent) :
  List.length (keys st) = KEYS_SIZE ->
  exists st' : Keyboard,
    key_run st evs = Some st' /\
    List.length (keys st') = KEYS_SIZE /\
    shouldClose st' = shouldClose st || existsb escape_press evs /\
    forall (k : nat) (b : bool),
      keys st !! k = Some b ->
      keys st' !! k = Some (held b evs (Z.of_nat k)).
Proof.
  revert st. induction evs as [| e evs IH]; intros st Hlen.
  - exists st. cbn [key_run existsb held]. rewrite orb_false_r. auto.
  - destruct (key_callback_step st e Hlen) as (st1 & Hstep & Hlen1 & Hc1 & Hk1).
    destruct (IH st1 Hlen1) as (st' & Hrun & Hlen' & Hc' & Hk').
    exists st'. cbn [key_run existsb]. rewrite Hstep. cbn [mbind option_bind].
    split_and!; [exact Hrun | exact Hlen' | now rewrite Hc', Hc1, orb_assoc |].
    intros k b Hkb. specialize (Hk1 k b Hkb).
    rewrite (Hk' k _ Hk1). reflexivity.
Qed.

Lemma key_table_tracks_held_keys_witness :
  let evs := [ mk_KeyEvent GLFW_KEY_W 25 GLFW_PRESS 0;
               mk_KeyEvent GLFW_KEY_W 25 GLFW_REPEAT 0;
               mk_KeyEvent GLFW_KEY_UNKNOWN 0 GLFW_PRESS 0;
               mk_KeyEvent GLFW_KEY_A 38 GLFW_PRESS 0;
               mk_KeyEvent GLFW_KEY_A 38 GLFW_RELEASE 0 ] in
  exists st' : Keyboard,
    key_run keyboard_init evs = Some st' /\
    List.length (keys st') = KEYS_SIZE /\
    shouldClose st' = shouldClose keyboard_init || existsb escape_press evs /\
    forall (k : nat) (b : bool),
      keys keyboard_init !! k = Some b ->
      keys st' !! k = Some (held b evs (Z.of_nat k)).
Proof.
  cbv zeta. apply key_table_tracks_held_keys. vm_compute. reflexivity.
Defined.

Local Open Scope R_scope.

Lemma cursor_run_active (moves : list (R * R)) : forall c : Camera,
  mouseDown c = true ->
  let c' := cursor_run c moves in
  mouseDown c' = true /\
  yaw c' = yaw c + (fst (List.last moves (lastX c, lastY c)) - lastX c) * 0.18 /\
  lastX c' = fst (List.last moves (lastX c, lastY c)) /\
  lastY c' = snd (List.last moves (lastX c, lastY c)).
Proof.
  induction moves as [| m moves IH]; intros c Hdown; cbv zeta.
  - cbn [cursor_run fold_left List.last fst snd]. split_and!; auto; ring.
  - change (cursor_run c (m :: moves))
      with (cursor_run (cursor_callback c (fst m) (snd m)) moves).
    destruct (processMouseMove_active c (fst m) (snd m) Hdown)
      as (Hy & _ & _ & Hx & Hly & _ & _ & _ & _ & Hd).
    fold (cursor_callback c (fst m) (snd m)) in Hy, Hx, Hly, Hd.
    destruct (IH _ Hd) as (Hd' & Hy' & Hx' & Hly').
    rewrite Hx, Hly, Hy in *.
    assert (Hlast : List.last (m :: moves) (lastX c, lastY c)
                    = List.last moves (fst m, snd m)).
    { rewrite <- surjective_pairing. apply last_cons_default. }
    rewrite Hlast. split_and!; auto. rewrite Hy'. ring.
Qed.

(** X7.  Over a drag, the yaw does not depend on the path of the cursor:
    after any sequence of moves it is the yaw at the start plus 0.18 times
    the horizontal distance from the last position recorded before the
    moves to the position of the last move (over the reals; the pitch,
    which is clamped, has no such form). *)
Theorem yaw_follows_cursor_over_drag (c : Camera) (moves : list (R * R)) :
  mouseDown c = true ->
  let c' := cursor_run c moves in
  yaw c' = yaw c + (fst (List.last moves (lastX c, lastY c)) - lastX c) * 0.18 /\
  lastX c' = fst (List.last moves (lastX c, lastY c)).
Proof.
  intros Hdown. cbv zeta.
  destruct (cursor_run_active moves c Hdown) as (_ & Hy & Hx & _).
  split; assumption.
Qed.

Lemma yaw_follows_cursor_over_drag_witness :
  let c := set_drag true true camera_init in
  let moves := [(410, 300); (395, 310); (520, 280)] in
  let c' := cursor_run c moves in
  yaw c' = yaw c + (fst (List.last moves (lastX c, lastY c)) - lastX c) * 0.18 /\
  lastX c' = fst (List.last moves (lastX c, lastY c)).
Proof.
  apply (yaw_follows_cursor_over_drag (set_drag true true camera_init)
           [(410, 300); (395, 310); (520, 280)]).
  reflexivity.
Defined.

(** X8.  Over any sequence of camera events from any camera state, every
    single event leaves [pos] and [up] as they are; [yaw], [pitch] and
    [front] change only on a cursor move that arrives during a drag; [fov]
    changes only on a scroll; the drag flag changes only on an event of
    the right mouse button; and the recorded cursor position changes only
    on a cursor move. *)
Theorem camera_events_touch_only_their_fields (c : Camera) (evs : list CameraEvent) :
  Forall (fun step : Camera * CameraEvent * Camera =>
            let '(before, e, after) := step in
            pos after = pos before /\ up after = up before /\
            (yaw after <> yaw before \/ pitch after <> pitch before
             \/ front after <> front before ->
             exists xpos ypos, e = CursorPos xpos ypos /\ mouseDown before = true) /\
            (fov after <> fov before -> exists xoffset yoffset, e = Scroll xoffset yoffset) /\
            (mouseDown after <> mouseDown before ->
             exists action mods, e = MouseButton GLFW_MOUSE_BUTTON_RIGHT action mods) /\
            (lastX after <> lastX before \/ lastY after <> lastY before ->
             exists xpos ypos, e = CursorPos xpos ypos))
         (camera_run c evs).
Proof.
  revert c. induction evs as [| e evs IH]; intros c; cbn [camera_run].
  - constructor.
  - constructor; [| apply IH].
    destruct e as [button action mods | xpos ypos | xoffset yoffset];
      cbn [camera_step].
    + unfold mouse_button_callback.
      destruct (Z.eqb_spec button GLFW_MOUSE_BUTTON_RIGHT) as [-> | Hne];
        unfold set_drag; cbn [pos up yaw pitch front fov mouseDown lastX lastY];
        split_and!; try reflexivity; try tauto; intros H; try tauto.
      exists action, mods. reflexivity.
    + unfold cursor_callback. destruct (mouseDown c) eqn:Hdown.
      * destruct (processMouseMove_active c xpos ypos Hdown)
          as (_ & _ & _ & _ & _ & Hp & Hu & Hf & _ & Hd).
        split_and!; try assumption.
        -- intros _. exists xpos, ypos. auto.
        -- intros H. contradiction.
        -- intros H. rewrite Hd in H. contradiction.
        -- intros _. exists xpos, ypos. reflexivity.
      * rewrite (processMouseMove_inactive c xpos ypos Hdown).
        unfold set_last; cbn [pos up yaw pitch front fov mouseDown lastX lastY].
        split_and!; try reflexivity; try tauto.
        intros _. exists xpos, ypos. reflexivity.
    + unfold scroll_callback.
      assert (Hfields : forall (v : R) (c0 : Camera),
                 pos (set_fov v c0) = pos c0 /\ up (set_fov v c0) = up c0 /\
                 yaw (set_fov v c0) = yaw c0 /\ pitch (set_fov v c0) = pitch c0 /\
                 front (set_fov v c0) = front c0 /\
                 mouseDown (set_fov v c0) = mouseDown c0 /\
                 lastX (set_fov v c0) = lastX c0 /\ lastY (set_fov v c0) = lastY c0)
        by (intros; repeat split).
      set (c1 := set_fov (fov c - yoffset) c).
      set (c2 := if Rlt_dec (fov c1) 15 then set_fov 15 c1 else c1).
      set (c3 := if Rgt_dec (fov c2) 90 then set_fov 90 c2 else c2).
      assert (H1 : pos c1 = pos c /\ up c1 = up c /\ yaw c1 = yaw c /\
                   pitch c1 = pitch c /\ front c1 = front c /\
                   mouseDown c1 = mouseDown c /\ lastX c1 = lastX c /\
                   lastY c1 = lastY c) by apply Hfields.
      assert (H2 : pos c2 = pos c1 /\ up c2 = up c1 /\ yaw c2 = yaw c1 /\
                   pitch c2 = pitch c1 /\ front c2 = front c1 /\
                   mouseDown c2 = mouseDown c1 /\ lastX c2 = lastX c1 /\
                   lastY c2 = lastY c1)
        by (unfold c2; destruct (Rlt_dec (fov c1) 15); [apply Hfields | repeat split]).
      assert (H3 : pos c3 = pos c2 /\ up c3 = up c2 /\ yaw c3 = yaw c2 /\
                   pitch c3 = pitch c2 /\ front c3 = front c2 /\
                   mouseDown c3 = mouseDown c2 /\ lastX c3 = lastX c2 /\
                   lastY c3 = lastY c2)
        by (unfold c3; destruct (Rgt_dec (fov c2) 90); [apply Hfields | repeat split]).
      clearbody c1 c2 c3.
      destruct H3 as (-> & -> & -> & -> & -> & -> & -> & ->).
      destruct H2 as (-> & -> & -> & -> & -> & -> & -> & ->).
      destruct H1 as (-> & -> & -> & -> & -> & -> & -> & ->).
      split_and!; try reflexivity; try tauto.
      intros _. exists xoffset, yoffset. reflexivity.
Qed.

End EventFacts.

(* ===================================================================== *)
(** * Properties of the projection, the model matrix and the lights      *)
(* ===================================================================== *)

Section SceneMotionFacts.
Import Glm Input Scene Motion Lights.
Local Open Scope R_scope.

Lemma tan_half_fov (f : R) :
  15 <= f <= 90 -> 0 < tan (radians f / 2) <= 1.
Proof.
  intros [Hlo Hhi]. pose proof PI_RGT_0 as Hpi. unfold radians.
  split.
  - apply tan_gt_0; nra.
  - rewrite <- tan_PI4. apply tan_incr_1; nra.
Qed.

Lemma proj_apply (c : Camera) (p : vec3) :
  let clip := mat4_mul_vec4 (proj c) (mk_vec4 (x p) (y p) (z p) 1) in
  w4 clip = - z p /\
  z4 clip = (100.1 * - z p - 20) / 99.9.
Proof.
  cbv zeta. unfold proj, perspective, mat4_mul_vec4, vec4_add, vec4_scale.
  cbn [x4 y4 z4 w4 col0 col1 col2 col3]. split; lra.
Qed.

(** X9.  After any scroll event the projection of the loop body is well
    defined and keeps the depth range it was given: the tangent of half
    the field of view lies in (0, 1], and a point of view space at depth
    [d] in front of the camera gets clip coordinates with [w = d] and [z]
    within [-w, w] exactly when [0.1 <= d <= 100], with [z = -w] on the
    near plane and [z = w] on the far plane. *)
Theorem projection_keeps_depth_range
    (c : Camera) (xoffset yoffset : R) (px py d : R) :
  let c' := scroll_callback c xoffset yoffset in
  let clip := mat4_mul_vec4 (proj c') (mk_vec4 px py (- d) 1) in
  0 < tan (radians (fov c') / 2) <= 1 /\
  w4 clip = d /\
  (- w4 clip <= z4 clip <= w4 clip <-> 0.1 <= d <= 100) /\
  (d = 0.1 -> z4 clip = - w4 clip) /\
  (d = 100 -> z4 clip = w4 clip).
Proof.
  cbv zeta.
  destruct (proj_apply (scroll_callback c xoffset yoffset) (mk_vec3 px py (- d)))
    as [Hw Hz].
  cbn [x y z] in Hw, Hz. rewrite Hw, Hz.
  replace (- - d) with d by ring.
  split; [apply tan_half_fov, scroll_callback_fov |].
  split; [reflexivity |].
  split; [split; intros H; lra |].
  split; intros ->; lra.
Qed.

Lemma normalize_y_axis : normalize (mk_vec3 0 1 0) = mk_vec3 0 1 0.
Proof.
  unfold normalize, inversesqrt, dot, vec3_scale. cbn [x y z].
  replace (0 * 0 + 1 * 1 + 0 * 0) with 1 by ring. rewrite sqrt_1.
  f_equal; field.
Qed.

(** [glm::rotate] about the vertical axis. *)
Lemma rotate_y_axis (m : mat4) (angle : R) :
  rotate m angle (mk_vec3 0 1 0)
  = mk_mat4 (vec4_add (vec4_scale (col0 m) (cos angle))
                      (vec4_scale (col2 m) (- sin angle)))
            (col1 m)
            (vec4_add (vec4_scale (col0 m) (sin angle))
                      (vec4_scale (col2 m) (cos angle)))
            (col3 m).
Proof.
  destruct m as [[a0 a1 a2 a3] [b0 b1 b2 b3] [c0 c1 c2 c3] [d0 d1 d2 d3]].
  unfold rotate. rewrite normalize_y_axis.
  unfold vec4_add, vec4_scale, vec3_scale.
  cbn [x y z x4 y4 z4 w4 col0 col1 col2 col3].
  fields_ring.
Qed.

(** The model matrix before the rotation. *)
Lemma scale_translate (k wx wy : R) :
  translate (scale (mat4_diag 1) (mk_vec3 k k k)) (mk_vec3 wx wy 0)
  = mk_mat4 (mk_vec4 k 0 0 0) (mk_vec4 0 k 0 0) (mk_vec4 0 0 k 0)
            (mk_vec4 (k * wx) (k * wy) 0 1).
Proof.
  unfold translate, scale, mat4_diag, vec4_add, vec4_scale.
  cbn [x y z x4 y4 z4 w4 col0 col1 col2 col3].
  fields_ring.
Qed.

(** The model matrix of the loop body applied to a point. *)
Lemma model_m_apply (T : R) (p : vec3) :
  let a := T * radians 60 in
  world_position (model_m T) p
  = mk_vec4 (3 * (cos a * x p + sin a * z p) + 12 * cos (T * 2))
            (3 * y p)
            (3 * (cos a * z p - sin a * x p))
            1.
Proof.
  cbv zeta. unfold model_m, model_matrix.
  rewrite rotate_y_axis, scale_translate.
  destruct p as [p0 p1 p2].
  unfold world_position, mat4_mul_vec4, vec4_add, vec4_scale,
    walkRange, walkSpeed, walkAxis.
  cbn [x y z x4 y4 z4 w4 col0 col1 col2 col3].
  fields_ring.
Qed.

(** X10.  At every time the model matrix of the loop body is a rotation
    about the vertical axis, scaled by 3 and moved along the x axis: it
    multiplies heights by 3, multiplies the distance between any two
    points by 3, and puts the local origin at [12 * cos(2 * currentFrame)]
    on the x axis, so that the walk stays within 12 of the world origin. *)
Theorem model_matrix_scales_and_walks (currentFrame : R) (p q : vec3) :
  let wp := world_position (model_m currentFrame) p in
  let wq := world_position (model_m currentFrame) q in
  let wo := world_position (model_m currentFrame) origin in
  y4 wp = 3 * y p /\ w4 wp = 1 /\
  (x4 wp - x4 wq) * (x4 wp - x4 wq) + (y4 wp - y4 wq) * (y4 wp - y4 wq)
    + (z4 wp - z4 wq) * (z4 wp - z4 wq)
  = 3 * 3 * ((x p - x q) * (x p - x q) + (y p - y q) * (y p - y q)
             + (z p - z q) * (z p - z q)) /\
  wo = mk_vec4 (12 * cos (currentFrame * 2)) 0 0 1 /\
  -12 <= x4 wo <= 12.
Proof.
  cbv zeta.
  pose proof (model_m_apply currentFrame p) as Hp.
  pose proof (model_m_apply currentFrame q) as Hq.
  pose proof (model_m_apply currentFrame origin) as Ho.
  cbv zeta in Hp, Hq, Ho. rewrite Hp, Hq, Ho. clear Hp Hq Ho.
  unfold origin. cbn [x y z x4 y4 z4 w4].
  pose proof (sin2_cos2 (currentFrame * radians 60)) as Hsc. unfold Rsqr in Hsc.
  pose proof (COS_bound (currentFrame * 2)) as Hc.
  set (cs := cos (currentFrame * radians 60)) in *.
  set (sn := sin (currentFrame * radians 60)) in *.
  split; [reflexivity |]. split; [reflexivity |]. split; [| split].
  - destruct p as [p0 p1 p2], q as [q0 q1 q2]. cbn [x y z].
    replace (3 * (cs * p0 + sn * p2) + 12 * cos (currentFrame * 2)
             - (3 * (cs * q0 + sn * q2) + 12 * cos (currentFrame * 2)))
      with (3 * (cs * (p0 - q0) + sn * (p2 - q2))) by ring.
    replace (3 * (cs * p2 - sn * p0) - 3 * (cs * q2 - sn * q0))
      with (3 * (cs * (p2 - q2) - sn * (p0 - q0))) by ring.
    set (dx := p0 - q0). set (dz := p2 - q2).
    replace (3 * (cs * dx + sn * dz) * (3 * (cs * dx + sn * dz))
             + (3 * p1 - 3 * q1) * (3 * p1 - 3 * q1)
             + 3 * (cs * dz - sn * dx) * (3 * (cs * dz - sn * dx)))
      with (9 * ((sn * sn + cs * cs) * (dx * dx + dz * dz) + (p1 - q1) * (p1 - q1)))
      by ring.
    rewrite Hsc. ring.
  - f_equal; ring.
  - replace (3 * (cs * 0 + sn * 0) + 12 * cos (currentFrame * 2))
      with (12 * cos (currentFrame * 2)) by ring.
    lra.
Qed.

(** X11.  At every time each of the two lights is on a horizontal circle
    around the vertical axis, of radius 5 for light A and 6 for light B,
    at a height between 3 and 5 for A and between 3.1 and 3.7 for B; the
    two lights are never closer than 1 to each other. *)
Theorem lights_stay_on_their_circles (time : R) :
  let a := lightPosA time in
  let b := lightPosB time in
  x a * x a + z a * z a = 5 * 5 /\ 3 <= y a <= 5 /\
  x b * x b + z b * z b = 6 * 6 /\ 3.1 <= y b <= 3.7 /\
  1 <= dot (vec3_sub a b) (vec3_sub a b).
Proof.
  cbv zeta. unfold lightPosA, lightPosB, dot, vec3_sub. cbn [x y z].
  pose proof (sin2_cos2 (time * 0.6)) as Ha. unfold Rsqr in Ha.
  pose proof (sin2_cos2 (time * 0.4)) as Hb. unfold Rsqr in Hb.
  pose proof (SIN_bound (time * 0.7)) as Hya.
  pose proof (SIN_bound (time * 0.9)) as Hyb.
  set (ca := cos (time * 0.6)) in *. set (sa := sin (time * 0.6)) in *.
  set (cb := cos (time * 0.4)) in *. set (sb := sin (time * 0.4)) in *.
  set (ha := sin (time * 0.7)) in *. set (hb := sin (time * 0.9)) in *.
  split; [| split; [lra |]; split; [| split; [lra |]]].
  - replace (5 * ca * (5 * ca) + 5 * sa * (5 * sa)) with (25 * (sa * sa + ca * ca)) by ring.
    rewrite Ha. ring.
  - replace (-6 * cb * (-6 * cb) + -6 * sb * (-6 * sb)) with (36 * (sb * sb + cb * cb)) by ring.
    rewrite Hb. ring.
  - assert (Hsq : 0 <= (4 + ha - (3.4 + 0.3 * hb)) * (4 + ha - (3.4 + 0.3 * hb)))
      by apply Rle_0_sqr.
    assert (Hcs : 0 <= (ca + cb) * (ca + cb) + (sa + sb) * (sa + sb))
      by (apply Rplus_le_le_0_compat; apply Rle_0_sqr).
    nra.
Qed.

End SceneMotionFacts.

(* ===================================================================== *)
(** * Properties of the textures of startup and of the draw calls         *)
(* ===================================================================== *)

Section LoadFacts.
Import GL Render Stages Assets.
Local Open Scope N_scope.

Variable env : Env.

(** What one call of [loadTexture] does to the context. *)
Lemma loadTexture_effect (path : string) (srgb flip : bool) (g : Context) :
  let out := loadTexture env path srgb flip g in
  draws (snd out) = draws g /\
  uniform (snd out) = uniform g /\
  next_texture (snd out) = next_texture g + (if loaded env path then 1 else 0) /\
  (stbi_load env path = None -> out = (0, g)) /\
  (forall img : Image,
      stbi_load env path = Some img ->
      fst out = next_texture g /\
      texture_2d (snd out) (active_texture g) = next_texture g /\
      (forall t : GLuint, t <> next_texture g -> image (snd out) t = image g t) /\
      exists ti : TexImage,
        image (snd out) (next_texture g) = Some ti /\
        ti_width ti = img_w img /\ ti_height ti = img_h img /\
        ti_type ti = GL_UNSIGNED_BYTE /\
        ti_data ti = Some (img_data img) /\
        ti_format ti = (if (img_c img =? 4)%Z then GL_RGBA else GL_RGB) /\
        ti_internal ti =
          (if (img_c img =? 4)%Z
           then (if srgb then GL_SRGB8_ALPHA8 else GL_RGBA8)
           else (if srgb then GL_SRGB8 else GL_RGB8))).
Proof.
  cbv zeta. unfold loadTexture, loaded.
  destruct g as [nt nf img att db uni fb prog va act units ds].
  destruct (stbi_load env path) as [i |]; gl_simpl.
  - split_and!; try reflexivity; try discriminate.
    intros img' [= <-]. rewrite !fn_lookup_insert.
    split_and!; try reflexivity.
    + intros t Hne. now rewrite fn_lookup_insert_ne by congruence.
    + eexists. split; [reflexivity |]. cbn [ti_width ti_height ti_type ti_data
        ti_format ti_internal]. split_and!; reflexivity.
  - split_and!; try reflexivity; try discriminate; try lia.
Qed.

Lemma align4_bounds (n : Z) :
  (n <= align4 n < n + 4 /\ (align4 n = n <-> n mod 4 = 0))%Z.
Proof.
  unfold align4.
  pose proof (Z.div_mod (n + 3) 4 ltac:(lia)) as Hdiv.
  pose proof (Z.mod_pos_bound (n + 3) 4 ltac:(lia)) as Hrem.
  pose proof (Z.div_mod n 4 ltac:(lia)) as Hdiv'.
  pose proof (Z.mod_pos_bound n 4 ltac:(lia)) as Hrem'.
  split; [lia |]. split; intros H.
  - symmetry. apply (Z.mod_unique n 4 ((n + 3) / 4) 0); lia.
  - assert (Hq : ((n + 3) / 4 = n / 4)%Z)
      by (symmetry; apply (Z.div_unique (n + 3) 4 (n / 4) 3); lia).
    lia.
Qed.

(** When the upload of a decoded image stays inside its buffer, given the
    format [loadTexture] chooses for it. *)
Lemma client_bytes_decoded (ti : TexImage) (img : Image) :
  ti_width ti = img_w img -> ti_height ti = img_h img ->
  ti_type ti = GL_UNSIGNED_BYTE ->
  ti_format ti = (if (img_c img =? 4)%Z then GL_RGBA else GL_RGB) ->
  decoded img ->
  ((client_bytes ti <= Z.of_nat (List.length (img_data img)))%Z
   <-> (img_c img = 4 \/
        (img_c img = 3 /\ (img_h img = 1 \/ (3 * img_w img) mod 4 = 0)))%Z).
Proof.
  intros Hw Hh Hty Hf (Hw1 & Hh1 & Hc & Hlen).
  unfold client_bytes. rewrite Hw, Hh, Hty, Hf, Hlen.
  replace (img_w img <=? 0)%Z with false by (symmetry; apply Z.leb_gt; lia).
  replace (img_h img <=? 0)%Z with false by (symmetry; apply Z.leb_gt; lia).
  cbn [orb type_size].
  set (w := img_w img) in *. set (h := img_h img) in *. set (c := img_c img) in *.
  clearbody w h c.
  destruct (Z.eqb_spec c 4) as [Hc4 | Hne]; cbn [components].
  - destruct (align4_bounds (w * 4 * 1)) as [_ [_ Hal]].
    rewrite Hal by (rewrite Z.mul_1_r; apply Z.mod_mul; lia).
    split; [auto | intros _; rewrite Hc4; nia].
  - destruct (align4_bounds (w * 3 * 1)) as [[Hlo Hhi] Hal].
    replace (w * 3 * 1)%Z with (3 * w)%Z in * by lia.
    set (A := align4 (3 * w)) in *. clearbody A.
    split.
    + intros Hle. right.
      assert (Hrows : ((h - 1) * (3 * w) <= (h - 1) * A)%Z)
        by (apply Z.mul_le_mono_nonneg_l; lia).
      assert (Harea : (1 <= w * h)%Z) by nia.
      assert (Hc3 : c = 3%Z).
      { destruct (Z.eq_dec c 3%Z) as [E | E]; [exact E | exfalso].
        assert (Hsmall : (w * h * c <= w * h * 2)%Z)
          by (apply Z.mul_le_mono_nonneg_l; lia).
        nia. }
      split; [exact Hc3 |].
      destruct (Z.eq_dec h 1%Z) as [Hh1' | Hh2]; [now left | right].
      apply Hal. rewrite Hc3 in Hle. nia.
    + intros [Hc4 | (Hc3 & [Hh1' | Hmod])]; [contradiction | |].
      * rewrite Hc3, Hh1'. lia.
      * apply Hal in Hmod. rewrite Hc3, Hmod. nia.
Qed.

End LoadFacts.

Section StartupAssets.
Import GL Render Stages Assets.
Local Open Scope N_scope.

Variable env : Env.

Lemma loadTexture_holds_file (path : string) (g : Context) :
  holds_file env (snd (loadTexture env path false true g)) path
             (fst (loadTexture env path false true g)).
Proof.
  destruct (loadTexture_effect env path false true g) as (_ & _ & _ & _ & Hsome).
  intros img Himg.
  destruct (Hsome img Himg) as (-> & _ & _ & ti & Hti & Hw & Hh & Hty & Hd & Hf & Hi).
  exists ti. split_and!; try assumption. auto.
Qed.

(** The albedo load creates exactly one texture, loaded or white. *)
Lemma load_albedo_effect (g : Context) :
  Boot g ->
  let out := load_albedo env g in
  draws (snd out) = draws g /\
  uniform (snd out) = uniform g /\
  next_texture (snd out) = next_texture g + 1 /\
  fst out = next_texture g /\
  holds_file env (snd out) "resources/albedo.png" (fst out).
Proof.
  intros Hboot. cbv zeta. unfold load_albedo.
  destruct (loadTexture_effect env "resources/albedo.png" false true g)
    as (Hd & Hu & Hn & Hnone & Hsome).
  pose proof (loadTexture_holds_file "resources/albedo.png" g) as Hholds.
  unfold loaded in Hn. unfold holds_file in *.
  destruct (loadTexture env "resources/albedo.png" false true g) as [t g1].
  cbn [fst snd] in *.
  pose proof (bt_texture g Hboot) as Hge.
  destruct (stbi_load env "resources/albedo.png") as [img |].
  - destruct (Hsome img eq_refl) as (-> & _).
    destruct (N.eqb_spec (next_texture g) 0) as [H0 | _]; [lia |].
    cbn [fst snd]. split_and!; try assumption; try reflexivity.
  - specialize (Hnone eq_refl). injection Hnone as -> ->.
    cbn [N.eqb]. clear Hsome Hd Hu Hn Hholds.
    destruct g as [nt nf img att db uni fb prog va act units ds].
    gl_simpl. split_and!; try reflexivity. discriminate.
Qed.

Lemma BloomFBO_init_effect (w h : Z) (g : Context) :
  Boot g ->
  let out := BloomFBO_init w h g in
  draws (snd out) = draws g /\
  uniform (snd out) = uniform g /\
  next_texture (snd out) = next_texture g + 4 /\
  next_framebuffer (snd out) = next_framebuffer g + 3 /\
  width (fst out) = w /\ height (fst out) = h /\
  forall j : N, j < 4 -> image (snd out) (next_texture g + j) = Some (surface_image w h).
Proof.
  intros [Ht Hf Ha Hu Hb]. cbv zeta. unfold BloomFBO_init, surface_image.
  destruct g as [nt nf img att db uni fb prog va act units ds].
  cbn in Ht, Hf, Ha, Hu, Hb. subst act.
  gl_simpl. split_and!; try reflexivity; try lia.
  intros j Hj.
  assert (Hcase : j = 0 \/ j = 1 \/ j = 2 \/ j = 3) by lia.
  destruct Hcase as [-> | [-> | [-> | ->]]]; rewrite ?N.add_0_r.
  - fn_simpl. reflexivity.
  - fn_simpl. reflexivity.
  - fn_simpl. reflexivity.
  - replace (nt + 3) with (nt + 2 + 1) by lia. fn_simpl. reflexivity.
Qed.

(** The sampler uniforms of the PBR program after [bind_samplers]. *)
Lemma bind_samplers_pbr (g : Context) :
  Forall (fun s : string * Z =>
            uniform (bind_samplers env g) (pbrProg env) (fst s) = snd s)
         pbr_samplers.
Proof.
  unfold pbr_samplers, bind_samplers, glGetUniformLocation. simpl.
  repeat constructor; cbn [fst snd];
    rewrite ?uniform_set_ne by discriminate; apply uniform_set_eq.
Qed.

Lemma holds_file_keep (g g' : Context) (path : string) (t : GLuint) :
  image g' t = image g t -> holds_file env g path t -> holds_file env g' path t.
Proof. intros Heq H img Himg. rewrite Heq. now apply H. Qed.

Lemma holds_file_later (g g' : Context) (path : string) (t n : GLuint) :
  (stbi_load env path = None <-> t = 0) ->
  t = 0 \/ t < n ->
  (forall t' : GLuint, t' < n -> image g' t' = image g t') ->
  holds_file env g path t -> holds_file env g' path t.
Proof.
  intros Hzero Hrange Hkeep H img Himg.
  assert (Hne : t <> 0) by (intros Ht; apply Hzero in Ht; congruence).
  rewrite Hkeep by (destruct Hrange; [contradiction | assumption]).
  now apply H.
Qed.

(** What startup leaves besides the wiring: no draw call yet, three
    framebuffers, one texture for each surface, for the albedo map and for
    each other map that was loaded, and the images of all of them. *)
Lemma setup_assets :
  let r := resources env in
  let g := snd (setup env context_init) in
  draws g = [] /\
  next_framebuffer g = 4 /\
  next_texture g
  = 6 + N.of_nat (List.length (List.filter (fun slot => loaded env (fst slot)) fallback_slots)) /\
  Forall (fun s : GLuint => image g s = Some (surface_image SCR_W SCR_H)) (surfaces r) /\
  width (bloomFBO r) = SCR_W /\ height (bloomFBO r) = SCR_H /\
  Forall2 (holds_file env g) (map fst material_slots) (materials r) /\
  Forall (fun s : string * Z => uniform g (pbrProg env) (fst s) = snd s) pbr_samplers.
Proof.
  cbv zeta. unfold resources, setup.
  destruct (load_albedo_spec env context_init context_init_boot)
    as (B1 & _ & F1 & _ & _ & _ & _).
  destruct (load_albedo_effect context_init context_init_boot)
    as (D1 & _ & N1 & T1 & H1).
  destruct (load_albedo env context_init) as [ta g1]. cbn [fst snd] in *.
  destruct (loadTexture_spec env "resources/normal.png" false true g1 B1)
    as (B2 & L2 & F2 & R2 & Z2 & I2).
  destruct (loadTexture_effect env "resources/normal.png" false true g1)
    as (D2 & _ & N2 & _ & _).
  pose proof (loadTexture_holds_file "resources/normal.png" g1) as H2.
  destruct (loadTexture env "resources/normal.png" false true g1) as [tn g2].
  cbn [fst snd] in *.
  destruct (loadTexture_spec env "resources/metallic.png" false true g2 B2)
    as (B3 & L3 & F3 & R3 & Z3 & I3).
  destruct (loadTexture_effect env "resources/metallic.png" false true g2)
    as (D3 & _ & N3 & _ & _).
  pose proof (loadTexture_holds_file "resources/metallic.png" g2) as H3.
  destruct (loadTexture env "resources/metallic.png" false true g2) as [tm g3].
  cbn [fst snd] in *.
  destruct (loadTexture_spec env "resources/roughness.png" false true g3 B3)
    as (B4 & L4 & F4 & R4 & Z4 & I4).
  destruct (loadTexture_effect env "resources/roughness.png" false true g3)
    as (D4 & _ & N4 & _ & _).
  pose proof (loadTexture_holds_file "resources/roughness.png" g3) as H4.
  destruct (loadTexture env "resources/roughness.png" false true g3) as [tr g4].
  cbn [fst snd] in *.
  destruct (loadTexture_spec env "resources/ao.png" false true g4 B4)
    as (B5 & L5 & F5 & R5 & Z5 & I5).
  destruct (loadTexture_effect env "resources/ao.png" false true g4)
    as (D5 & _ & N5 & _ & _).
  pose proof (loadTexture_holds_file "resources/ao.png" g4) as H5.
  destruct (loadTexture env "resources/ao.png" false true g4) as [to g5].
  cbn [fst snd] in *.
  destruct (BloomFBO_init_spec SCR_W SCR_H g5 B5)
    as (_ & Ecb & _ & Epc & _ & _ & _ & _ & I6).
  destruct (BloomFBO_init_effect SCR_W SCR_H g5 B5)
    as (D6 & _ & N6 & F6 & Ew & Eh & S6).
  destruct (BloomFBO_init SCR_W SCR_H g5) as [b g6]. cbn [fst snd] in *.
  destruct (bind_samplers_spec env g6) as (Hs & _ & D7 & _).
  pose proof (bind_samplers_pbr g6) as Hpbr.
  set (g7 := bind_samplers env g6) in *. clearbody g7.
  assert (Himage : image g7 = image g6) by (unfold static in Hs; congruence).
  assert (Hnt : next_texture g7 = next_texture g6) by (unfold static in Hs; congruence).
  assert (Hnf : next_framebuffer g7 = next_framebuffer g6)
    by (unfold static in Hs; congruence).
  change (next_texture context_init) with 1 in *.
  change (next_framebuffer context_init) with 1 in *.
  change (draws context_init) with (@nil Draw) in *.
  cbn [bloomFBO texAlbedo texNormal texMetallic texRoughness texAO].
  split_and!.
  - congruence.
  - lia.
  - rewrite Hnt, N6, N5, N4, N3, N2, N1.
    unfold fallback_slots. cbn [List.filter fst].
    destruct (loaded env "resources/normal.png"),
             (loaded env "resources/metallic.png"),
             (loaded env "resources/roughness.png"),
             (loaded env "resources/ao.png"); cbn; lia.
  - unfold surfaces. cbn [bloomFBO]. rewrite Ecb, Epc, Himage. cbn [at_index nth].
    pose proof (S6 0 ltac:(lia)) as S0. rewrite N.add_0_r in S0.
    repeat constructor; [exact S0 | apply S6; lia ..].
  - exact Ew.
  - exact Eh.
  - unfold material_slots, fallback_slots, materials.
    cbn [map fst texAlbedo texNormal texMetallic texRoughness texAO].
    assert (K5 : forall t : GLuint, t < next_texture g5 -> image g7 t = image g5 t)
      by (intros t Ht; rewrite Himage; now apply I6).
    assert (K4 : forall t : GLuint, t < next_texture g4 -> image g7 t = image g4 t)
      by (intros t Ht; rewrite K5, I5 by lia; reflexivity).
    assert (K3 : forall t : GLuint, t < next_texture g3 -> image g7 t = image g3 t)
      by (intros t Ht; rewrite K4, I4 by lia; reflexivity).
    assert (K2 : forall t : GLuint, t < next_texture g2 -> image g7 t = image g2 t)
      by (intros t Ht; rewrite K3, I3 by lia; reflexivity).
    assert (K1 : forall t : GLuint, t < next_texture g1 -> image g7 t = image g1 t)
      by (intros t Ht; rewrite K2, I2 by lia; reflexivity).
    repeat constructor.
    + apply (holds_file_keep g1); [apply K1; lia | exact H1].
    + exact (holds_file_later g2 g7 _ tn _ Z2 R2 K2 H2).
    + exact (holds_file_later g3 g7 _ tm _ Z3 R3 K3 H3).
    + exact (holds_file_later g4 g7 _ tr _ Z4 R4 K4 H4).
    + exact (holds_file_later g5 g7 _ to _ Z5 R5 K5 H5).
  - exact Hpbr.
Qed.

End StartupAssets.

Section RoundFacts.
Import GL Render Stages Assets.
Local Open Scope N_scope.

Variable env : Env.

Lemma frame_uniform_keep (r : Resources) (passes : Z) (g : Context)
    (p : GLuint) (name : string) :
  name <> "horizontal"%string ->
  uniform (frame env r passes g) p name = uniform g p name.
Proof.
  intros Hname. rewrite frame_unfold.
  set (g1 := geometry_pass env r g). set (g2 := bright_pass env r g1).
  set (out := blur_pass env r passes g2).
  destruct (geometry_pass_spec env r g) as (_ & U1 & _).
  destruct (bright_pass_spec env r g1) as (_ & U2 & _).
  destruct (blur_pass_spec env r passes g2) as (_ & _ & _ & _ & U3 & _).
  destruct (composite_pass_spec env r (fst out) (snd out)) as (_ & U4 & _).
  fold g1 in U1. fold g2 in U2. fold out in U3.
  rewrite U4, U3 by exact Hname. now rewrite U2, U1.
Qed.

Lemma main_loop_uniform (passes : Z) (k : nat) (p : GLuint) (name : string) :
  name <> "horizontal"%string ->
  uniform (main_loop env passes k) p name
  = uniform (snd (setup env context_init)) p name.
Proof.
  intros Hname. unfold main_loop.
  induction k as [| k IH]; [reflexivity |].
  cbn [frames]. now rewrite frame_uniform_keep.
Qed.

Lemma geometry_draws_eq (passes : Z) (k : nat) :
  let r := resources env in
  let g := main_loop env passes k in
  geometry_draws env passes k =
  (if vao (mesh env) =? 0 then []
   else [ mk_Draw (DrawElements (count (mesh env))) (hdrFBO (bloomFBO r))
                  (pbrProg env) (vao (mesh env))
                  (geometry_units r (texture_2d g)) (uniform g (pbrProg env)) ]).
Proof.
  cbv zeta. unfold geometry_draws.
  destruct (geometry_pass_spec env (resources env) (main_loop env passes k))
    as (_ & _ & _ & H).
  exact (issued_app _ _ _ H).
Qed.

Lemma round_length (passes : Z) (k : nat) :
  List.length (geometry_draws env passes k ++ bright_draws env passes k
               ++ blur_draws env passes k ++ composite_draws env passes k)
  = draws_per_round env passes.
Proof.
  pose proof (geometry_draws_eq passes k) as Hg. cbv zeta in Hg.
  rewrite !length_app, Hg. clear Hg.
  unfold bright_draws, blur_draws, composite_draws, after_blur, after_bright,
    after_geometry, draws_per_round.
  set (r := resources env). set (g := main_loop env passes k).
  pose proof (main_loop_wired env passes k) as W. fold r g in W.
  destruct (bright_draw_facts env r g W) as (db & -> & _).
  destruct (composite_draw_facts env r passes g W) as (dc & -> & _).
  destruct (blur_draws_spec env r passes g) as [-> _].
  destruct (vao (mesh env) =? 0); cbn [List.length]; lia.
Qed.

End RoundFacts.

Section AssetTheorems.
Import GL Render Stages Assets.
Local Open Scope N_scope.

(** X12.  [loadTexture] returns 0 exactly when the image cannot be loaded,
    and then leaves the context as it was (no texture is created).
    Otherwise it returns a new name, leaves that texture bound on the
    active unit, leaves the images of all other textures as they were, and
    defines the new texture with the size of the decoded image, as
    unsigned bytes in the format [GL_RGBA] for four channels and [GL_RGB]
    for any other channel count; without [srgb] the internal format is
    [GL_RGBA8] or [GL_RGB8].  For an image as [stbi_load] returns it, the
    upload stays inside the decoded buffer exactly when the image has four
    channels, or three channels and either a single row or rows of a
    multiple of 4 bytes: an image of one or two channels, or of three
    channels with unaligned rows, is read past its buffer.  When the
    upload stays inside, the texture has the decoded bytes. *)
Theorem loadTexture_zero_only_on_failure
    (env : Env) (path : string) (srgb flip : bool) (g : Context) :
  next_texture g <> 0 ->
  let out := loadTexture env path srgb flip g in
  (fst out = 0 <-> stbi_load env path = None) /\
  (stbi_load env path = None -> snd out = g) /\
  (forall img : Image,
      stbi_load env path = Some img ->
      fst out = next_texture g /\
      texture_2d (snd out) (active_texture g) = fst out /\
      (forall t : GLuint, t <> fst out -> image (snd out) t = image g t) /\
      exists ti : TexImage,
        image (snd out) (fst out) = Some ti /\
        ti_width ti = img_w img /\ ti_height ti = img_h img /\
        ti_type ti = GL_UNSIGNED_BYTE /\
        (ti_format ti = GL_RGBA <-> img_c img = 4%Z) /\
        (img_c img <> 4%Z -> ti_format ti = GL_RGB) /\
        (srgb = false -> ti_internal ti = GL_RGBA8 \/ ti_internal ti = GL_RGB8) /\
        (decoded img ->
         ((client_bytes ti <= Z.of_nat (List.length (img_data img)))%Z
          <-> (img_c img = 4 \/
               (img_c img = 3 /\ (img_h img = 1 \/ (3 * img_w img) mod 4 = 0)))%Z) /\
         ((client_bytes ti <= Z.of_nat (List.length (img_data img)))%Z ->
          ti_data ti = Some (img_data img)))).
Proof.
  intros Hnext. cbv zeta.
  destruct (loadTexture_effect env path srgb flip g) as (_ & _ & _ & Hnone & Hsome).
  set (out := loadTexture env path srgb flip g) in *. clearbody out.
  destruct (stbi_load env path) as [img |].
  - destruct (Hsome img eq_refl)
      as (Hfst & Hunit & Hkeep & ti & Hti & Hw & Hh & Hty & Hd & Hf & Hi).
    split_and!.
    + split; [intros H0; congruence | discriminate].
    + discriminate.
    + intros img' [= <-]. rewrite Hfst.
      split_and!; try assumption; try reflexivity.
      exists ti. split_and!; try assumption.
      * rewrite Hf. destruct (Z.eqb_spec (img_c img) 4); split; congruence.
      * rewrite Hf. intros Hc. destruct (Z.eqb_spec (img_c img) 4); congruence.
      * intros ->. rewrite Hi. destruct (img_c img =? 4)%Z; auto.
      * intros Hdec. split; [| intros _; exact Hd].
        now apply (client_bytes_decoded ti img).
  - specialize (Hnone eq_refl). subst out. cbn [fst snd].
    split_and!; try reflexivity; try discriminate. tauto.
Qed.

Lemma loadTexture_zero_only_on_failure_witness :
  let env := mk_Env (fun path => if String.eqb path "resources/ao.png"
                                 then Some (mk_Image 1 1 4 [10; 200; 30; 255]%Z) else None)
                    1 2 3 4 (mk_Mesh 1 1 1 36) 2 in
  let g := context_init in
  let out := loadTexture env "resources/ao.png" false true g in
  (fst out = 0 <-> stbi_load env "resources/ao.png" = None) /\
  (stbi_load env "resources/ao.png" = None -> snd out = g) /\
  (forall img : Image,
      stbi_load env "resources/ao.png" = Some img ->
      fst out = next_texture g /\
      texture_2d (snd out) (active_texture g) = fst out /\
      (forall t : GLuint, t <> fst out -> image (snd out) t = image g t) /\
      exists ti : TexImage,
        image (snd out) (fst out) = Some ti /\
        ti_width ti = img_w img /\ ti_height ti = img_h img /\
        ti_type ti = GL_UNSIGNED_BYTE /\
        (ti_format ti = GL_RGBA <-> img_c img = 4%Z) /\
        (img_c img <> 4%Z -> ti_format ti = GL_RGB) /\
        (false = false -> ti_internal ti = GL_RGBA8 \/ ti_internal ti = GL_RGB8) /\
        (decoded img ->
         ((client_bytes ti <= Z.of_nat (List.length (img_data img)))%Z
          <-> (img_c img = 4 \/
               (img_c img = 3 /\ (img_h img = 1 \/ (3 * img_w img) mod 4 = 0)))%Z) /\
         ((client_bytes ti <= Z.of_nat (List.length (img_data img)))%Z ->
          ti_data ti = Some (img_data img)))).
Proof.
  apply (loadTexture_zero_only_on_failure
           (mk_Env (fun path => if String.eqb path "resources/ao.png"
                                then Some (mk_Image 1 1 4 [10; 200; 30; 255]%Z) else None)
                   1 2 3 4 (mk_Mesh 1 1 1 36) 2)
           "resources/ao.png" false true context_init).
  discriminate.
Defined.

(** X13.  In every round of the loop, for any outcome of the image loads:
    each of the four bloom surfaces is a half-float RGBA texture of the
    size of the window, 2560 x 1440, created without data; [bloomFBO]
    recorded that size; and each material map whose file could be loaded
    has a texture of the size of the decoded image with internal format
    [GL_RGB8] or, for four channels, [GL_RGBA8]: no map, the albedo map
    included, is given an sRGB format.  The texture holds the decoded
    bytes when the image is as [stbi_load] returns it and its upload stays
    inside the decoded buffer. *)
Theorem startup_texture_images (env : Env) (passes : Z) (k : nat) :
  let r := resources env in
  let g := main_loop env passes k in
  Forall (fun s : GLuint =>
            image g s = Some (mk_TexImage GL_RGBA16F 2560 1440 GL_RGBA GL_FLOAT None))
         (surfaces r) /\
  width (bloomFBO r) = 2560%Z /\ height (bloomFBO r) = 1440%Z /\
  Forall2 (fun (path : string) (t : GLuint) =>
             forall img : Image,
               stbi_load env path = Some img ->
               exists ti : TexImage,
                 image g t = Some ti /\
                 ti_width ti = img_w img /\ ti_height ti = img_h img /\
                 ti_type ti = GL_UNSIGNED_BYTE /\
                 ti_format ti = (if (img_c img =? 4)%Z then GL_RGBA else GL_RGB) /\
                 ti_internal ti = (if (img_c img =? 4)%Z then GL_RGBA8 else GL_RGB8) /\
                 (decoded img ->
                  (client_bytes ti <= Z.of_nat (List.length (img_data img)))%Z ->
                  ti_data ti = Some (img_data img)))
          [ "resources/albedo.png"; "resources/normal.png"; "resources/metallic.png";
            "resources/roughness.png"; "resources/ao.png" ]%string
          (materials r).
Proof.
  cbv zeta.
  destruct (setup_assets env) as (_ & _ & _ & Hs & Hw & Hh & Hm & _).
  pose proof (main_loop_static env passes k) as Hst.
  assert (Himg : image (main_loop env passes k) = image (snd (setup env context_init)))
    by (unfold static in Hst; congruence).
  rewrite Himg. split_and!; assumption.
Qed.

(** X14.  The render loop creates nothing: after any number of rounds the
    name counters, the texture images, the framebuffer attachments and the
    draw buffers are what startup left.  The program has three
    framebuffers and, besides the four surfaces and the albedo texture,
    one texture for each of the four other maps whose file could be
    loaded: between five and nine textures in all. *)
Theorem render_loop_creates_no_objects (env : Env) (passes : Z) (k : nat) :
  let g := main_loop env passes k in
  let g0 := main_loop env passes 0 in
  let optional := List.filter (fun slot => loaded env (fst slot)) fallback_slots in
  image g = image g0 /\
  color_attachment g = color_attachment g0 /\
  draw_buffers g = draw_buffers g0 /\
  next_framebuffer g = 4 /\
  next_texture g = 6 + N.of_nat (List.length optional) /\
  6 <= next_texture g <= 10.
Proof.
  cbv zeta.
  destruct (setup_assets env) as (_ & Hnf & Hnt & _).
  pose proof (main_loop_static env passes k) as Hst.
  change (main_loop env passes 0) with (snd (setup env context_init)).
  set (g := main_loop env passes k) in *. set (g0 := snd (setup env context_init)) in *.
  clearbody g g0. unfold static in Hst.
  injection Hst as -> -> -> -> ->.
  split_and!; try reflexivity; try assumption.
  - lia.
  - rewrite Hnt.
    pose proof (filter_length_le (fun slot => loaded env (fst slot)) fallback_slots) as Hle.
    replace (List.length fallback_slots) with 4%nat in Hle by reflexivity. lia.
Qed.

(** X15.  In every round of the loop the geometry pass issues no draw call
    when the mesh has no vertex array (the model failed to load), and
    otherwise exactly one: [glDrawElements] with the index count of the
    mesh, on its vertex array, with the PBR program, into the HDR
    framebuffer, which writes both colour buffers.  Its five samplers read
    the albedo texture and, for each other map, that map or the albedo
    texture when it is missing; each of them reads a texture that exists
    and that the draw call does not write. *)
Theorem geometry_draw_samples_materials (env : Env) (passes : Z) (k : nat) :
  let r := resources env in
  let g := main_loop env passes k in
  (vao (mesh env) = 0 -> geometry_draws env passes k = []) /\
  (vao (mesh env) <> 0 ->
   exists d : Draw,
     geometry_draws env passes k = [d] /\
     d_command d = DrawElements (count (mesh env)) /\
     d_vertex_array d = vao (mesh env) /\
     d_program d = pbrProg env /\
     render_targets g (d_framebuffer d)
     = [ at_index (colorBuffers (bloomFBO r)) 0; at_index (colorBuffers (bloomFBO r)) 1 ] /\
     sampled d "albedoMap" = texAlbedo r /\
     sampled d "normalMap" = or_else (texNormal r) (texAlbedo r) /\
     sampled d "metallicMap" = or_else (texMetallic r) (texAlbedo r) /\
     sampled d "roughnessMap" = or_else (texRoughness r) (texAlbedo r) /\
     sampled d "aoMap" = or_else (texAO r) (texAlbedo r) /\
     Forall (fun sampler : string =>
               sampled d sampler <> 0 /\
               ~ In (sampled d sampler) (render_targets g (d_framebuffer d)))
            (map fst pbr_samplers)).
Proof.
  cbv zeta.
  pose proof (geometry_draws_eq env passes k) as Hg. cbv zeta in Hg.
  pose proof (main_loop_wired env passes k) as W.
  destruct (setup_assets env) as (_ & _ & _ & _ & _ & _ & _ & Hpbr).
  assert (Hu : Forall (fun s : string * Z =>
                         uniform (main_loop env passes k) (pbrProg env) (fst s) = snd s)
                      pbr_samplers).
  { unfold pbr_samplers in *. rewrite !List.Forall_cons_iff in Hpbr.
    cbn [fst snd] in Hpbr. destruct Hpbr as (P0 & P1 & P2 & P3 & P4 & _).
    repeat constructor; cbn [fst snd];
      rewrite main_loop_uniform by discriminate; assumption. }
  split.
  - intros H0. rewrite Hg, H0. reflexivity.
  - intros Hne. apply N.eqb_neq in Hne. rewrite Hne in Hg.
    eexists. split; [exact Hg |].
    set (r := resources env) in *. set (g := main_loop env passes k) in *.
    clearbody r g.
    unfold pbr_samplers in Hu. rewrite !List.Forall_cons_iff in Hu.
    cbn [fst snd] in Hu. destruct Hu as (U0 & U1 & U2 & U3 & U4 & _).
    unfold sampled. cbn [d_command d_vertex_array d_program d_framebuffer d_units d_uniform].
    rewrite U0, U1, U2, U3, U4, (w_hdr env r g W).
    assert (E0 : geometry_units r (texture_2d g) (Z.to_N 0) = texAlbedo r)
      by (unfold geometry_units; cbn [Z.to_N]; now fn_simpl).
    assert (E1 : geometry_units r (texture_2d g) (Z.to_N 1)
                 = or_else (texNormal r) (texAlbedo r))
      by (unfold geometry_units; cbn [Z.to_N]; now fn_simpl).
    assert (E2 : geometry_units r (texture_2d g) (Z.to_N 2)
                 = or_else (texMetallic r) (texAlbedo r))
      by (unfold geometry_units; cbn [Z.to_N]; now fn_simpl).
    assert (E3 : geometry_units r (texture_2d g) (Z.to_N 3)
                 = or_else (texRoughness r) (texAlbedo r))
      by (unfold geometry_units; cbn [Z.to_N]; now fn_simpl).
    assert (E4 : geometry_units r (texture_2d g) (Z.to_N 4)
                 = or_else (texAO r) (texAlbedo r))
      by (unfold geometry_units; cbn [Z.to_N]; now fn_simpl).
    rewrite E0, E1, E2, E3, E4.
    split_and!; try reflexivity.
    assert (Hmat : forall t : GLuint,
               In t (materials r) ->
               or_else t (texAlbedo r) <> 0 /\
               ~ In (or_else t (texAlbedo r))
                    [ at_index (colorBuffers (bloomFBO r)) 0;
                      at_index (colorBuffers (bloomFBO r)) 1 ]).
    { intros t Ht. pose proof (w_albedo env r g W) as Ha.
      split.
      - unfold or_else. destruct (N.eqb_spec t 0); assumption.
      - intros Hin.
        apply (w_materials env r g W (or_else t (texAlbedo r))).
        + right. unfold or_else. destruct (t =? 0); [| exact Ht].
          unfold materials. now left.
        + unfold surfaces. cbn [In] in *. tauto. }
    assert (Halb : or_else (texAlbedo r) (texAlbedo r) = texAlbedo r)
      by (unfold or_else; now destruct (texAlbedo r =? 0)).
    unfold pbr_samplers. cbn [map fst].
    repeat constructor; rewrite ?U0, ?U1, ?U2, ?U3, ?U4, ?E0, ?E1, ?E2, ?E3, ?E4;
      try (rewrite <- Halb; apply Hmat; unfold materials; cbn [In]; tauto);
      apply Hmat; unfold materials; cbn [In]; tauto.
Qed.

(** X16.  The number of draw calls is the same in every round of the loop
    and does not depend on the image files: one for the mesh when it has a
    vertex array, one for the bright pass, one for each blur pass, and one
    for the composite.  Startup issues none, so after [k] rounds the
    context has seen [k] times that many. *)
Theorem draw_calls_per_round (env : Env) (passes : Z) (k : nat) :
  let per_round :=
    ((if (vao (mesh env) =? 0)%N then 0 else 1) + 1 + Z.to_nat passes + 1)%nat in
  List.length (draws (main_loop env passes k)) = (k * per_round)%nat /\
  draws (main_loop env passes (S k))
  = draws (main_loop env passes k)
    ++ geometry_draws env passes k ++ bright_draws env passes k
    ++ blur_draws env passes k ++ composite_draws env passes k.
Proof.
  cbv zeta. split; [| apply main_loop_draws].
  fold (draws_per_round env passes).
  induction k as [| k IH].
  - destruct (setup_assets env) as (Hd & _).
    change (main_loop env passes 0) with (snd (setup env context_init)).
    now rewrite Hd.
  - rewrite main_loop_draws, length_app, round_length, IH. lia.
Qed.

(** X17.  For any number of blur passes, in every round of the loop the
    composite pass issues one draw call, into the window, which writes no
    texture; its [scene] sampler reads colour buffer 0 and its [bloomBlur]
    sampler reads ping-pong surface 1 when the number of passes is odd and
    surface 0 when it is even.  When the blur does not run at all (a count
    of zero or less) that is the surface the bright pass wrote, unblurred. *)
Theorem composite_source_follows_parity (env : Env) (passes : Z) (k : nat) :
  let r := resources env in
  let g := main_loop env passes k in
  exists d : Draw,
    composite_draws env passes k = [d] /\
    d_framebuffer d = 0 /\
    render_targets g (d_framebuffer d) = [] /\
    sampled d "scene" = at_index (colorBuffers (bloomFBO r)) 0 /\
    sampled d "bloomBlur"
    = at_index (pingpongColorbuffers (bloomFBO r))
               (if Z.odd (Z.max passes 0) then 1 else 0)%nat /\
    ((passes <= 0)%Z ->
     blur_draws env passes k = [] /\
     Forall (fun b : Draw => render_targets g (d_framebuffer b) = [sampled d "bloomBlur"])
            (bright_draws env passes k)).
Proof.
  cbv zeta.
  unfold bright_draws, blur_draws, composite_draws, after_blur, after_bright,
    after_geometry.
  set (r := resources env). set (g := main_loop env passes k).
  pose proof (main_loop_wired env passes k) as W. fold r g in W.
  destruct (composite_draw_facts env r passes g W) as (dc & Hc & Hfb & Hscene & Hs & Hu).
  destruct (bright_draw_facts env r g W) as (db & Hb & Ht & _).
  destruct (blur_draws_spec env r passes g) as [Hlen _].
  exists dc. rewrite Hc, Hb, Hfb, Hscene, Hs, Hu.
  assert (Hpar : Nat.b2n (negb (flag_after true (Z.to_nat passes)))
                 = (if Z.odd (Z.max passes 0) then 1 else 0)%nat).
  { unfold flag_after.
    replace (Z.odd (Z.max passes 0)) with (Nat.odd (Z.to_nat passes)).
    - rewrite <- Nat.negb_even. now destruct (Nat.even (Z.to_nat passes)).
    - destruct (Z.le_gt_cases passes 0) as [Hle | Hgt].
      + rewrite Z.max_r by lia. replace (Z.to_nat passes) with 0%nat by lia. reflexivity.
      + rewrite Z.max_l by lia.
        rewrite <- (Z2Nat.id passes) at 2 by lia.
        generalize (Z.to_nat passes). intros n.
        rewrite <- Nat.negb_even, <- Z.negb_even. f_equal.
        induction n as [| n IHn]; [reflexivity |].
        rewrite Nat.even_succ, <- Nat.negb_even, IHn, Nat2Z.inj_succ, Z.even_succ,
          <- Z.negb_even. reflexivity. }
  rewrite Hpar.
  split_and!; try reflexivity.
  intros Hle.
  assert (H0 : Z.to_nat passes = 0%nat) by lia.
  rewrite H0 in Hlen. apply length_zero_iff_nil in Hlen. rewrite Hlen.
  split; [reflexivity |].
  constructor; [| constructor].
  rewrite Ht, Z.max_r by lia. reflexivity.
Qed.

End AssetTheorems.

(* ===================================================================== *)
(** * Properties of the file helpers                                      *)
(* ===================================================================== *)

Section FileFacts.
Import Files.

(** X18.  [loadShaderText] returns the content of the file
    [shaders/<name>], or the empty string when the file cannot be opened,
    and only appends to the error stream: two lines when the file cannot
    be opened (one from [readFile], one from itself), one line when the
    file is empty, none otherwise.  So it writes something exactly when
    it returns the empty string, and the caller cannot tell a missing
    file from an empty one. *)
Theorem loadShaderText_warns_iff_empty
    (fs : string -> option string) (name : string) (cerr : list string) :
  let path := String.append "shaders/" name in
  let out := loadShaderText fs name cerr in
  fst out = match fs path with Some content => content | None => EmptyString end /\
  exists lines : list string,
    snd out = cerr ++ lines /\
    List.length lines
    = match fs path with
      | None => 2%nat
      | Some EmptyString => 1%nat
      | Some (String _ _) => 0%nat
      end /\
    (lines <> [] <-> fst out = EmptyString).
Proof.
  cbv zeta. unfold loadShaderText, readFile.
  destruct (fs (String.append "shaders/" name)) as [[| c content] |]; cbn [empty fst snd].
  - split; [reflexivity |]. eexists. split; [reflexivity |].
    split; [reflexivity |]. split; [reflexivity | discriminate].
  - split; [reflexivity |]. exists []. rewrite app_nil_r.
    split; [reflexivity |]. split; [reflexivity |]. split; [congruence | discriminate].
  - split; [reflexivity |]. eexists. rewrite <- app_assoc.
    split; [reflexivity |]. split; [reflexivity |]. split; [reflexivity | discriminate].
Qed.

(** The prefix of a string up to its last separator. *)
Lemma last_index_of_split (chars s : string) :
  match last_index_of s chars with
  | Some i =>
      exists (pre rest : string) (c : Ascii.ascii),
        String.substring 0 (S i) s = String.append pre (String c EmptyString) /\
        one_of chars c = true /\
        s = String.append (String.substring 0 (S i) s) rest /\
        last_index_of rest chars = None /\
        (i < String.length s)%nat
  | None => String.substring 0 0 s = EmptyString
  end.
Proof.
  induction s as [| c s IH]; [reflexivity |].
  cbn [last_index_of]. destruct (last_index_of s chars) as [i |] eqn:Hi.
  - destruct IH as (pre & rest & c' & Hpre & Hc' & Hs & Hrest & Hlt).
    exists (String c pre), rest, c'.
    change (String.substring 0 (S (S i)) (String c s))
      with (String c (String.substring 0 (S i) s)).
    cbn [String.append String.length].
    split_and!; try assumption; try lia.
    + rewrite Hpre. reflexivity.
    + rewrite Hs at 1. reflexivity.
  - destruct (one_of chars c) eqn:Hc.
    + exists EmptyString, s, c.
      change (String.substring 0 1 (String c s))
        with (String c (String.substring 0 0 s)).
      rewrite IH. cbn [String.append String.length].
      split_and!; try assumption; try reflexivity; lia.
    + reflexivity.
Qed.

(** X19.  For a path shorter than [npos], the directory that
    [loadObjToMesh] passes to the parser is the part of the path up to
    and including its last slash or backslash: the path is that prefix
    followed by a file name without separators.  For a path without any
    separator the prefix is empty, because [npos + 1] wraps around to 0. *)
Theorem base_dir_ends_at_last_separator (path : string) :
  (Z.of_nat (String.length path) <= npos)%Z ->
  exists file : string,
    path = String.append (base_dir path) file /\
    last_index_of file separators = None /\
    (last_index_of path separators = None -> base_dir path = EmptyString) /\
    (last_index_of path separators <> None ->
     exists (pre : string) (c : Ascii.ascii),
       base_dir path = String.append pre (String c EmptyString) /\
       one_of separators c = true).
Proof.
  intros Hlen. unfold base_dir, find_last_of, substr0.
  pose proof (last_index_of_split separators path) as H.
  destruct (last_index_of path separators) as [i |] eqn:Hi.
  - destruct H as (pre & rest & c & Hpre & Hc & Hs & Hrest & Hlt).
    unfold npos in Hlen.
    rewrite Z.mod_small by lia.
    replace (Z.to_nat (Z.of_nat i + 1)) with (S i) by lia.
    exists rest. split_and!; try assumption; try discriminate.
    intros _. exists pre, c. auto.
  - replace ((npos + 1) mod 2 ^ 64)%Z with 0%Z by reflexivity.
    change (Z.to_nat 0) with 0%nat. rewrite H. exists path.
    split_and!; try reflexivity; try assumption. congruence.
Qed.

Lemma base_dir_ends_at_last_separator_witness :
  exists file : string,
    "resources/model.obj"%string
    = String.append (base_dir "resources/model.obj") file /\
    last_index_of file separators = None /\
    (last_index_of "resources/model.obj" separators = None ->
     base_dir "resources/model.obj" = EmptyString) /\
    (last_index_of "resources/model.obj" separators <> None ->
     exists (pre : string) (c : Ascii.ascii),
       base_dir "resources/model.obj" = String.append pre (String c EmptyString) /\
       one_of separators c = true).
Proof.
  apply (base_dir_ends_at_last_separator "resources/model.obj").
  vm_compute. discriminate.
Defined.

End FileFacts.

(* ===================================================================== *)
(** * Properties of the vertex data                                       *)
(* ===================================================================== *)

Ltac vertex_simpl :=
  cbv [Model.vrun fold_left Model.glGenVertexArray Model.glGenBuffer
       Model.glBindVertexArray Model.glBindBuffer Model.glBufferData
       Model.glEnableVertexAttribArray Model.glVertexAttribPointer
       Model.bound_buffer fst snd
       Model.next_vertex_array Model.next_buffer Model.vertex_array_binding
       Model.array_buffer_binding Model.element_array_buffer Model.buffer_store
       Model.attrib_enabled Model.attrib_pointer].

Section BuildFacts.
Import Motion Files Model.
Local Open Scope Z_scope.

Variable attrib : attrib_t.

(** The eight floats of a face index. *)
Let vertex_of (f : index_t) : list R :=
  position_of attrib f ++ normal_of attrib f ++ texcoord_of attrib f.

Lemma int_of_small (v : Z) : INT_MIN <= v <= INT_MAX -> int_of v = Some v.
Proof.
  intros [Hlo Hhi]. unfold int_of.
  apply Z.leb_le in Hlo. apply Z.leb_le in Hhi. now rewrite Hlo, Hhi.
Qed.

Lemma array_load_out {A : Type} (a : list A) (i : Z) :
  i < 0 \/ Z.of_nat (List.length a) <= i -> array_load a i = None.
Proof.
  intros Hout. unfold array_load.
  destruct (0 <=? i) eqn:Hlo; [| reflexivity].
  destruct (i <? Z.of_nat (List.length a)) eqn:Hhi; [| reflexivity].
  apply Z.leb_le in Hlo. apply Z.ltb_lt in Hhi. lia.
Qed.

Lemma element_at_in (v : list R) (k i d : Z) :
  Z.of_nat (List.length v) <= INT_MAX ->
  0 <= k * i -> 0 <= d -> k * i + d < Z.of_nat (List.length v) ->
  element_at v k i d = Some (float_at v (k * i + d)).
Proof.
  intros Hsize Hki Hd Hlt. unfold element_at, float_at.
  unfold INT_MAX in Hsize.
  rewrite (int_of_small (k * i)) by (unfold INT_MIN, INT_MAX; lia).
  cbn [mbind option_bind].
  rewrite (int_of_small (k * i + d)) by (unfold INT_MIN, INT_MAX; lia).
  cbn [mbind option_bind].
  rewrite <- (Z2Nat.id (k * i + d)) at 1 by lia.
  apply array_load_nth. lia.
Qed.

Lemma element_at_out (v : list R) (k i d : Z) :
  k * i + d < 0 \/ Z.of_nat (List.length v) <= k * i + d ->
  element_at v k i d = None.
Proof.
  intros Hout. unfold element_at, int_of.
  destruct ((INT_MIN <=? k * i) && (k * i <=? INT_MAX)); [| reflexivity].
  cbn [mbind option_bind].
  destruct ((INT_MIN <=? k * i + d) && (k * i + d <=? INT_MAX)); [| reflexivity].
  cbn [mbind option_bind]. now apply array_load_out.
Qed.

Lemma in_range_dec (f : index_t) : {in_range attrib f} + {~ in_range attrib f}.
Proof.
  unfold in_range.
  destruct (Z_le_dec 0 (vertex_index f));
    destruct (Z_lt_dec (3 * vertex_index f + 2) (Z.of_nat (List.length (vertices attrib))));
    destruct (Z_lt_dec (normal_index f) 0);
    destruct (Z_lt_dec (3 * normal_index f + 2) (Z.of_nat (List.length (normals attrib))));
    destruct (Z_lt_dec (texcoord_index f) 0);
    destruct (Z_lt_dec (2 * texcoord_index f + 1) (Z.of_nat (List.length (texcoords attrib))));
    first [left; lia | right; lia].
Qed.

Lemma push_vertex_in_range (b : Build) (f : index_t) :
  int_sized attrib -> in_range attrib f ->
  push_vertex attrib b f
  = Some (mk_Build (data b ++ vertex_of f) (idx b ++ [index b])
                   ((index b + 1) mod 2 ^ 32)).
Proof.
  intros (Sv & Sn & St) (Hv0 & Hv & Hn & Ht).
  unfold push_vertex, vertex_of, position_of, normal_of, texcoord_of.
  rewrite !(element_at_in (vertices attrib)) by lia.
  cbn [mbind option_bind].
  destruct (Z.geb_spec (normal_index f) 0) as [Hn0 | Hn0].
  - rewrite !(element_at_in (normals attrib)) by lia.
    cbn [mbind option_bind].
    destruct (Z.geb_spec (texcoord_index f) 0) as [Ht0 | Ht0].
    + rewrite !(element_at_in (texcoords attrib)) by lia.
      cbn [mbind option_bind]. rewrite !Z.add_0_r, <- !app_assoc. reflexivity.
    + cbn [mbind option_bind]. rewrite !Z.add_0_r, <- !app_assoc. reflexivity.
  - cbn [mbind option_bind].
    destruct (Z.geb_spec (texcoord_index f) 0) as [Ht0 | Ht0].
    + rewrite !(element_at_in (texcoords attrib)) by lia.
      cbn [mbind option_bind]. rewrite !Z.add_0_r, <- !app_assoc. reflexivity.
    + cbn [mbind option_bind]. rewrite !Z.add_0_r, <- !app_assoc. reflexivity.
Qed.

Lemma push_vertex_out_of_range (b : Build) (f : index_t) :
  ~ in_range attrib f -> push_vertex attrib b f = None.
Proof.
  intros Hout. unfold push_vertex.
  destruct (element_at (vertices attrib) 3 (vertex_index f) 0) as [p0 |] eqn:E0;
    [| reflexivity].
  destruct (element_at (vertices attrib) 3 (vertex_index f) 1) as [p1 |] eqn:E1;
    [| reflexivity].
  destruct (element_at (vertices attrib) 3 (vertex_index f) 2) as [p2 |] eqn:E2;
    [| reflexivity].
  cbn [mbind option_bind].
  assert (Hv : 0 <= vertex_index f /\
               3 * vertex_index f + 2 < Z.of_nat (List.length (vertices attrib))).
  { destruct (Z_lt_dec (3 * vertex_index f + 0) 0) as [Hneg |];
      [rewrite element_at_out in E0 by lia; discriminate |].
    destruct (Z_le_dec (Z.of_nat (List.length (vertices attrib))) (3 * vertex_index f + 2));
      [rewrite element_at_out in E2 by lia; discriminate |].
    lia. }
  destruct (Z.geb_spec (normal_index f) 0) as [Hn0 | Hn0].
  - destruct (element_at (normals attrib) 3 (normal_index f) 0) as [n0 |]; [| reflexivity].
    destruct (element_at (normals attrib) 3 (normal_index f) 1) as [n1 |]; [| reflexivity].
    destruct (element_at (normals attrib) 3 (normal_index f) 2) as [n2 |] eqn:En2;
      [| reflexivity].
    cbn [mbind option_bind].
    assert (Hn : 3 * normal_index f + 2 < Z.of_nat (List.length (normals attrib))).
    { destruct (Z_le_dec (Z.of_nat (List.length (normals attrib))) (3 * normal_index f + 2));
        [rewrite element_at_out in En2 by lia; discriminate | lia]. }
    destruct (Z.geb_spec (texcoord_index f) 0) as [Ht0 | Ht0].
    + destruct (element_at (texcoords attrib) 2 (texcoord_index f) 0) as [t0 |];
        [| reflexivity].
      destruct (element_at (texcoords attrib) 2 (texcoord_index f) 1) as [t1 |] eqn:Et1;
        [| reflexivity].
      exfalso. apply Hout. unfold in_range.
      destruct (Z_le_dec (Z.of_nat (List.length (texcoords attrib))) (2 * texcoord_index f + 1));
        [rewrite element_at_out in Et1 by lia; discriminate | lia].
    + exfalso. apply Hout. unfold in_range. lia.
  - cbn [mbind option_bind].
    destruct (Z.geb_spec (texcoord_index f) 0) as [Ht0 | Ht0].
    + destruct (element_at (texcoords attrib) 2 (texcoord_index f) 0) as [t0 |];
        [| reflexivity].
      destruct (element_at (texcoords attrib) 2 (texcoord_index f) 1) as [t1 |] eqn:Et1;
        [| reflexivity].
      exfalso. apply Hout. unfold in_range.
      destruct (Z_le_dec (Z.of_nat (List.length (texcoords attrib))) (2 * texcoord_index f + 1));
        [rewrite element_at_out in Et1 by lia; discriminate | lia].
    + exfalso. apply Hout. unfold in_range. lia.
Qed.

(** The counter values [idx] receives, from a counter at [c]. *)
Let counters (c : Z) (n : nat) : list Z :=
  map (fun j : nat => (c + Z.of_nat j) mod 2 ^ 32) (seq 0 n).

Lemma counters_S (c : Z) (n : nat) :
  counters c (S n) = c mod 2 ^ 32 :: counters (c + 1) n.
Proof.
  unfold counters. cbn [seq map]. rewrite Z.add_0_r. f_equal.
  rewrite <- seq_shift, map_map. apply map_ext. intros j. f_equal. lia.
Qed.

Lemma indices_loop_spec (fs : list index_t) : forall (b : Build) (c : Z),
  int_sized attrib ->
  index b = c mod 2 ^ 32 ->
  (Forall (in_range attrib) fs ->
   indices_loop attrib fs b
   = Some (mk_Build (data b ++ flat_map vertex_of fs)
                    (idx b ++ counters c (List.length fs))
                    ((c + Z.of_nat (List.length fs)) mod 2 ^ 32))) /\
  (~ Forall (in_range attrib) fs -> indices_loop attrib fs b = None).
Proof.
  induction fs as [| f fs IH]; intros b c Hsize Hc.
  - split.
    + intros _. cbn [indices_loop flat_map List.length]. unfold counters.
      cbn [seq map]. rewrite !app_nil_r, Z.add_0_r, <- Hc. now destruct b.
    + intros H. exfalso. apply H. constructor.
  - cbn [indices_loop]. destruct (in_range_dec f) as [Hin | Hout].
    + rewrite (push_vertex_in_range b f Hsize Hin). cbn [mbind option_bind].
      set (b' := mk_Build _ _ _).
      assert (Hc' : index b' = (c + 1) mod 2 ^ 32).
      { unfold b'. cbn [index]. rewrite Hc. apply Zplus_mod_idemp_l. }
      destruct (IH b' (c + 1) Hsize Hc') as [Hok Hfail].
      split.
      * intros Hall. apply Forall_cons in Hall as [_ Hall].
        rewrite (Hok Hall). unfold b'. cbn [data idx flat_map List.length].
        rewrite counters_S, <- Hc, <- !app_assoc. cbn [app].
        do 2 f_equal. f_equal. lia.
      * intros Hnot. apply Hfail. intros Hall. apply Hnot. now constructor.
    + rewrite (push_vertex_out_of_range b f Hout). cbn [mbind option_bind].
      split; [| reflexivity].
      intros Hall. apply Forall_cons in Hall as [Hin _]. contradiction.
Qed.

Lemma indices_loop_app (fs fs' : list index_t) : forall b : Build,
  indices_loop attrib (fs ++ fs') b
  = indices_loop attrib fs b ≫= indices_loop attrib fs'.
Proof.
  induction fs as [| f fs IH]; intros b; [reflexivity |].
  cbn [app indices_loop].
  destruct (push_vertex attrib b f) as [b' |]; cbn [mbind option_bind]; [apply IH | reflexivity].
Qed.

Lemma shapes_loop_flat (shapes : list shape_t) : forall b : Build,
  shapes_loop attrib shapes b = indices_loop attrib (flat_map indices shapes) b.
Proof.
  induction shapes as [| sh shapes IH]; intros b; [reflexivity |].
  cbn [shapes_loop flat_map]. rewrite indices_loop_app.
  destruct (indices_loop attrib (indices sh) b) as [b' |]; cbn [mbind option_bind];
    [apply IH | reflexivity].
Qed.

Lemma vertex_of_length (f : index_t) : List.length (vertex_of f) = 8%nat.
Proof.
  unfold vertex_of, position_of, normal_of, texcoord_of.
  destruct (normal_index f >=? 0), (texcoord_index f >=? 0); reflexivity.
Qed.

Lemma flat_map_vertex_length (fs : list index_t) :
  List.length (flat_map vertex_of fs) = (8 * List.length fs)%nat.
Proof.
  induction fs as [| f fs IH]; [reflexivity |].
  cbn [flat_map List.length]. rewrite length_app, vertex_of_length, IH. lia.
Qed.

Lemma flat_map_vertex_drop (fs : list index_t) : forall (k : nat) (f : index_t),
  fs !! k = Some f ->
  exists rest : list R,
    drop (8 * k) (flat_map vertex_of fs) = vertex_of f ++ rest.
Proof.
  induction fs as [| f0 fs IH]; intros k f Hk; [discriminate |].
  destruct k as [| k].
  - injection Hk as ->. exists (flat_map vertex_of fs). reflexivity.
  - cbn [lookup list_lookup] in Hk. destruct (IH k f Hk) as [rest Hrest].
    exists rest. cbn [flat_map].
    replace (8 * S k)%nat with (List.length (vertex_of f0) + 8 * k)%nat
      by (rewrite vertex_of_length; lia).
    rewrite drop_app_add'; [exact Hrest | reflexivity].
Qed.

End BuildFacts.

Section UploadFacts.
Import Motion Files Model.
Local Open Scope Z_scope.

Lemma byte_size_small (n : nat) :
  Z.of_nat n <= 8 * INT_MAX + 8 ->
  Z.to_nat (byte_size n 4 / 4) = n.
Proof.
  intros Hn. unfold byte_size, INT_MAX in *.
  rewrite Z.mod_small by lia. rewrite Z.div_mul by lia. lia.
Qed.

(** What a read of an attribute returns, given where it starts. *)
Lemma fetch_at (s : VertexState) (vao a : N) (p : Pointer) (l : list R) (v q : Z) :
  attrib_enabled s vao a = true ->
  attrib_pointer s vao a = Some p ->
  buffer_store s (p_buffer p) = Some (Floats l) ->
  p_offset p + v * p_stride p = q * 4 ->
  0 <= q -> 0 <= p_size p -> q + p_size p <= Z.of_nat (List.length l) ->
  fetch s vao a v = Some (take (Z.to_nat (p_size p)) (drop (Z.to_nat q) l)).
Proof.
  intros He Hp Hb Hq Hq0 Hs0 Hlen. unfold fetch, sizeof_float.
  rewrite He, Hp. cbn [mbind option_bind]. rewrite Hb, Hq.
  rewrite Z.mod_mul, Z.div_mul by lia.
  replace (0 <=? q * 4) with true by (symmetry; apply Z.leb_le; lia).
  replace (q * 4 + 4 * p_size p <=? 4 * Z.of_nat (List.length l)) with true
    by (symmetry; apply Z.leb_le; lia).
  reflexivity.
Qed.

(** A read that starts outside the buffer fails. *)
Lemma fetch_beyond (s : VertexState) (vao a : N) (p : Pointer) (l : list R) (v : Z) :
  attrib_pointer s vao a = Some p ->
  buffer_store s (p_buffer p) = Some (Floats l) ->
  4 * Z.of_nat (List.length l) < p_offset p + v * p_stride p + 4 * p_size p ->
  fetch s vao a v = None.
Proof.
  intros Hp Hb Hout. unfold fetch, sizeof_float.
  destruct (attrib_enabled s vao a); [| reflexivity].
  rewrite Hp. cbn [mbind option_bind]. rewrite Hb.
  replace (p_offset p + v * p_stride p + 4 * p_size p <=? 4 * Z.of_nat (List.length l))
    with false by (symmetry; apply Z.leb_gt; lia).
  now rewrite andb_false_r.
Qed.

Lemma loadObjToMesh_layout (LoadObj : string -> string -> ObjFile) (path : string)
    (mesh : Render.Mesh) (s : VertexState) (b : Build) :
  let obj := LoadObj path (base_dir path) in
  obj_ok obj = true ->
  shapes_loop (obj_attrib obj) (obj_shapes obj) (mk_Build [] [] 0) = Some b ->
  Z.of_nat (List.length (data b)) <= 8 * INT_MAX + 8 ->
  Z.of_nat (List.length (idx b)) <= 8 * INT_MAX + 8 ->
  next_buffer s <> 0%N ->
  exists (m : Render.Mesh) (s' : VertexState),
    loadObjToMesh LoadObj path mesh s = Some (true, m, s') /\
    MeshLayout s s' m b.
Proof.
  cbv zeta. intros Hok Hb Hd Hi Hnb. unfold loadObjToMesh.
  rewrite Hok, Hb. cbn [negb mbind option_bind].
  unfold sizeof_float, sizeof_unsigned_int.
  destruct s as [nva nb vab abb eab store en ptr]. cbn in Hnb.
  vertex_simpl.
  assert (H0 : (nb =? 0)%N = false) by now apply N.eqb_neq.
  assert (H1 : (nb + 1 =? 0)%N = false) by (apply N.eqb_neq; lia).
  rewrite H0. vertex_simpl. rewrite fn_lookup_insert, H1. vertex_simpl.
  unfold first_bytes, sizeof_float, sizeof_unsigned_int.
  rewrite !byte_size_small by assumption. rewrite !firstn_all.
  eexists _, _. split; [reflexivity |].
  constructor; cbn [Render.vao Render.vbo Render.ebo Render.count next_vertex_array
    next_buffer vertex_array_binding buffer_store element_array_buffer attrib_enabled
    attrib_pointer]; try reflexivity.
  - lia.
  - rewrite fn_lookup_insert_ne by lia. apply fn_lookup_insert.
  - apply fn_lookup_insert.
  - intros n Hn Hn'. now rewrite !fn_lookup_insert_ne by congruence.
  - apply fn_lookup_insert.
  - intros a. rewrite fn_lookup_insert.
    destruct (N.ltb_spec a 3) as [Hlt | Hge].
    + assert (Ha : a = 0%N \/ a = 1%N \/ a = 2%N) by lia.
      destruct Ha as [-> | [-> | ->]]; now fn_simpl.
    + now fn_simpl.
  - rewrite fn_lookup_insert. now fn_simpl.
  - rewrite fn_lookup_insert. now fn_simpl.
  - rewrite fn_lookup_insert. now fn_simpl.
  - intros v Hv. now rewrite !fn_lookup_insert_ne by congruence.
Qed.

End UploadFacts.

Section LayoutFacts.
Import Motion Files Model.
Local Open Scope Z_scope.

Lemma initQuad_layout (s : VertexState) :
  next_buffer s <> 0%N ->
  QuadLayout s (snd (initQuad s)) (fst (initQuad s)).
Proof.
  intros Hnb. unfold initQuad.
  destruct s as [nva nb vab abb eab store en ptr]. cbn in Hnb.
  vertex_simpl.
  assert (H0 : (nb =? 0)%N = false) by now apply N.eqb_neq.
  rewrite H0. vertex_simpl.
  unfold first_bytes, sizeof_float.
  constructor; cbn [next_vertex_array next_buffer vertex_array_binding buffer_store
    element_array_buffer attrib_enabled attrib_pointer]; try reflexivity.
  - apply fn_lookup_insert.
  - intros n Hn. now rewrite fn_lookup_insert_ne by congruence.
  - intros a. rewrite fn_lookup_insert.
    destruct (N.ltb_spec a 2) as [Hlt | Hge].
    + assert (Ha : a = 0%N \/ a = 1%N) by lia.
      destruct Ha as [-> | ->]; now fn_simpl.
    + now fn_simpl.
  - rewrite fn_lookup_insert. now fn_simpl.
  - rewrite fn_lookup_insert. now fn_simpl.
  - intros v Hv. now rewrite !fn_lookup_insert_ne by congruence.
Qed.

(** The reads of the three attributes of vertex [k] from an interleaved
    buffer of eight floats per vertex. *)
Lemma interleaved_fetch (attrib : attrib_t) (t : VertexState) (vao buffer : N)
    (fs : list index_t) (k : nat) (f : index_t) :
  let vertex_of f := position_of attrib f ++ normal_of attrib f ++ texcoord_of attrib f in
  (forall a : N, (a < 3)%N -> attrib_enabled t vao a = true) ->
  attrib_pointer t vao 0 = Some (mk_Pointer 3 32 0 buffer) ->
  attrib_pointer t vao 1 = Some (mk_Pointer 3 32 12 buffer) ->
  attrib_pointer t vao 2 = Some (mk_Pointer 2 32 24 buffer) ->
  buffer_store t buffer = Some (Floats (flat_map vertex_of fs)) ->
  fs !! k = Some f ->
  fetch t vao 0 (Z.of_nat k) = Some (position_of attrib f) /\
  fetch t vao 1 (Z.of_nat k) = Some (normal_of attrib f) /\
  fetch t vao 2 (Z.of_nat k) = Some (texcoord_of attrib f).
Proof.
  cbv zeta. intros He H0 H1 H2 Hb Hk.
  destruct (flat_map_vertex_drop attrib fs k f Hk) as [rest Hrest].
  rewrite <- !app_assoc in Hrest.
  pose proof (flat_map_vertex_length attrib fs) as Hlen.
  pose proof (lookup_lt_Some _ _ _ Hk) as Hlt.
  set (l := flat_map _ fs) in *.
  assert (Hp : List.length (position_of attrib f) = 3%nat) by reflexivity.
  assert (Hn : List.length (normal_of attrib f) = 3%nat)
    by (unfold normal_of; destruct (normal_index f >=? 0); reflexivity).
  assert (Ht : List.length (texcoord_of attrib f) = 2%nat)
    by (unfold texcoord_of; destruct (texcoord_index f >=? 0); reflexivity).
  split_and!.
  - rewrite (fetch_at t vao 0 _ l (Z.of_nat k) (8 * Z.of_nat k) (He 0%N eq_refl) H0 Hb);
      cbn [p_size p_stride p_offset]; try lia.
    replace (Z.to_nat (8 * Z.of_nat k)) with (8 * k)%nat by lia.
    rewrite Hrest. change (Z.to_nat 3) with 3%nat.
    rewrite take_app_length'; [reflexivity | first [exact Hp | symmetry; exact Hp]].
  - rewrite (fetch_at t vao 1 _ l (Z.of_nat k) (8 * Z.of_nat k + 3) (He 1%N eq_refl) H1 Hb);
      cbn [p_size p_stride p_offset]; try lia.
    replace (Z.to_nat (8 * Z.of_nat k + 3)) with (8 * k + 3)%nat by lia.
    rewrite <- drop_drop, Hrest. change (Z.to_nat 3) with 3%nat.
    rewrite drop_app_length'; [| first [exact Hp | symmetry; exact Hp]].
    rewrite take_app_length'; [reflexivity | first [exact Hn | symmetry; exact Hn]].
  - rewrite (fetch_at t vao 2 _ l (Z.of_nat k) (8 * Z.of_nat k + 6) (He 2%N eq_refl) H2 Hb);
      cbn [p_size p_stride p_offset]; try lia.
    replace (Z.to_nat (8 * Z.of_nat k + 6)) with (8 * k + (3 + 3))%nat by lia.
    rewrite <- drop_drop, Hrest, <- drop_drop. change (Z.to_nat 2) with 2%nat.
    rewrite drop_app_length'; [| first [exact Hp | symmetry; exact Hp]].
    rewrite drop_app_length'; [| first [exact Hn | symmetry; exact Hn]].
    rewrite take_app_length'; [reflexivity | first [exact Ht | symmetry; exact Ht]].
Qed.

(** What the loops of [loadObjToMesh] build from a file whose face indices
    are all in range. *)
Lemma build_of_file (obj : ObjFile) :
  let attrib := obj_attrib obj in
  let vertex_of f := position_of attrib f ++ normal_of attrib f ++ texcoord_of attrib f in
  int_sized attrib ->
  Z.of_nat (List.length (face_indices obj)) <= INT_MAX ->
  Forall (in_range attrib) (face_indices obj) ->
  exists b : Build,
    shapes_loop attrib (obj_shapes obj) (mk_Build [] [] 0) = Some b /\
    data b = flat_map vertex_of (face_indices obj) /\
    List.length (idx b) = List.length (face_indices obj) /\
    forall k : nat,
      (k < List.length (face_indices obj))%nat -> idx b !! k = Some (Z.of_nat k).
Proof.
  cbv zeta. intros Hsize Hn Hall. unfold face_indices in *.
  rewrite shapes_loop_flat.
  destruct (indices_loop_spec (obj_attrib obj) (flat_map indices (obj_shapes obj))
              (mk_Build [] [] 0) 0 Hsize eq_refl) as [Hok _].
  rewrite (Hok Hall). eexists. split; [reflexivity |].
  cbn [data idx app]. split_and!.
  - reflexivity.
  - now rewrite length_map, length_seq.
  - intros k Hk. rewrite list_lookup_fmap, lookup_seq_lt by exact Hk.
    cbn [fmap option_fmap option_map]. f_equal.
    unfold INT_MAX in Hn. rewrite Z.mod_small by lia. lia.
Qed.

End LayoutFacts.

Section MeshTheorems.
Import Motion Files Model.
Local Open Scope Z_scope.

Lemma array_load_lookup {A : Type} (a : list A) (k : nat) (v : A) :
  a !! k = Some v -> array_load a (Z.of_nat k) = Some v.
Proof.
  intros Hk. pose proof (lookup_lt_Some _ _ _ Hk) as Hlt.
  rewrite (array_load_nth a k v Hlt). f_equal.
  now apply nth_lookup_Some.
Qed.

Lemma to_GLsizei_small (n : Z) : 0 <= n <= INT_MAX -> to_GLsizei n = n.
Proof.
  unfold to_GLsizei, INT_MAX. intros Hn.
  rewrite Z.mod_small by lia.
  now replace (n <? 2 ^ 31) with true by (symmetry; apply Z.ltb_lt; lia).
Qed.

(** X20.  When the parser succeeds with face indices that are all in
    range, [loadObjToMesh] succeeds, gives the mesh a vertex array other
    than 0 and the number of face indices as its count, and leaves no
    vertex array bound.  A draw of that vertex array then reads, for its
    k-th index, vertex number k, whose three attributes are the position,
    the normal and the texture coordinate the k-th face index names in the
    file, with (0, 1, 0) for a missing normal and (0, 0) for a missing
    texture coordinate; the element array ends right after the last
    index. *)
Theorem loadObjToMesh_draws_the_faces
    (LoadObj : string -> string -> ObjFile) (path : string)
    (mesh : Render.Mesh) (s : VertexState) :
  let obj := LoadObj path (base_dir path) in
  let attrib := obj_attrib obj in
  let faces := face_indices obj in
  obj_ok obj = true ->
  int_sized attrib ->
  Z.of_nat (List.length faces) <= INT_MAX ->
  Forall (in_range attrib) faces ->
  next_vertex_array s <> 0%N ->
  next_buffer s <> 0%N ->
  exists (m : Render.Mesh) (s' : VertexState),
    loadObjToMesh LoadObj path mesh s = Some (true, m, s') /\
    Render.vao m <> 0%N /\
    Render.count m = Z.of_nat (List.length faces) /\
    vertex_array_binding s' = 0%N /\
    element s' (Render.vao m) (Render.count m) = None /\
    forall (k : nat) (f : index_t),
      faces !! k = Some f ->
      element s' (Render.vao m) (Z.of_nat k) = Some (Z.of_nat k) /\
      fetch s' (Render.vao m) 0 (Z.of_nat k) = Some (position_of attrib f) /\
      fetch s' (Render.vao m) 1 (Z.of_nat k) = Some (normal_of attrib f) /\
      fetch s' (Render.vao m) 2 (Z.of_nat k) = Some (texcoord_of attrib f).
Proof.
  cbv zeta. intros Hok Hsize Hn Hall Hva Hnb.
  destruct (build_of_file _ Hsize Hn Hall) as (b & Hb & Hdata & Hlen & Hidx).
  assert (Hd : Z.of_nat (List.length (data b)) <= 8 * INT_MAX + 8)
    by (rewrite Hdata, flat_map_vertex_length; lia).
  assert (Hi : Z.of_nat (List.length (idx b)) <= 8 * INT_MAX + 8)
    by (unfold INT_MAX in *; lia).
  destruct (loadObjToMesh_layout LoadObj path mesh s b Hok Hb Hd Hi Hnb)
    as (m & s' & Hload & L).
  exists m, s'.
  assert (Hcount : Render.count m
                   = Z.of_nat (List.length (face_indices (LoadObj path (base_dir path))))).
  { rewrite (ml_count _ _ _ _ L), Hlen. apply to_GLsizei_small. lia. }
  split_and!.
  - exact Hload.
  - now rewrite (ml_vao _ _ _ _ L).
  - exact Hcount.
  - exact (ml_binding _ _ _ _ L).
  - unfold element.
    rewrite (ml_vao _ _ _ _ L), (ml_element _ _ _ _ L), (ml_idx _ _ _ _ L), Hcount.
    apply array_load_out. right. rewrite Hlen. lia.
  - intros k f Hk. pose proof (lookup_lt_Some _ _ _ Hk) as Hlt.
    split.
    + unfold element.
      rewrite (ml_vao _ _ _ _ L), (ml_element _ _ _ _ L), (ml_idx _ _ _ _ L).
      apply array_load_lookup, Hidx, Hlt.
    + rewrite (ml_vao _ _ _ _ L).
      apply (interleaved_fetch _ s' _ (next_buffer s)
               (face_indices (LoadObj path (base_dir path))) k f).
      * intros a Ha. rewrite (ml_enabled _ _ _ _ L).
        now replace (a <? 3)%N with true by (symmetry; apply N.ltb_lt; exact Ha).
      * exact (ml_pointer0 _ _ _ _ L).
      * exact (ml_pointer1 _ _ _ _ L).
      * exact (ml_pointer2 _ _ _ _ L).
      * rewrite (ml_data _ _ _ _ L), Hdata. reflexivity.
      * exact Hk.
Qed.

Lemma loadObjToMesh_draws_the_faces_witness :
  let LoadObj := triangle_parser in
  let path := "resources/model.obj"%string in
  let mesh := Render.mk_Mesh 0 0 0 0 in
  let s := vertex_init in
  let obj := LoadObj path (base_dir path) in
  let attrib := obj_attrib obj in
  let faces := face_indices obj in
  exists (m : Render.Mesh) (s' : VertexState),
    loadObjToMesh LoadObj path mesh s = Some (true, m, s') /\
    Render.vao m <> 0%N /\
    Render.count m = Z.of_nat (List.length faces) /\
    vertex_array_binding s' = 0%N /\
    element s' (Render.vao m) (Render.count m) = None /\
    forall (k : nat) (f : index_t),
      faces !! k = Some f ->
      element s' (Render.vao m) (Z.of_nat k) = Some (Z.of_nat k) /\
      fetch s' (Render.vao m) 0 (Z.of_nat k) = Some (position_of attrib f) /\
      fetch s' (Render.vao m) 1 (Z.of_nat k) = Some (normal_of attrib f) /\
      fetch s' (Render.vao m) 2 (Z.of_nat k) = Some (texcoord_of attrib f).
Proof.
  apply (loadObjToMesh_draws_the_faces triangle_parser "resources/model.obj"
           (Render.mk_Mesh 0 0 0 0) vertex_init).
  - reflexivity.
  - unfold int_sized, INT_MAX. cbn. lia.
  - unfold INT_MAX. cbn. lia.
  - unfold in_range. repeat constructor; cbn; lia.
  - discriminate.
  - discriminate.
Defined.

(** X21.  When the parser succeeds, with vectors short enough for an
    [int] to index them, [loadObjToMesh] reads outside a vector exactly
    when some face index is out of range.  The function tests the normal
    and texture indices for a negative value but not the vertex index, so
    a face index without a vertex is one such case. *)
Theorem loadObjToMesh_reads_outside_iff
    (LoadObj : string -> string -> ObjFile) (path : string)
    (mesh : Render.Mesh) (s : VertexState) :
  let obj := LoadObj path (base_dir path) in
  let attrib := obj_attrib obj in
  obj_ok obj = true ->
  int_sized attrib ->
  (loadObjToMesh LoadObj path mesh s = None
   <-> Exists (fun f : index_t => ~ in_range attrib f) (face_indices obj)) /\
  (forall f : index_t, vertex_index f < 0 -> ~ in_range attrib f).
Proof.
  cbv zeta. intros Hok Hsize. split.
  - rewrite Exists_Forall_neg
      by (intros f; destruct (in_range_dec (obj_attrib (LoadObj path (base_dir path))) f);
          tauto).
    unfold loadObjToMesh, face_indices. rewrite Hok. cbn [negb].
    rewrite shapes_loop_flat.
    destruct (indices_loop_spec _ (flat_map indices (obj_shapes (LoadObj path (base_dir path))))
                (mk_Build [] [] 0) 0 Hsize eq_refl) as [Hgood Hbad].
    split.
    + intros Hnone Hall. rewrite (Hgood Hall) in Hnone.
      cbn [mbind option_bind] in Hnone. discriminate.
    + intros Hnot. rewrite (Hbad Hnot). reflexivity.
  - intros f Hneg Hin. unfold in_range in Hin. lia.
Qed.

Lemma loadObjToMesh_reads_outside_iff_witness :
  let LoadObj := broken_parser in
  let path := "resources/model.obj"%string in
  let mesh := Render.mk_Mesh 0 0 0 0 in
  let s := vertex_init in
  let obj := LoadObj path (base_dir path) in
  let attrib := obj_attrib obj in
  (loadObjToMesh LoadObj path mesh s = None
   <-> Exists (fun f : index_t => ~ in_range attrib f) (face_indices obj)) /\
  (forall f : index_t, vertex_index f < 0 -> ~ in_range attrib f).
Proof.
  apply (loadObjToMesh_reads_outside_iff broken_parser "resources/model.obj"
           (Render.mk_Mesh 0 0 0 0) vertex_init).
  - reflexivity.
  - unfold int_sized, INT_MAX. cbn. lia.
Defined.

End MeshTheorems.

Section QuadTheorems.
Import Motion Files Model.
Local Open Scope Z_scope.

(** The two attributes of vertex [k] of the screen quad. *)
Lemma quad_fetch (s s' : VertexState) (q : N) (k : nat) :
  QuadLayout s s' q ->
  (k < 6)%nat ->
  fetch s' q 0 (Z.of_nat k) = Some (take 2 (drop (4 * k) quadVerts)) /\
  fetch s' q 1 (Z.of_nat k) = Some (take 2 (drop (4 * k + 2) quadVerts)).
Proof.
  intros Q Hk.
  assert (He : forall a : N, (a < 2)%N -> attrib_enabled s' q a = true).
  { intros a Ha. rewrite (ql_enabled _ _ _ Q).
    now replace (a <? 2)%N with true by (symmetry; apply N.ltb_lt; exact Ha). }
  assert (Hlen : List.length quadVerts = 24%nat) by reflexivity.
  split.
  - rewrite (fetch_at s' q 0 _ quadVerts (Z.of_nat k) (4 * Z.of_nat k)
               (He 0%N eq_refl) (ql_pointer0 _ _ _ Q) (ql_data _ _ _ Q));
      cbn [p_size p_stride p_offset]; try lia.
    now replace (Z.to_nat (4 * Z.of_nat k)) with (4 * k)%nat by lia.
  - rewrite (fetch_at s' q 1 _ quadVerts (Z.of_nat k) (4 * Z.of_nat k + 2)
               (He 1%N eq_refl) (ql_pointer1 _ _ _ Q) (ql_data _ _ _ Q));
      cbn [p_size p_stride p_offset]; try lia.
    now replace (Z.to_nat (4 * Z.of_nat k + 2)) with (4 * k + 2)%nat by lia.
Qed.

(** [initQuad] leaves the reads of the other vertex arrays as they were. *)
Lemma quad_frame (s s' : VertexState) (q vao a : N) (v : Z) :
  QuadLayout s s' q ->
  vao <> q ->
  (forall p : Pointer, attrib_pointer s vao a = Some p -> p_buffer p <> next_buffer s) ->
  fetch s' vao a v = fetch s vao a v.
Proof.
  intros Q Hne Hp. unfold fetch.
  destruct (ql_others _ _ _ Q vao Hne) as [-> ->].
  destruct (attrib_enabled s vao a); [| reflexivity].
  destruct (attrib_pointer s vao a) as [p |]; [| reflexivity].
  cbn [mbind option_bind]. now rewrite (ql_store _ _ _ Q) by now apply Hp.
Qed.

(** X22.  [initQuad] returns a new vertex array and leaves none bound.  A
    draw of it reads six vertices: each has a position at a corner of the
    square from -1 to 1 and the texture coordinate [(position + 1) / 2],
    and a seventh vertex would be outside the buffer.  The reads of every
    other vertex array whose attributes do not use the new buffer stay as
    they were. *)
Theorem initQuad_vertices (s : VertexState) :
  next_buffer s <> 0%N ->
  let quadVAO := fst (initQuad s) in
  let s' := snd (initQuad s) in
  quadVAO = next_vertex_array s /\
  vertex_array_binding s' = 0%N /\
  (forall k : Z,
     0 <= k < 6 ->
     exists x y : R,
       fetch s' quadVAO 0 k = Some [x; y] /\
       fetch s' quadVAO 1 k = Some [(x + 1) / 2; (y + 1) / 2]%R /\
       (x = 1 \/ x = -1)%R /\ (y = 1 \/ y = -1)%R) /\
  fetch s' quadVAO 0 6 = None /\
  fetch s' quadVAO 1 6 = None /\
  (forall (vao a : N) (v : Z),
     vao <> quadVAO ->
     (forall p : Pointer, attrib_pointer s vao a = Some p -> p_buffer p <> next_buffer s) ->
     fetch s' vao a v = fetch s vao a v).
Proof.
  intros Hnb. cbv zeta.
  pose proof (initQuad_layout s Hnb) as Q.
  set (q := fst (initQuad s)) in *. set (s' := snd (initQuad s)) in *.
  clearbody q s'.
  split_and!.
  - exact (ql_vao _ _ _ Q).
  - exact (ql_binding _ _ _ Q).
  - intros k Hk.
    assert (Hcase : exists n : nat, (n < 6)%nat /\ k = Z.of_nat n)
      by (exists (Z.to_nat k); lia).
    destruct Hcase as (n & Hn & ->).
    destruct (quad_fetch s s' q n Q Hn) as [-> ->].
    do 6 (destruct n as [| n]; [cbn [Nat.mul Nat.add drop take quadVerts];
      eexists _, _; split; [reflexivity |];
      split; [do 2 f_equal; [| f_equal]; lra | split; lra] |]).
    lia.
  - apply (fetch_beyond s' q 0 _ quadVerts 6 (ql_pointer0 _ _ _ Q) (ql_data _ _ _ Q)).
    cbn. lia.
  - apply (fetch_beyond s' q 1 _ quadVerts 6 (ql_pointer1 _ _ _ Q) (ql_data _ _ _ Q)).
    cbn. lia.
  - intros vao a v Hne Hp. now apply (quad_frame s s' q).
Qed.

Lemma initQuad_vertices_witness :
  let s := vertex_init in
  let quadVAO := fst (initQuad s) in
  let s' := snd (initQuad s) in
  quadVAO = next_vertex_array s /\
  vertex_array_binding s' = 0%N /\
  (forall k : Z,
     0 <= k < 6 ->
     exists x y : R,
       fetch s' quadVAO 0 k = Some [x; y] /\
       fetch s' quadVAO 1 k = Some [(x + 1) / 2; (y + 1) / 2]%R /\
       (x = 1 \/ x = -1)%R /\ (y = 1 \/ y = -1)%R) /\
  fetch s' quadVAO 0 6 = None /\
  fetch s' quadVAO 1 6 = None /\
  (forall (vao a : N) (v : Z),
     vao <> quadVAO ->
     (forall p : Pointer, attrib_pointer s vao a = Some p -> p_buffer p <> next_buffer s) ->
     fetch s' vao a v = fetch s vao a v).
Proof.
  apply (initQuad_vertices vertex_init). discriminate.
Defined.

End QuadTheorems.

Section DrawShapes.
Import GL Render Stages Assets.
Local Open Scope N_scope.

(** Every draw call of the loop is the draw of the mesh or a draw of the
    six vertices of the screen quad. *)
Lemma main_loop_draw_shapes (env : Env) (passes : Z) (k : nat) :
  Forall (fun d : Draw =>
            (vao (mesh env) <> 0 /\
             d_command d = DrawElements (count (mesh env)) /\
             d_vertex_array d = vao (mesh env)) \/
            (d_command d = DrawArrays 0 6 /\ d_vertex_array d = quadVAO env))
         (draws (main_loop env passes k)).
Proof.
  induction k as [| k IH].
  - destruct (setup_assets env) as (Hd & _).
    change (main_loop env passes 0) with (snd (setup env context_init)).
    rewrite Hd. constructor.
  - rewrite main_loop_draws. apply Forall_app. split; [exact IH |].
    pose proof (geometry_draws_eq env passes k) as Hg. cbv zeta in Hg.
    unfold bright_draws, blur_draws, composite_draws, after_blur, after_bright,
      after_geometry.
    set (r := resources env) in *. set (g := main_loop env passes k) in *.
    clearbody r g.
    pose proof (bright_draws_eq env r g) as Hb.
    pose proof (blur_draws_spec env r passes g) as [_ Hblur].
    pose proof (composite_draws_eq env r passes g) as Hc. cbv zeta in Hc.
    rewrite Hg, Hb, Hc.
    repeat (apply Forall_app; split).
    + destruct (N.eqb_spec (vao (mesh env)) 0) as [_ | Hne]; constructor; [| constructor].
      left. cbn [d_command d_vertex_array]. auto.
    + constructor; [| constructor]. right. cbn [d_command d_vertex_array]. auto.
    + apply Forall_lookup. intros j d Hj.
      specialize (Hblur j d Hj). right.
      split; [exact (bd_command _ _ _ _ _ _ Hblur) | exact (bd_vertex_array _ _ _ _ _ _ Hblur)].
    + constructor; [| constructor]. right. cbn [d_command d_vertex_array]. auto.
Qed.

End DrawShapes.

Section PipelineReads.
Import Motion Files Model.
Local Open Scope Z_scope.

Lemma loadObjToMesh_out_of_range (LoadObj : string -> string -> ObjFile)
    (path : string) (mesh : Render.Mesh) (s : VertexState) :
  let obj := LoadObj path (base_dir path) in
  obj_ok obj = true ->
  int_sized (obj_attrib obj) ->
  ~ Forall (in_range (obj_attrib obj)) (face_indices obj) ->
  loadObjToMesh LoadObj path mesh s = None.
Proof.
  cbv zeta. intros Hok Hsize Hnot.
  unfold loadObjToMesh, face_indices in *. rewrite Hok. cbn [negb].
  rewrite shapes_loop_flat.
  destruct (indices_loop_spec _ (flat_map indices (obj_shapes (LoadObj path (base_dir path))))
              (mk_Build [] [] 0) 0 Hsize eq_refl) as [_ Hbad].
  now rewrite (Hbad Hnot).
Qed.

(** A draw of the six vertices of the screen quad reads inside its buffer. *)
Lemma quad_draw_reads (s s2 : VertexState) (q : N) (d : GL.Draw) :
  QuadLayout s s2 q ->
  q <> 0%N ->
  (forall a : N, attrib_enabled s q a = false) ->
  GL.d_command d = GL.DrawArrays 0 6 ->
  GL.d_vertex_array d = q ->
  reads_in_bounds s2 d.
Proof.
  intros Q Hq Hoff Hc Hv. unfold reads_in_bounds. rewrite Hc, Hv.
  split; [exact Hq |].
  intros v a Hrange He.
  rewrite (ql_enabled _ _ _ Q), Hoff in He.
  destruct (N.ltb_spec a 2) as [Ha | _]; [| discriminate].
  assert (Hk : exists n : nat, (n < 6)%nat /\ v = Z.of_nat n)
    by (exists (Z.to_nat v); lia).
  destruct Hk as (n & Hn & ->).
  destruct (quad_fetch s s2 q n Q Hn) as [H0 H1].
  assert (Hcase : a = 0%N \/ a = 1%N) by lia.
  destruct Hcase as [-> | ->]; eexists; eassumption.
Qed.

(** The draw of the mesh reads inside its buffers, also after [initQuad]. *)
Lemma mesh_draw_reads (obj : ObjFile) (s s1 s2 : VertexState) (m : Render.Mesh)
    (b : Build) (q : N) (d : GL.Draw) :
  MeshLayout s s1 m b ->
  QuadLayout s1 s2 q ->
  next_vertex_array s <> 0%N ->
  (forall a : N, attrib_enabled s (next_vertex_array s) a = false) ->
  data b = flat_map (fun f => position_of (obj_attrib obj) f
                              ++ normal_of (obj_attrib obj) f
                              ++ texcoord_of (obj_attrib obj) f)
                    (face_indices obj) ->
  List.length (idx b) = List.length (face_indices obj) ->
  (forall j : nat, (j < List.length (face_indices obj))%nat ->
                   idx b !! j = Some (Z.of_nat j)) ->
  Z.of_nat (List.length (face_indices obj)) <= INT_MAX ->
  GL.d_command d = GL.DrawElements (Render.count m) ->
  GL.d_vertex_array d = Render.vao m ->
  reads_in_bounds s2 d.
Proof.
  intros L Q Hva Hoff Hdata Hlen Hidx Hn Hc Hv.
  unfold reads_in_bounds. rewrite Hc, Hv, (ml_vao _ _ _ _ L).
  split; [exact Hva |].
  assert (Hq : next_vertex_array s <> q)
    by (rewrite (ql_vao _ _ _ Q), (ml_next_vao _ _ _ _ L); lia).
  assert (Hcount : Render.count m = Z.of_nat (List.length (face_indices obj)))
    by (rewrite (ml_count _ _ _ _ L), Hlen; apply to_GLsizei_small; lia).
  rewrite Hcount. intros k Hk.
  assert (Hj : exists j : nat, (j < List.length (face_indices obj))%nat /\ k = Z.of_nat j)
    by (exists (Z.to_nat k); lia).
  destruct Hj as (j & Hj & ->).
  destruct (lookup_lt_is_Some_2 (face_indices obj) j Hj) as [f Hf].
  assert (Hstore : forall n : N, (n < next_buffer s1)%N ->
                                 buffer_store s2 n = buffer_store s1 n)
    by (intros n Hlt; apply (ql_store _ _ _ Q); lia).
  rewrite (ml_next_buffer _ _ _ _ L) in Hstore.
  exists (Z.of_nat j). split.
  - unfold element.
    rewrite (ql_element _ _ _ Q), (ml_element _ _ _ _ L), Hstore by lia.
    rewrite (ml_idx _ _ _ _ L). apply array_load_lookup, Hidx, Hj.
  - intros a He.
    destruct (ql_others _ _ _ Q (next_vertex_array s) Hq) as [Een Eptr].
    rewrite Een, (ml_enabled _ _ _ _ L), Hoff in He.
    destruct (N.ltb_spec a 3) as [Ha | _]; [| discriminate].
    assert (Hfetch :
              fetch s2 (next_vertex_array s) 0 (Z.of_nat j)
              = Some (position_of (obj_attrib obj) f) /\
              fetch s2 (next_vertex_array s) 1 (Z.of_nat j)
              = Some (normal_of (obj_attrib obj) f) /\
              fetch s2 (next_vertex_array s) 2 (Z.of_nat j)
              = Some (texcoord_of (obj_attrib obj) f)).
    { apply (interleaved_fetch _ s2 _ (next_buffer s) (face_indices obj) j f).
      - intros a' Ha'. rewrite Een, (ml_enabled _ _ _ _ L).
        now replace (a' <? 3)%N with true by (symmetry; apply N.ltb_lt; exact Ha').
      - rewrite Eptr. exact (ml_pointer0 _ _ _ _ L).
      - rewrite Eptr. exact (ml_pointer1 _ _ _ _ L).
      - rewrite Eptr. exact (ml_pointer2 _ _ _ _ L).
      - rewrite Hstore by lia. rewrite (ml_data _ _ _ _ L), Hdata. reflexivity.
      - exact Hf. }
    destruct Hfetch as (H0 & H1 & H2).
    assert (Hcase : a = 0%N \/ a = 1%N \/ a = 2%N) by lia.
    destruct Hcase as [-> | [-> | ->]]; eexists; eassumption.
Qed.

(** X23.  From a fresh context, when the geometry part of startup runs
    through and the render loop uses the mesh and the screen quad it
    produced: the screen quad has a vertex array; the mesh has one exactly
    when the parser succeeded; and every draw call of every round of the
    loop, for any number of blur passes, reads inside its buffers: the
    mesh draw finds each of its indices in the element array and each
    enabled attribute of the vertex it names in the vertex buffer, and
    each quad draw finds each enabled attribute of its six vertices.
    When the parser fails the loop still runs, without the mesh draw. *)
Theorem every_draw_call_reads_inside_its_buffers
    (LoadObj : string -> string -> ObjFile) (env : Render.Env)
    (passes : Z) (k : nat) (s' : VertexState) :
  let obj := LoadObj "resources/model.obj" (base_dir "resources/model.obj") in
  int_sized (obj_attrib obj) ->
  Z.of_nat (List.length (face_indices obj)) <= INT_MAX ->
  load_geometry LoadObj vertex_init = Some (Render.mesh env, Render.quadVAO env, s') ->
  Render.quadVAO env <> 0%N /\
  (Render.vao (Render.mesh env) <> 0%N <-> obj_ok obj = true) /\
  (obj_ok obj = false -> Stages.geometry_draws env passes k = []) /\
  Forall (reads_in_bounds s') (GL.draws (Render.main_loop env passes k)).
Proof.
  cbv zeta. intros Hsize Hn Hload.
  pose proof (main_loop_draw_shapes env passes k) as Hshapes.
  pose proof (geometry_draws_eq env passes k) as Hg. cbv zeta in Hg.
  set (obj := LoadObj "resources/model.obj" (base_dir "resources/model.obj")) in *.
  unfold load_geometry in Hload.
  destruct (obj_ok obj) eqn:Hok.
  - destruct (List.Forall_dec _ (in_range_dec (obj_attrib obj)) (face_indices obj))
      as [Hall | Hnot].
    + destruct (build_of_file obj Hsize Hn Hall) as (b & Hb & Hdata & Hlen & Hidx).
      assert (Hd : Z.of_nat (List.length (data b)) <= 8 * INT_MAX + 8)
        by (rewrite Hdata, flat_map_vertex_length; lia).
      assert (Hi : Z.of_nat (List.length (idx b)) <= 8 * INT_MAX + 8)
        by (unfold INT_MAX in *; lia).
      destruct (loadObjToMesh_layout LoadObj "resources/model.obj"
                  (Render.mk_Mesh 0 0 0 0) vertex_init b Hok Hb Hd Hi)
        as (m & s1 & Hm & L); [discriminate |].
      rewrite Hm in Hload. cbn [mbind option_bind] in Hload.
      assert (Hnb : next_buffer s1 <> 0%N)
        by (rewrite (ml_next_buffer _ _ _ _ L); discriminate).
      pose proof (initQuad_layout s1 Hnb) as Q.
      destruct (initQuad s1) as [q s2]. cbn [fst snd] in Q.
      injection Hload as Em Eq Es. subst s2.
      rewrite <- Em, <- Eq in *. clear Em Eq.
      assert (Hva : Render.vao m = 1%N) by exact (ml_vao _ _ _ _ L).
      assert (Hq : q = 2%N)
        by (rewrite (ql_vao _ _ _ Q), (ml_next_vao _ _ _ _ L); reflexivity).
      split_and!.
      * rewrite Hq. discriminate.
      * rewrite Hva. split; [reflexivity | discriminate].
      * discriminate.
      * eapply List.Forall_impl; [| exact Hshapes].
        intros d [(_ & Hc & Hv) | (Hc & Hv)].
        -- apply (mesh_draw_reads obj vertex_init s1 s' m b q d L Q);
             try assumption; try discriminate. intros a. reflexivity.
        -- apply (quad_draw_reads s1 s' q d Q); try assumption.
           ++ rewrite Hq. discriminate.
           ++ intros a. rewrite Hq.
              destruct (ml_others _ _ _ _ L 2%N) as (_ & -> & _); [discriminate | reflexivity].
    + rewrite (loadObjToMesh_out_of_range LoadObj "resources/model.obj" _ _ Hok Hsize Hnot)
        in Hload.
      discriminate.
  - unfold loadObjToMesh in Hload. fold obj in Hload. rewrite Hok in Hload.
    cbn [negb mbind option_bind] in Hload.
    assert (Hnb : next_buffer vertex_init <> 0%N) by discriminate.
    pose proof (initQuad_layout vertex_init Hnb) as Q.
    destruct (initQuad vertex_init) as [q s2]. cbn [fst snd] in Q.
    injection Hload as Em Eq Es. subst s2.
    rewrite <- Em, <- Eq in *. clear Em Eq.
    assert (Hq : q = 1%N) by exact (ql_vao _ _ _ Q).
    cbn [Render.vao] in *.
    split_and!.
    * rewrite Hq. discriminate.
    * split; [intros H; now contradiction H | discriminate].
    * intros _. exact Hg.
    * eapply List.Forall_impl; [| exact Hshapes].
      intros d [(Hne & _) | (Hc & Hv)]; [now contradiction Hne |].
      apply (quad_draw_reads vertex_init s' q d Q); try assumption.
      -- rewrite Hq. discriminate.
      -- intros a. reflexivity.
Qed.

Lemma every_draw_call_reads_inside_its_buffers_witness :
  let LoadObj := triangle_parser in
  let env := Render.mk_Env (fun _ => None) 1 2 3 4 (Render.mk_Mesh 1 1 2 3) 2 in
  let passes := 15 in
  let k := 2%nat in
  let s' := snd (initQuad
                   (match loadObjToMesh LoadObj "resources/model.obj"
                                        (Render.mk_Mesh 0 0 0 0) vertex_init with
                    | Some (_, _, s) => s
                    | None => vertex_init
                    end)) in
  let obj := LoadObj "resources/model.obj" (base_dir "resources/model.obj") in
  Render.quadVAO env <> 0%N /\
  (Render.vao (Render.mesh env) <> 0%N <-> obj_ok obj = true) /\
  (obj_ok obj = false -> Stages.geometry_draws env passes k = []) /\
  Forall (reads_in_bounds s') (GL.draws (Render.main_loop env passes k)).
Proof.
  apply (every_draw_call_reads_inside_its_buffers triangle_parser
           (Render.mk_Env (fun _ => None) 1 2 3 4 (Render.mk_Mesh 1 1 2 3) 2)).
  - unfold int_sized, INT_MAX. cbn. lia.
  - unfold INT_MAX. cbn. lia.
  - vm_compute. reflexivity.
Defined.

End PipelineReads.
